(** * python-zxing: the output parsers and the batch reader of [zxing/__init__.py]

    A shallow embedding of the result model ([BarCode]), of the two output
    parsers ([BarCode.parse_zxing], [BarCode.parse_rxing]), of the path
    accessor ([file_uri_to_path], [BarCode.path]), of the part of
    [ZxingBarCodeReader._decode] that classifies and reorders the output of
    the Java process, of [data_uri_to_fobj] and of
    [RxingBarCodeReader._decode], followed by the properties proved about
    them.

    Python [bytes] are lists of 8-bit characters, Python [str] are lists of
    Unicode code points, and a Python call that may raise is a computation
    in the [result] monad. *)

From Stdlib Require Import ZArith NArith QArith Ascii String List Lia DecimalString.
From stdpp Require Import base option list gmap strings.

Local Open Scope N_scope.

(** ** Python values *)

Abbreviation bytes := (list ascii) (only parsing).
Abbreviation str := (list N) (only parsing).

(** A [bytes] literal [b'...'] and an ASCII [str] literal ['...']. *)
Definition bstr (s : string) : bytes := list_ascii_of_string s.
Definition ustr (s : string) : str := N_of_ascii <$> list_ascii_of_string s.

(** What a [BarCodeReaderException] is raised [from]. *)
Inductive cause : Type :=
| FileNotFoundError (filename : str)
| PermissionError (filename : str)
| OSError (msg : str)
| CalledProcessError (returncode : Z) (cmd : list str) (output : bytes).

(** The exceptions the embedded code raises or lets through.
    [BarCodeReaderException] carries [message], [filename] and its cause. *)
Inductive exn : Type :=
| BarCodeReaderException (message : str) (filename : option str) (from : option cause)
| NameError (name : string)
| KeyError (key : str)
| IndexError
| ValueError
| UnicodeDecodeError
| UnicodeEncodeError.

(** The outcome of a Python call. *)
Inductive result (A : Type) : Type :=
| Returned (a : A)
| Raised (e : exn).
Arguments Returned {A} a.
Arguments Raised {A} e.

#[global] Instance result_ret : MRet result := @Returned.
#[global] Instance result_bind : MBind result := fun A B f m =>
  match m with
  | Returned a => f a
  | Raised e => Raised e
  end.

(** [of_option e o]: the value of [o], or [raise e]. *)
Definition of_option {A} (e : exn) (o : option A) : result A :=
  match o with
  | Some a => Returned a
  | None => Raised e
  end.

(** [[f(x) for x in l]] where [f] may raise: left to right, the first
    exception ends the comprehension. *)
Fixpoint comprehension {A B} (f : A -> result B) (l : list A) : result (list B) :=
  match l with
  | [] => Returned []
  | x :: l' => y ← f x; ys ← comprehension f l'; Returned (y :: ys)
  end.

(** ** Sequence operations shared by [bytes] and [str] *)

Section Sequences.
Context {A : Type} `{EqDecision A}.

(** [s.startswith(p)] *)
Fixpoint startswith (p s : list A) : bool :=
  match p, s with
  | [], _ => true
  | _ :: _, [] => false
  | a :: p', c :: s' => bool_decide (a = c) && startswith p' s'
  end.

(** [s.endswith(p)] *)
Definition endswith (p s : list A) : bool :=
  startswith (rev p) (rev s).

(** [s.removeprefix(p)] *)
Definition removeprefix (p s : list A) : list A :=
  if startswith p s then drop (length p) s else s.

(** [s[:-1]] *)
Definition drop_last (s : list A) : list A := removelast s.

(** [s.lstrip(chars)], [s.rstrip(chars)], [s.strip(chars)] for the set of
    characters [ws]. *)
Fixpoint lstrip (ws : A -> bool) (s : list A) : list A :=
  match s with
  | [] => []
  | c :: s' => if ws c then lstrip ws s' else s
  end.
Definition rstrip (ws : A -> bool) (s : list A) : list A :=
  rev (lstrip ws (rev s)).
Definition strip (ws : A -> bool) (s : list A) : list A :=
  rstrip ws (lstrip ws s).

(** [s.replace(a, b)] for single characters. *)
Definition replace_char (a c : A) (s : list A) : list A :=
  (fun x => if bool_decide (x = a) then c else x) <$> s.

(** [s.replace(a, '')] for a single character. *)
Definition remove_char (a : A) (s : list A) : list A :=
  filter (fun x => x ≠ a) s.

(** [a in s] *)
Definition contains (a : A) (s : list A) : bool := bool_decide (a ∈ s).

(** [s.split(sep, 1)] for a single character [sep] that occurs in [s]:
    the text before the first [sep] and the text after it; [None] when
    [sep] does not occur. *)
Fixpoint partition_char (sep : A) (s : list A) : option (list A * list A) :=
  match s with
  | [] => None
  | c :: s' =>
      if bool_decide (c = sep) then Some ([], s')
      else '(before, after) ← partition_char sep s'; Some (c :: before, after)
  end.

(** The last occurrence of the non-empty [sep] in [s]: the text before it
    and the text after it. *)
Fixpoint rpartition (sep s : list A) : option (list A * list A) :=
  match s with
  | [] => None
  | c :: s' =>
      match rpartition sep s' with
      | Some (before, after) => Some (c :: before, after)
      | None => if startswith sep s then Some ([], drop (length sep) s) else None
      end
  end.

(** [s.rsplit(sep, 1)] *)
Definition rsplit1 (sep s : list A) : list (list A) :=
  match rpartition sep s with
  | Some (before, after) => [before; after]
  | None => [s]
  end.
End Sequences.

(** ** Character classes *)

Definition in_range (lo hi c : N) : bool := (lo <=? c) && (c <=? hi).

Definition is_digit (c : N) : bool := in_range 48 57 c.
Definition is_ascii_alpha (c : N) : bool := in_range 65 90 c || in_range 97 122 c.

(** ASCII white space: what [bytes.strip()] removes, what [\s] matches in a
    [bytes] pattern and what [bytes.fromhex] skips. *)
Definition is_ascii_space (c : N) : bool := in_range 9 13 c || (c =? 32).
Definition byte_space (c : ascii) : bool := is_ascii_space (N_of_ascii c).
Definition byte_digit (c : ascii) : bool := is_digit (N_of_ascii c).

(** [str.isspace] on one character: what [str.strip()] removes and what [\s]
    matches in a [str] pattern. *)
Definition is_unicode_space (c : N) : bool :=
  in_range 9 13 c || in_range 28 32 c || (c =? 133) || (c =? 160)
  || (c =? 5760) || in_range 8192 8202 c || (c =? 8232) || (c =? 8233)
  || (c =? 8239) || (c =? 8287) || (c =? 12288).

(** The line boundaries of [str.splitlines]. *)
Definition is_str_linebreak (c : N) : bool :=
  in_range 10 13 c || in_range 28 30 c || (c =? 133) || (c =? 8232) || (c =? 8233).

(** ** Lines *)

Definition LF : ascii := ascii_of_N 10.
Definition CR : ascii := ascii_of_N 13.

(** [bytes.splitlines(True)]: lines end at [\n], [\r] or [\r\n], and keep
    their line end. *)
Fixpoint splitlines_keepends (s : bytes) : list bytes :=
  match s with
  | [] => []
  | c :: s' =>
      if bool_decide (c = LF) then [c] :: splitlines_keepends s'
      else if bool_decide (c = CR) then
        match s' with
        | c' :: s'' =>
            if bool_decide (c' = LF) then [c; c'] :: splitlines_keepends s''
            else [c] :: splitlines_keepends s'
        | [] => [[c]]
        end
      else
        match splitlines_keepends s' with
        | [] => [[c]]
        | l :: ls => (c :: l) :: ls
        end
  end.

(** [bytes.splitlines()]: the same lines without their line ends. *)
Fixpoint bytes_splitlines (s : bytes) : list bytes :=
  match s with
  | [] => []
  | c :: s' =>
      if bool_decide (c = LF) then [] :: bytes_splitlines s'
      else if bool_decide (c = CR) then
        match s' with
        | c' :: s'' =>
            if bool_decide (c' = LF) then [] :: bytes_splitlines s''
            else [] :: bytes_splitlines s'
        | [] => [[]]
        end
      else
        match bytes_splitlines s' with
        | [] => [[c]]
        | l :: ls => (c :: l) :: ls
        end
  end.

(** [str.splitlines()]: lines end at any of the [str] line boundaries
    ([\r\n] counts once) and lose their line end. *)
Fixpoint str_splitlines (s : str) : list str :=
  match s with
  | [] => []
  | c :: s' =>
      if c =? 13 then
        match s' with
        | c' :: s'' =>
            if c' =? 10 then [] :: str_splitlines s''
            else [] :: str_splitlines s'
        | [] => [[]]
        end
      else if is_str_linebreak c then [] :: str_splitlines s'
      else
        match str_splitlines s' with
        | [] => [[c]]
        | l :: ls => (c :: l) :: ls
        end
  end.

(** ** Regular expressions

    The patterns of the source only quantify single characters and
    character classes, and their groups are not nested.  [run] lists the
    ways a pattern matches at the start of the input, in the order in which
    Python's backtracking matcher tries them (greedy quantifiers, longest
    first), so the first one is the match Python reports.  Each way is the
    unread input together with the groups captured so far. *)

Section Regex.
Context {A : Type} `{EqDecision A}.

Inductive regex : Type :=
| Eps
| One (p : A -> bool)       (* a character or a class *)
| Many (p : A -> bool)      (* [p*] *)
| Many1 (p : A -> bool)     (* [p+] *)
| Maybe (p : A -> bool)     (* [p?] *)
| Group (r : regex)         (* [(r)] *)
| Seq (r1 r2 : regex).

Definition chr (c : A) : A -> bool := fun x => bool_decide (x = c).
Definition not_chr (c : A) : A -> bool := fun x => negb (bool_decide (x = c)).

(** A sequence of patterns, and a literal text. *)
Definition seq (rs : list regex) : regex := foldr Seq Eps rs.
Definition lit (s : list A) : regex := seq ((fun c => One (chr c)) <$> s).

(** The inputs left after [p*], longest match first. *)
Fixpoint many (p : A -> bool) (s : list A) : list (list A) :=
  match s with
  | [] => [[]]
  | c :: s' => if p c then many p s' ++ [s] else [s]
  end.

Definition config : Type := list A * list (list A).

Fixpoint run (r : regex) (st : config) : list config :=
  match r with
  | Eps => [st]
  | One p =>
      match st.1 with
      | c :: s' => if p c then [(s', st.2)] else []
      | [] => []
      end
  | Many p => (fun s' => (s', st.2)) <$> many p st.1
  | Many1 p =>
      match st.1 with
      | c :: s' => if p c then (fun s'' => (s'', st.2)) <$> many p s' else []
      | [] => []
      end
  | Maybe p =>
      match st.1 with
      | c :: s' => if p c then [(s', st.2); st] else [st]
      | [] => [st]
      end
  | Group r' =>
      (fun st' : config =>
         (st'.1, st'.2 ++ [take (length st.1 - length st'.1)%nat st.1]))
        <$> run r' st
  | Seq r1 r2 => run r1 st ≫= run r2
  end.

(** [re.match(r, s)]: the groups of the match at the start of [s] and the
    number of characters matched, or [None]. *)
Definition re_match (r : regex) (s : list A) : option (list (list A) * nat) :=
  match run r (s, []) with
  | st :: _ => Some (st.2, (length s - length st.1)%nat)
  | [] => None
  end.

(** [r.findall(s)]: the groups of the non-overlapping matches, from left to
    right.  [skip] counts the characters of the previous match that are
    still to be passed over. *)
Fixpoint findall_from (r : regex) (skip : nat) (s : list A) : list (list (list A)) :=
  match skip, s with
  | S n, _ :: s' => findall_from r n s'
  | S _, [] => []
  | O, _ =>
      match re_match r s, s with
      | Some (groups, n), _ :: s' => groups :: findall_from r (pred n) s'
      | Some (groups, _), [] => [groups]
      | None, _ :: s' => findall_from r 0 s'
      | None, [] => []
      end
  end.
Definition findall (r : regex) (s : list A) : list (list (list A)) :=
  findall_from r 0 s.

(** [r.sub(repl, s)] with a function [repl] of the groups of the match:
    matches are replaced from left to right, the text between them is
    copied. *)
Fixpoint sub_from (r : regex) (repl : list (list A) -> list A) (skip : nat)
    (s : list A) : list A :=
  match skip, s with
  | S n, _ :: s' => sub_from r repl n s'
  | S _, [] => []
  | O, _ =>
      match re_match r s, s with
      | Some (groups, O), c :: s' => repl groups ++ c :: sub_from r repl 0 s'
      | Some (groups, S n), _ :: s' => repl groups ++ sub_from r repl n s'
      | Some (groups, _), [] => repl groups
      | None, c :: s' => c :: sub_from r repl 0 s'
      | None, [] => []
      end
  end.
Definition re_sub (r : regex) (repl : list (list A) -> list A) (s : list A) : list A :=
  sub_from r repl 0 s.
End Regex.
Arguments regex A : clear implicits.

Definition blit (s : string) : regex ascii := lit (bstr s).
Definition ulit (s : string) : regex N := lit (ustr s).

(** ** Codecs *)

(** One step of CPython's UTF-8 decoder: a scalar value and the number of
    bytes it takes, or a malformed range and its length (an invalid start
    byte, the bytes before an invalid continuation byte, or a sequence cut
    off by the end of the data). *)
Inductive utf8_step : Type :=
| Scalar (c : N) (len : nat)
| Malformed (len : nat).

Definition is_continuation (x : N) : bool := in_range 0x80 0xBF x.

Definition utf8_first (b0 : N) (rest : list N) : utf8_step :=
  if b0 <? 0x80 then Scalar b0 1
  else if b0 <? 0xC2 then Malformed 1
  else if b0 <? 0xE0 then
    match rest with
    | b1 :: _ =>
        if is_continuation b1 then Scalar ((b0 - 0xC0) * 64 + (b1 - 0x80)) 2
        else Malformed 1
    | [] => Malformed 1
    end
  else if b0 <? 0xF0 then
    match rest with
    | b1 :: rest1 =>
        if negb (is_continuation b1)
           || (if b1 <? 0xA0 then b0 =? 0xE0 else b0 =? 0xED)
        then Malformed 1
        else match rest1 with
             | b2 :: _ =>
                 if is_continuation b2
                 then Scalar ((b0 - 0xE0) * 4096 + (b1 - 0x80) * 64 + (b2 - 0x80)) 3
                 else Malformed 2
             | [] => Malformed 2
             end
    | [] => Malformed 1
    end
  else if b0 <? 0xF5 then
    match rest with
    | b1 :: rest1 =>
        if negb (is_continuation b1)
           || (if b1 <? 0x90 then b0 =? 0xF0 else b0 =? 0xF4)
        then Malformed 1
        else match rest1 with
             | b2 :: rest2 =>
                 if negb (is_continuation b2) then Malformed 2
                 else match rest2 with
                      | b3 :: _ =>
                          if is_continuation b3
                          then Scalar ((b0 - 0xF0) * 262144 + (b1 - 0x80) * 4096
                                       + (b2 - 0x80) * 64 + (b3 - 0x80)) 4
                          else Malformed 3
                      | [] => Malformed 3
                      end
             | [] => Malformed 2
             end
    | [] => Malformed 1
    end
  else Malformed 1.

(** The decoder's steps over the whole input: [Some c] for a scalar value,
    [None] for a malformed range.  [skip] counts the bytes of the current
    step that are still to be passed over. *)
Fixpoint utf8_scan (skip : nat) (s : list N) : list (option N) :=
  match skip, s with
  | S n, _ :: s' => utf8_scan n s'
  | _, [] => []
  | O, b0 :: s' =>
      match utf8_first b0 s' with
      | Scalar c len => Some c :: utf8_scan (pred len) s'
      | Malformed len => None :: utf8_scan (pred len) s'
      end
  end.

(** [s.decode()]: strict UTF-8. *)
Definition decode (s : bytes) : result str :=
  of_option UnicodeDecodeError (mapM id (utf8_scan 0 (N_of_ascii <$> s))).

(** [s.decode('utf-8', 'replace')]: a malformed range becomes U+FFFD. *)
Definition decode_replace (s : bytes) : str :=
  default 0xFFFD <$> utf8_scan 0 (N_of_ascii <$> s).

Definition utf8_encode_char (c : N) : option (list N) :=
  if c <? 0x80 then Some [c]
  else if c <? 0x800 then Some [0xC0 + c / 64; 0x80 + c mod 64]
  else if c <? 0x10000 then
    if in_range 0xD800 0xDFFF c then None
    else Some [0xE0 + c / 4096; 0x80 + (c / 64) mod 64; 0x80 + c mod 64]
  else if c <? 0x110000 then
    Some [0xF0 + c / 262144; 0x80 + (c / 4096) mod 64; 0x80 + (c / 64) mod 64;
          0x80 + c mod 64]
  else None.

(** [s.encode()]: strict UTF-8; a lone surrogate cannot be encoded. *)
Definition encode (s : str) : result bytes :=
  of_option UnicodeEncodeError
    (cs ← mapM utf8_encode_char s; Some (ascii_of_N <$> concat cs)).

(** The value of a hexadecimal digit. *)
Definition hex_value (c : N) : option N :=
  if is_digit c then Some (c - 48)
  else if in_range 97 102 c then Some (c - 87)
  else if in_range 65 70 c then Some (c - 55)
  else None.

(** [bytes.fromhex(s)]: pairs of hexadecimal digits, with ASCII white space
    allowed between the pairs; [None] stands for its [ValueError]. *)
Fixpoint fromhex (s : str) : option bytes :=
  match s with
  | [] => Some []
  | c :: s' =>
      if is_ascii_space c then fromhex s'
      else match s' with
           | d :: s'' =>
               hi ← hex_value c; lo ← hex_value d; rest ← fromhex s'';
               Some (ascii_of_N (16 * hi + lo) :: rest)
           | [] => None
           end
  end.

(** ** Floats

    The patterns only hand texts over [-], [.] and decimal digits to
    [float()].  A float is modelled by the rational number such a text
    denotes; the rounding to binary64 is left out. *)

Definition decimal_value (s : list N) : N :=
  foldl (fun acc c => 10 * acc + (c - 48)) 0 s.

Definition float_of_ascii (s : list N) : option Q :=
  let '(neg, body) :=
    match s with
    | c :: s' => if c =? 45 then (true, s') else (false, s)
    | [] => (false, [])
    end in
  let '(ip, fp) :=
    match partition_char 46 body with
    | Some (a, b) => (a, b)
    | None => (body, [])
    end in
  if forallb is_digit (ip ++ fp) && negb (bool_decide (ip ++ fp = [])) then
    let m := Z.of_N (decimal_value (ip ++ fp)) in
    Some (Qred (Qmake (if neg then - m else m)%Z
                      (Z.to_pos (10 ^ Z.of_nat (length fp)))))
  else None.

(** [float(s)] for a [bytes] text. *)
Definition float_of_bytes (s : bytes) : result Q :=
  of_option ValueError (float_of_ascii (N_of_ascii <$> s)).

(** ** The result model *)

Inductive CLROutputBlock : Type := UNKNOWN | RAW | PARSED | POINTS | RAW_BITS.

#[global] Instance CLROutputBlock_eq_dec : EqDecision CLROutputBlock.
Proof. solve_decision. Defined.

(** [class BarCode]: the fields of [__init__], in the order of its
    parameters; [None] is Python's [None]. *)
Record BarCode : Type := mkBarCode {
  uri : option str;
  format : option str;
  type : option str;
  raw : option str;
  parsed : option str;
  raw_bits : option bytes;
  points : option (list (Q * Q));
}.

(** [BarCode.__bool__]: [bool(self.raw)]. *)
Definition __bool__ (self : BarCode) : bool :=
  match raw self with
  | Some (_ :: _) => true
  | Some [] | None => false
  end.

(** ** The parser of the Java command line runner's output *)

Definition non_space : ascii -> bool := fun c => negb (byte_space c).
Definition number_char : ascii -> bool :=
  fun c => bool_decide (c = "-"%char) || byte_digit c || bool_decide (c = "."%char).

(** [rb"(\S+) \(format:\s*([^,]+),\s*type:\s*([^)]+)\)"] *)
Definition header_re : regex ascii :=
  seq [Group (Many1 non_space); blit " (format:"; Many byte_space;
       Group (Many1 (not_chr ","%char)); blit ","; Many byte_space;
       blit "type:"; Many byte_space;
       Group (Many1 (not_chr ")"%char)); blit ")"].

(** [rb"Found\s+\d+\s+result\s+points?"] *)
Definition found_re : regex ascii :=
  seq [blit "Found"; Many1 byte_space; Many1 byte_digit; Many1 byte_space;
       blit "result"; Many1 byte_space; blit "point"; Maybe (chr "s"%char)].

(** [rb"\s*Point\s*\d+:\s*\(([-\d.]+),([-\d.]+)\)"] *)
Definition point_re : regex ascii :=
  seq [Many byte_space; blit "Point"; Many byte_space; Many1 byte_digit;
       blit ":"; Many byte_space; blit "(";
       Group (Many1 number_char); blit ","; Group (Many1 number_char); blit ")"].

(** [m.group(i)] for [i >= 1]. *)
Definition group {A} (groups : list (list A)) (i : nat) : list A :=
  nth (pred i) groups [].

(** The local variables of [parse_zxing] that the loop updates. *)
Record zxing_locals : Type := mkLocals {
  l_block : CLROutputBlock;
  l_uri : option str;
  l_format : option str;
  l_type : option str;
  l_raw : bytes;
  l_parsed : bytes;
  l_raw_bits : bytes;
  l_points : list (Q * Q);
}.

Definition set_block (b : CLROutputBlock) (st : zxing_locals) : zxing_locals :=
  mkLocals b (l_uri st) (l_format st) (l_type st) (l_raw st) (l_parsed st)
    (l_raw_bits st) (l_points st).
Definition set_header (u f t : str) (st : zxing_locals) : zxing_locals :=
  mkLocals (l_block st) (Some u) (Some f) (Some t) (l_raw st) (l_parsed st)
    (l_raw_bits st) (l_points st).
Definition add_raw (l : bytes) (st : zxing_locals) : zxing_locals :=
  mkLocals (l_block st) (l_uri st) (l_format st) (l_type st) (l_raw st ++ l)
    (l_parsed st) (l_raw_bits st) (l_points st).
Definition add_parsed (l : bytes) (st : zxing_locals) : zxing_locals :=
  mkLocals (l_block st) (l_uri st) (l_format st) (l_type st) (l_raw st)
    (l_parsed st ++ l) (l_raw_bits st) (l_points st).
Definition add_raw_bits (l : bytes) (st : zxing_locals) : zxing_locals :=
  mkLocals (l_block st) (l_uri st) (l_format st) (l_type st) (l_raw st)
    (l_parsed st) (l_raw_bits st ++ l) (l_points st).
Definition add_point (p : Q * Q) (st : zxing_locals) : zxing_locals :=
  mkLocals (l_block st) (l_uri st) (l_format st) (l_type st) (l_raw st)
    (l_parsed st) (l_raw_bits st) (l_points st ++ [p]).

(** The state before the loop: [block = UNKNOWN], [uri = format = type =
    None], [raw = parsed = raw_bits = b''], [points = []]. *)
Definition zxing_start : zxing_locals :=
  mkLocals UNKNOWN None None None [] [] [] [].

(** One turn of the loop either goes on with new locals or returns. *)
Inductive turn : Type :=
| Continue (st : zxing_locals)
| Return (code : BarCode).

Definition is_match {A} (m : option (list (list A) * nat)) : bool :=
  match m with Some _ => true | None => false end.

(** The body of [for l in zxing_output.splitlines(True)]. *)
Definition zxing_line (st : zxing_locals) (l : bytes) : result turn :=
  match l_block st with
  | UNKNOWN =>
      if endswith (bstr ": No barcode found") (strip byte_space l) then
        u ← decode (hd [] (rsplit1 (bstr ":") l));
        Returned (Return (mkBarCode (Some u) None None None None None None))
      else
        match re_match header_re l with
        | Some (m, _) =>
            u ← decode (group m 1);
            f ← decode (group m 2);
            t ← decode (group m 3);
            Returned (Continue (set_header u f t st))
        | None =>
            if startswith (bstr "Raw result:") l
            then Returned (Continue (set_block RAW st))
            else Returned (Continue st)
        end
  | RAW =>
      if startswith (bstr "Parsed result:") l
      then Returned (Continue (set_block PARSED st))
      else Returned (Continue (add_raw l st))
  | PARSED =>
      if startswith (bstr "Raw bits:") l
      then Returned (Continue (set_block RAW_BITS st))
      else if is_match (re_match found_re l)
      then Returned (Continue (set_block POINTS st))
      else Returned (Continue (add_parsed l st))
  | RAW_BITS =>
      if is_match (re_match found_re l)
      then Returned (Continue (set_block POINTS st))
      else Returned (Continue (add_raw_bits l st))
  | POINTS =>
      match re_match point_re l with
      | Some (m, _) =>
          x ← float_of_bytes (group m 1);
          y ← float_of_bytes (group m 2);
          Returned (Continue (add_point (x, y) st))
      | None => Returned (Continue st)
      end
  end.

Fixpoint zxing_loop (st : zxing_locals) (lines : list bytes) : result turn :=
  match lines with
  | [] => Returned (Continue st)
  | l :: lines' =>
      t ← zxing_line st l;
      match t with
      | Continue st' => zxing_loop st' lines'
      | Return code => Returned (Return code)
      end
  end.

(** The statements after the loop. *)
Definition zxing_finish (st : zxing_locals) : result BarCode :=
  parsed ← decode (drop_last (l_parsed st));
  raw ← decode (drop_last (l_raw st));
  bits ← decode (drop_last (l_raw_bits st));
  raw_bits ← of_option ValueError (fromhex bits);
  Returned (mkBarCode (l_uri st) (l_format st) (l_type st) (Some raw)
              (Some parsed) (Some raw_bits) (Some (l_points st))).

(** [BarCode.parse_zxing] *)
Definition parse_zxing (zxing_output : bytes) : result BarCode :=
  t ← zxing_loop zxing_start (splitlines_keepends zxing_output);
  match t with
  | Return code => Returned code
  | Continue st => zxing_finish st
  end.

(** ** [urllib.parse]: [urlparse] and [unquote_plus]

    The two library functions [file_uri_to_path] calls, after CPython 3.11.
    [urlsplit] raises [ValueError] for a bracketed or NFKC-unsafe network
    location; both checks only concern a non-empty [netloc], for which
    [file_uri_to_path] raises [ValueError] itself, so the components are
    computed here without these checks. *)

Record ParseResult : Type := mkParseResult {
  u_scheme : str;
  u_netloc : str;
  u_path : str;
  u_params : str;
  u_query : str;
  u_fragment : str;
}.

(** [_WHATWG_C0_CONTROL_OR_SPACE] *)
Definition c0_control_or_space (c : N) : bool := c <=? 32.

(** [scheme_chars]: letters, digits and [+-.]. *)
Definition scheme_char (c : N) : bool :=
  is_ascii_alpha c || is_digit c || (c =? 43) || (c =? 45) || (c =? 46).

Definition ascii_lower (c : N) : N := if in_range 65 90 c then c + 32 else c.
Definition ascii_upper (c : N) : N := if in_range 97 122 c then c - 32 else c.

(** [uses_params] *)
Definition uses_params : list str :=
  ustr <$> [""; "ftp"; "hdl"; "prospero"; "http"; "imap"; "https"; "shttp";
            "rtsp"; "rtspu"; "sip"; "sips"; "mms"; "sftp"; "tel"]%string.

(** [s.split(sep, 1)] as a pair, the second part empty when [sep] is absent. *)
Definition split_once (sep : N) (s : str) : str * str :=
  match partition_char sep s with
  | Some (before, after) => (before, after)
  | None => (s, [])
  end.

Definition netloc_delimiter (c : N) : bool := (c =? 47) || (c =? 63) || (c =? 35).

(** The text before the first character of the class [stop], and the text
    from that character on. *)
Fixpoint split_at_first (stop : N -> bool) (s : str) : str * str :=
  match s with
  | [] => ([], [])
  | c :: s' =>
      if stop c then ([], s)
      else let '(before, rest) := split_at_first stop s' in (c :: before, rest)
  end.

(** [_splitnetloc(url, 2)]: the text after [//] up to the first [/], [?] or
    [#], and the rest. *)
Definition _splitnetloc (url : str) : str * str :=
  split_at_first netloc_delimiter (drop 2 url).

(** [urlsplit(url)]: scheme, netloc, path, query, fragment. *)
Definition urlsplit (url : str) : str * str * str * str * str :=
  let url := lstrip c0_control_or_space url in
  let url := remove_char 10 (remove_char 13 (remove_char 9 url)) in
  let '(scheme, url) :=
    match partition_char 58 url with
    | Some (c :: before, after) =>
        if is_ascii_alpha c && forallb scheme_char (c :: before)
        then (ascii_lower <$> (c :: before), after)
        else ([], url)
    | _ => ([], url)
    end in
  let '(netloc, url) :=
    if startswith (ustr "//") url then _splitnetloc url else ([], url) in
  let '(url, fragment) := split_once 35 url in
  let '(url, query) := split_once 63 url in
  (scheme, netloc, url, query, fragment).

(** [_splitparams(url)] for a [url] that contains [;]. *)
Definition _splitparams (url : str) : str * str :=
  match rpartition [47] url with
  | Some (before, after) =>
      match partition_char 59 after with
      | Some (a, params) => (before ++ 47 :: a, params)
      | None => (url, [])
      end
  | None => split_once 59 url
  end.

(** [urllib.parse.urlparse(url)] *)
Definition urlparse (url : str) : ParseResult :=
  let '(scheme, netloc, url, query, fragment) := urlsplit url in
  let '(url, params) :=
    if bool_decide (scheme ∈ uses_params) && contains 59 url
    then _splitparams url else (url, []) in
  mkParseResult scheme netloc url params query fragment.

(** [unquote_to_bytes]: [%XX] becomes the byte [XX]; a [%] that is not
    followed by two hexadecimal digits stays. *)
Fixpoint unquote_to_bytes (s : list N) : list N :=
  match s with
  | [] => []
  | c :: s' =>
      if c =? 37 then
        match s' with
        | h :: l :: s'' =>
            match hex_value h, hex_value l with
            | Some x, Some y => 16 * x + y :: unquote_to_bytes s''
            | _, _ => c :: unquote_to_bytes s'
            end
        | _ => c :: unquote_to_bytes s'
        end
      else c :: unquote_to_bytes s'
  end.

(** An ASCII run of [unquote]: percent-decoded, then decoded as UTF-8 with
    [errors='replace']. *)
Definition unquote_run (run : list N) : str :=
  decode_replace (ascii_of_N <$> unquote_to_bytes run).

(** The leading ASCII run of [s], still quoted, and the unquoted text after
    that run. *)
Fixpoint unquote_runs (s : str) : list N * str :=
  match s with
  | [] => ([], [])
  | c :: s' =>
      let '(run, out) := unquote_runs s' in
      if c <? 128 then (c :: run, out) else ([], c :: unquote_run run ++ out)
  end.

(** [urllib.parse.unquote(s)] *)
Definition unquote (s : str) : str :=
  if contains 37 s then
    let '(run, out) := unquote_runs s in unquote_run run ++ out
  else s.

(** [urllib.parse.unquote_plus(s)] *)
Definition unquote_plus (s : str) : str := unquote (replace_char 43 32 s).

(** ** [file_uri_to_path] and [BarCode.path] *)

(** [file_uri_to_path(s)].  The accessor [path] may pass [None]: for it
    [urlparse] returns empty [bytes] components, which differ from
    [('file', '', '', '')]. *)
Definition file_uri_to_path (s : option str) : result str :=
  match s with
  | None => Raised ValueError
  | Some s =>
      let uri := urlparse s in
      if bool_decide ((u_scheme uri, u_netloc uri, u_query uri, u_fragment uri)
                      ≠ (ustr "file", [], [], []))
      then Raised ValueError
      else Returned (unquote_plus (u_path uri))
  end.

(** The property [BarCode.path]: [except ValueError: pass] makes the
    accessor return [None]. *)
Definition path (self : BarCode) : result (option str) :=
  match file_uri_to_path (uri self) with
  | Returned p => Returned (Some p)
  | Raised ValueError => Returned None
  | Raised e => Raised e
  end.

(** ** [ZxingBarCodeReader._decode] *)

(** The attributes of the reader that [_decode] reads. *)
Record ZxingBarCodeReader : Type := mkReader {
  java : str;
  classpath : str;
  zxing_version_info : option (list Z);
}.

(** [ZxingBarCodeReader.cls] *)
Definition cls : str := ustr "com.google.zxing.client.j2se.CommandLineRunner".

(** What [sp.Popen(cmd, ...)] and [p.communicate()] give: [Popen] raises an
    [OSError], or the process ends with its output and return code. *)
Inductive process : Type :=
| NotStarted (e : cause)
| Exited (stdout : bytes) (returncode : Z).

(** Comparison of version tuples: [a >= b]. *)
Fixpoint tuple_ge (a b : list Z) : bool :=
  match a, b with
  | _, [] => true
  | [], _ :: _ => false
  | x :: a', y :: b' =>
      if (y <? x)%Z then true else if (x <? y)%Z then false else tuple_ge a' b'
  end.

Definition dq : ascii := ascii_of_N 34.

(** [b'Exception in thread "main"'], the start of four of the prefixes. *)
Definition exception_in_main : bytes :=
  bstr "Exception in thread " ++ [dq] ++ bstr "main" ++ [dq].

Definition no_main_class : bytes :=
  bstr "Error: Could not find or load main class com.google.zxing.client.j2se.CommandLineRunner".
Definition no_class_def : bytes :=
  exception_in_main ++ bstr " java.lang.NoClassDefFoundError:".
Definition no_input_stream : bytes :=
  exception_in_main ++ bstr " javax.imageio.IIOException: Can't get input stream from URL!".
Definition no_input_stream_nested : bytes :=
  exception_in_main
  ++ bstr " java.util.concurrent.ExecutionException: javax.imageio.IIOException: Can't get input stream from URL!".
Definition could_not_load : bytes :=
  exception_in_main ++ bstr " java.io.IOException: Could not load ".
Definition no_java_runtime : bytes :=
  bstr "The operation couldn't be completed. Unable to locate a Java Runtime.".
Definition caused_by : bytes :=
  bstr "Caused by: java.io.FileNotFoundException: ".

(** [file_results[-1] += line]; [None] stands for the [IndexError] of an
    empty list. *)
Fixpoint append_to_last (line : bytes) (file_results : list bytes) : option (list bytes) :=
  match file_results with
  | [] => None
  | [r] => Some [r ++ line]
  | r :: rs => (r ::.) <$> append_to_last line rs
  end.

(** A line that starts the output of a file:
    [line.startswith((b'file://', b'Exception'))]. *)
Definition starts_block (line : bytes) : bool :=
  startswith (bstr "file://") line || startswith (bstr "Exception") line.

(** The loop that cuts the output into one piece per file. *)
Fixpoint file_blocks (file_results : list bytes) (lines : list bytes) : result (list bytes) :=
  match lines with
  | [] => Returned file_results
  | line :: lines' =>
      if starts_block line then file_blocks (file_results ++ [line]) lines'
      else
        rs ← of_option IndexError (append_to_last line file_results);
        file_blocks rs lines'
  end.

(** [d = {c.uri: c for c in codes}] *)
Definition by_uri (codes : list BarCode) : gmap (option str) BarCode :=
  foldl (fun d c => <[uri c := c]> d) ∅ codes.

(** [[d[f] for f in file_uris]]: a missing key raises [KeyError]. *)
Definition in_order (d : gmap (option str) BarCode) (file_uris : list str)
    : result (list BarCode) :=
  comprehension (fun f => of_option (KeyError f) (d !! Some f)) file_uris.

Section Reader.
(** [pathlib.Path(fn).absolute().as_uri()]: it depends on the working
    directory and on the platform. *)
Variable as_uri : str -> str.
(** The Java process, as a function of its command line. *)
Variable popen : list str -> process.

(** The command line [cmd]. *)
Definition command (self : ZxingBarCodeReader) (file_uris : list str)
    (try_harder : bool) (possible_formats : list str)
    (pure_barcode products_only : bool) : list str :=
  [java self; ustr "-Djava.awt.headless=true"; ustr "-cp"; classpath self; cls]
  ++ file_uris
  ++ (match zxing_version_info self with
      | Some (v :: vs) => if tuple_ge (v :: vs) [3; 5; 3]%Z then [ustr "--raw"] else []
      | _ => []
      end)
  ++ (if try_harder then [ustr "--try_harder"] else [])
  ++ (if pure_barcode then [ustr "--pure_barcode"] else [])
  ++ (if products_only then [ustr "--products_only"] else [])
  ++ (possible_formats ≫= fun pf => [ustr "--possible_formats"; pf]).

(** The [if]/[elif] chain on the start of [stdout] and on the return
    code: each branch raises, falling through returns. *)
Definition check_output (self : ZxingBarCodeReader) (cmd : list str)
    (stdout : bytes) (returncode : Z) : result unit :=
  if startswith no_main_class stdout || startswith no_class_def stdout then
    Raised (BarCodeReaderException
              (ustr "Java JARs not found in classpath (" ++ classpath self ++ ustr ")")
              (Some (classpath self)) None)
  else if startswith no_input_stream stdout
          || startswith no_input_stream_nested stdout then
    '(fn, err) ←
      match filter (fun l => startswith caused_by l = true) (bytes_splitlines stdout) with
      | l :: _ =>
          match rsplit1 (bstr " (") (drop 42 l) with
          | [a; c] => fn ← decode a; err ← decode c; Returned (fn, err)
          | _ => _ ← decode (drop 42 l); Raised ValueError
          end
      | [] => Returned ([], [])
      end;
    let err :=
      if bool_decide (err = ustr "No such file or directory)") then FileNotFoundError fn
      else if bool_decide (err = ustr "Permission denied)") then PermissionError fn
      else OSError (drop_last err) in
    Raised (BarCodeReaderException (ustr "Java library could not read image")
              (Some fn) (Some err))
  else if startswith could_not_load stdout then
    uri ← decode (drop 63 (hd [] (bytes_splitlines stdout)));
    fn ← file_uri_to_path (Some uri);
    Raised (BarCodeReaderException
              (ustr "Java library could not read image (is it in a supported format?)")
              (Some fn) None)
  else if startswith (bstr "Exception ") stdout then
    Raised (BarCodeReaderException (ustr "Unknown Java exception") (Some (java self))
              (Some (CalledProcessError 0 cmd stdout)))
  else if startswith no_java_runtime stdout then
    Raised (BarCodeReaderException
              (ustr "Unable to locate Java runtime (check JAVA_HOME variable and other configuration)")
              (Some (java self)) (Some (CalledProcessError returncode cmd stdout)))
  else if bool_decide (returncode ≠ 0%Z) then
    Raised (BarCodeReaderException (ustr "Unexpected Java subprocess return code")
              (Some (java self)) (Some (CalledProcessError returncode cmd stdout)))
  else Returned tt.

(** [ZxingBarCodeReader._decode] *)
Definition _decode (self : ZxingBarCodeReader) (filenames : list str)
    (try_harder : bool) (possible_formats : list str)
    (pure_barcode products_only : bool) : result (list BarCode) :=
  let file_uris := as_uri <$> filenames in
  let cmd := command self file_uris try_harder possible_formats pure_barcode
               products_only in
  match popen cmd with
  | NotStarted e =>
      Raised (BarCodeReaderException (ustr "Could not execute specified Java binary")
                (Some (java self)) (Some e))
  | Exited stdout returncode =>
      _ ← check_output self cmd stdout returncode;
      file_results ← file_blocks [] (splitlines_keepends stdout);
      codes ← comprehension parse_zxing file_results;
      in_order (by_uri codes) file_uris
  end.
End Reader.

(** ** The [unicode_escape] codec *)

(** [n] hexadecimal digits at the start of [s]: their value. *)
Fixpoint hex_digits (n : nat) (acc : N) (s : list N) : option N :=
  match n, s with
  | O, _ => Some acc
  | S n', c :: s' => v ← hex_value c; hex_digits n' (16 * acc + v) s'
  | S _, [] => None
  end.

Definition is_octal (c : N) : bool := in_range 48 55 c.

Section UnicodeEscape.
(** The code point of a character name, for [\N{name}]: the Unicode
    character database is not part of the embedding. *)
Variable unicode_name : list N -> option N.

(** The escape that follows a backslash: the characters it stands for and
    the number of bytes it takes after the backslash; [None] for a
    malformed escape.  A backslash before any other character stays, and
    that character is read again. *)
Definition escape (s : list N) : option (list N * nat) :=
  match s with
  | [] => None
  | c :: rest =>
      if c =? 10 then Some ([], 1%nat)
      else if (c =? 92) || (c =? 39) || (c =? 34) then Some ([c], 1%nat)
      else if c =? 98 then Some ([8], 1%nat)
      else if c =? 102 then Some ([12], 1%nat)
      else if c =? 116 then Some ([9], 1%nat)
      else if c =? 110 then Some ([10], 1%nat)
      else if c =? 114 then Some ([13], 1%nat)
      else if c =? 118 then Some ([11], 1%nat)
      else if c =? 97 then Some ([7], 1%nat)
      else if is_octal c then
        match rest with
        | d :: rest' =>
            if is_octal d then
              match rest' with
              | e :: _ =>
                  if is_octal e
                  then Some ([((c - 48) * 8 + (d - 48)) * 8 + (e - 48)], 3%nat)
                  else Some ([(c - 48) * 8 + (d - 48)], 2%nat)
              | [] => Some ([(c - 48) * 8 + (d - 48)], 2%nat)
              end
            else Some ([c - 48], 1%nat)
        | [] => Some ([c - 48], 1%nat)
        end
      else if c =? 120 then v ← hex_digits 2 0 rest; Some ([v], 3%nat)
      else if c =? 117 then v ← hex_digits 4 0 rest; Some ([v], 5%nat)
      else if c =? 85 then
        v ← hex_digits 8 0 rest;
        if v <=? 0x10FFFF then Some ([v], 9%nat) else None
      else if c =? 78 then
        match rest with
        | brace :: rest' =>
            if brace =? 123 then
              match partition_char 125 rest' with
              | Some (name, _) =>
                  if bool_decide (name = []) then None
                  else v ← unicode_name name; Some ([v], (3 + length name)%nat)
              | None => None
              end
            else None
        | [] => None
        end
      else Some ([92], 0%nat)
  end.

(** The decoder over the whole input; a byte outside an escape is the
    character with that code.  [skip] counts the bytes of the current
    escape that are still to be passed over. *)
Fixpoint unicode_escape_scan (skip : nat) (s : list N) : option str :=
  match skip, s with
  | S n, _ :: s' => unicode_escape_scan n s'
  | _, [] => Some []
  | O, c :: s' =>
      if c =? 92 then
        '(out, used) ← escape s';
        tail ← unicode_escape_scan used s';
        Some (out ++ tail)
      else (c ::.) <$> unicode_escape_scan 0 s'
  end.

(** [s.decode('unicode_escape')] *)
Definition decode_unicode_escape (s : bytes) : result str :=
  of_option UnicodeDecodeError (unicode_escape_scan 0 (N_of_ascii <$> s)).
End UnicodeEscape.

(** ** The parser of [rxing-cli]'s output *)

(** Reading a name that is bound neither in the function, nor in the module,
    nor among the builtins. *)
Definition unbound_name {A} (name : string) : result A := Raised (NameError name).

(** [s.rjust(width, fill)] *)
Definition rjust {A} (width : nat) (fill : A) (s : list A) : list A :=
  replicate (width - length s) fill ++ s.

Definition lower_hex_char (c : N) : bool := is_digit c || in_range 97 102 c.

(** [RUST_UNICODE_ESCAPE = re.compile(r'\\u\{([a-f0-9]+)\}')] *)
Definition RUST_UNICODE_ESCAPE : regex N :=
  seq [ulit "\u{"; Group (Many1 lower_hex_char); ulit "}"].

(** [RXING_FORMAT_TO_ZXING] *)
Definition RXING_FORMAT_TO_ZXING : gmap str str :=
  {[ ustr "QRCODE" := ustr "QR_CODE" ]}.

Section Rxing.
(** The Unicode character database, for the characters outside ASCII:
    the upper case of a character, its value as a decimal digit, and the
    code point of a character name. *)
Variable unicode_upper : N -> list N.
Variable unicode_decimal : N -> option N.
Variable unicode_name : list N -> option N.
(** [pathlib.Path(p).absolute().as_uri()] *)
Variable as_uri : str -> str.

(** [s.upper()] *)
Definition upper (s : str) : str :=
  s ≫= fun c => if c <? 128 then [ascii_upper c] else unicode_upper c.

(** [\d] and [\s] in a [str] pattern. *)
Definition str_digit (c : N) : bool :=
  if c <? 128 then is_digit c else bool_decide (is_Some (unicode_decimal c)).
Definition str_number_char (c : N) : bool :=
  (c =? 45) || str_digit c || (c =? 46).

(** [BarCode.POINTS = re.compile(r'PointT\s*\{\s*x\:\s*([-\d.]+),\s*y\:\s*([-\d.]+)\s*\}')] *)
Definition BarCode_POINTS : regex N :=
  seq [ulit "PointT"; Many is_unicode_space; ulit "{"; Many is_unicode_space;
       ulit "x:"; Many is_unicode_space; Group (Many1 str_number_char);
       ulit ","; Many is_unicode_space; ulit "y:"; Many is_unicode_space;
       Group (Many1 str_number_char); Many is_unicode_space; ulit "}"].

(** [float(s)] for a [str] text: a decimal digit outside ASCII counts as
    the ASCII digit of the same value. *)
Definition float_of_str (s : str) : result Q :=
  of_option ValueError
    (float_of_ascii
       ((fun c => if c <? 128 then c
                  else match unicode_decimal c with
                       | Some d => 48 + d
                       | None => c
                       end) <$> s)).

(** The names the loop of [parse_rxing] assigns: [format], [raw], [points]. *)
Definition rxing_locals : Type := option str * str * list (Q * Q).

(** The body of [for l in rxing_output.splitlines()]. *)
Definition rxing_line (st : rxing_locals) (l : str) : result rxing_locals :=
  let '(format, raw, points) := st in
  if startswith (ustr "[Barcode Format] ") l then
    let format := upper (replace_char 32 95 (removeprefix (ustr "[Barcode Format] ") l)) in
    let format := default format (RXING_FORMAT_TO_ZXING !! format) in
    Returned (Some format, raw, points)
  else if startswith (ustr "[Data] ") l then
    let raw := removeprefix (ustr "[Data] ") l in
    encoded ←
      encode (re_sub RUST_UNICODE_ESCAPE
                (fun m => ustr "\u" ++ rjust 4 48 (group m 1)) raw);
    raw ← decode_unicode_escape unicode_name encoded;
    Returned (format, raw, points)
  else if startswith (ustr "[Points] ") l then
    points ←
      comprehension
        (fun m => x ← float_of_str (group m 1);
                  y ← float_of_str (group m 2);
                  Returned (x, y))
        (findall BarCode_POINTS (removeprefix (ustr "[Points] ") l));
    Returned (format, raw, points)
  else Returned st.

Fixpoint rxing_loop (st : rxing_locals) (lines : list str) : result rxing_locals :=
  match lines with
  | [] => Returned st
  | l :: lines' => st' ← rxing_line st l; rxing_loop st' lines'
  end.

(** [BarCode.parse_rxing].  Both [return] statements read [path], and the
    second one also reads [parsed]; neither name is assigned in the
    function or in the module. *)
Definition parse_rxing (rxing_output fn : str) : result BarCode :=
  let errp := ustr "Error while attempting to locate barcode in '" ++ fn ++ ustr "':" in
  if startswith errp rxing_output then
    let err := strip is_unicode_space (removeprefix errp rxing_output) in
    if bool_decide (err = ustr "NotFoundException") then
      path ← unbound_name "path";
      Returned (mkBarCode (Some (as_uri path)) None None None None None None)
    else Raised (BarCodeReaderException err (Some fn) None)
  else
    '(format, raw, points) ← rxing_loop (None, [], []) (str_splitlines rxing_output);
    path ← unbound_name "path";
    parsed ← unbound_name "parsed";
    Returned (mkBarCode (Some (as_uri path)) format (Some (ustr "TEXT"))
                (Some raw) (Some parsed) None (Some points)).
End Rxing.

(** * Definitions for the statements *)

(** ** The shape of a pattern *)

Section RegexShape.
Context {A : Type}.

(** Patterns that take at least one character. *)
Fixpoint consuming (r : regex A) : bool :=
  match r with
  | One _ | Many1 _ => true
  | Group r' => consuming r'
  | Seq r1 r2 => consuming r1 || consuming r2
  | Eps | Many _ | Maybe _ => false
  end.

(** Patterns all of whose groups take at least one character. *)
Fixpoint groups_consume (r : regex A) : bool :=
  match r with
  | Group r' => consuming r' && groups_consume r'
  | Seq r1 r2 => groups_consume r1 && groups_consume r2
  | _ => true
  end.

Fixpoint group_count (r : regex A) : nat :=
  match r with
  | Group r' => S (group_count r')
  | Seq r1 r2 => group_count r1 + group_count r2
  | _ => 0
  end.
End RegexShape.

(** ** Predicates of the statements *)

(** The condition under which [file_uri_to_path] does not raise: scheme
    [file], no network location, no query, no fragment. *)
Definition plain_file_uri (p : ParseResult) : Prop :=
  u_scheme p = ustr "file" /\ u_netloc p = [] /\ u_query p = [] /\ u_fragment p = [].

#[global] Instance plain_file_uri_dec (p : ParseResult) : Decision (plain_file_uri p).
Proof. unfold plain_file_uri. apply _. Defined.

(** In the words of the specification: a text of white-space separated full
    pairs of hexadecimal digits, and the bytes it denotes. *)
Inductive hex_text : bytes -> bytes -> Prop :=
| hex_text_nil : hex_text [] []
| hex_text_space (c : ascii) (t bs : bytes) :
    byte_space c = true -> hex_text t bs -> hex_text (c :: t) bs
| hex_text_pair (h l : ascii) (hi lo : N) (t bs : bytes) :
    hex_value (N_of_ascii h) = Some hi ->
    hex_value (N_of_ascii l) = Some lo ->
    hex_text t bs ->
    hex_text (h :: l :: t) (ascii_of_N (16 * hi + lo) :: bs).

(** A line of the points section whose numbers [float()] accepts. *)
Definition point_line_ok (l : bytes) : Prop :=
  match re_match point_re l with
  | Some (m, _) =>
      (exists x, float_of_bytes (group m 1) = Returned x)
      /\ (exists y, float_of_bytes (group m 2) = Returned y)
  | None => True
  end.

(** In the words of the specification: the well-formed block of one file in
    the output of a batch call.  Its first line starts with [file://], none of its other lines
    starts a block, and it ends with a line end. *)
Definition file_block (block : bytes) : Prop :=
  (exists s, block = s ++ [LF])
  /\ exists l ls, splitlines_keepends block = l :: ls
                  /\ startswith (bstr "file://") l = true
                  /\ Forall (fun l' => starts_block l' = false) ls.

(** [uri], [format] and [type] are assigned together, from the three groups
    of a header line. *)
Definition header_together (u f t : option str) : Prop :=
  (u = None /\ f = None /\ t = None)
  \/ (exists u' f' t', u = Some u' /\ f = Some f' /\ t = Some t'
                       /\ u' ≠ [] /\ f' ≠ [] /\ t' ≠ []).

(** The claim of the specification: a result is either successful, with
    [format], [raw] and [parsed] populated, or a failure, with every decode
    field absent.  Absent is [None] or empty. *)
Definition populated {A} (o : option (list A)) : Prop :=
  exists x, o = Some x /\ x ≠ [].
Definition absent {A} (o : option (list A)) : Prop := o = None \/ o = Some [].
Definition two_states (code : BarCode) : Prop :=
  (populated (format code) /\ populated (raw code) /\ populated (parsed code))
  \/ (absent (format code) /\ absent (type code) /\ absent (raw code)
      /\ absent (parsed code) /\ absent (raw_bits code) /\ absent (points code)).

(** The error prefix [errp] of [parse_rxing] for the file [fn]. *)
Definition rxing_error_prefix (fn : str) : str :=
  ustr "Error while attempting to locate barcode in '" ++ fn ++ ustr "':".

(** ** Invariants of the loop of [parse_zxing] *)

(** [raw_bits] is empty until the [Raw bits:] line has been read. *)
Definition bits_untouched (st : zxing_locals) : Prop :=
  l_block st = RAW_BITS \/ l_block st = POINTS \/ l_raw_bits st = [].

(** Without a [Raw bits:] line the block [RAW_BITS] is never entered. *)
Definition no_bits_read (st : zxing_locals) : Prop :=
  l_block st ≠ RAW_BITS /\ l_raw_bits st = [].

(** The fields that the points section leaves alone. *)
Definition same_texts (st st' : zxing_locals) : Prop :=
  l_uri st' = l_uri st /\ l_format st' = l_format st /\ l_type st' = l_type st
  /\ l_raw st' = l_raw st /\ l_parsed st' = l_parsed st
  /\ l_raw_bits st' = l_raw_bits st.

(** [c] joins the first line of what follows. *)
Definition join_first (c : ascii) (lines : list bytes) : list bytes :=
  match lines with
  | [] => [[c]]
  | l :: ls => (c :: l) :: ls
  end.

(** ** Outputs of the decoders *)

(** The output of [test_zxing_parsing_not_found]. *)
Definition no_barcode_output : bytes :=
  bstr "file:///tmp/some%5ffile%5fwithout%5fbarcode.png: No barcode found
".

(** The output of [test_zxing_parsing] with raw bits and with a network
    location in the URI, and the result the test expects for it. *)
Definition network_share_output : bytes :=
  bstr "
file://NETWORK_SHARE/tmp/default%20file.png (format: FAKE_DATA, type: TEXT):
Raw result:
Élan|	the barcode is taking off
Parsed result:
Élan
	the barcode is taking off
Raw bits:
  f00f00cafe
Found 4 result points:
  Point 0: (24.0,18.0)
  Point 1: (21.0,196.0)
  Point 2: (201.0,198.0)
  Point 3: (205.23952,21.0)
".

Definition elan_raw : str :=
  [201; 108; 97; 110; 124; 9]%N ++ ustr "the barcode is taking off".
Definition elan_parsed : str :=
  [201; 108; 97; 110; 10; 9]%N ++ ustr "the barcode is taking off".
Definition elan_points : list (Q * Q) :=
  [(24 # 1, 18 # 1); (21 # 1, 196 # 1); (201 # 1, 198 # 1);
   (Qred (20523952 # 100000), 21 # 1)].

Definition network_share_code : BarCode :=
  mkBarCode (Some (ustr "file://NETWORK_SHARE/tmp/default%20file.png"))
    (Some (ustr "FAKE_DATA")) (Some (ustr "TEXT")) (Some elan_raw)
    (Some elan_parsed)
    (Some (ascii_of_N <$> [0xf0; 0x0f; 0x00; 0xca; 0xfe]%N))
    (Some elan_points).

(** An output without a [Raw bits:] section, and one whose section holds an
    odd number of hexadecimal digits. *)
Definition plain_output : bytes :=
  bstr "file:///tmp/a.png (format: QR_CODE, type: TEXT):
Raw result:
abc
Parsed result:
abc
Found 0 result points:
".

Definition odd_bits_output : bytes :=
  bstr "file:///tmp/a.png (format: QR_CODE, type: TEXT):
Raw result:
abc
Parsed result:
abc
Raw bits:
  4f0
Found 0 result points:
".

(** The output for a barcode whose text is empty, and a payload without a
    header line. *)
Definition empty_payload_output : bytes :=
  bstr "file:///tmp/a.png (format: QR_CODE, type: TEXT):
Raw result:

Parsed result:

Found 0 result points:
".
Definition payload_only_output : bytes :=
  bstr "Raw result:
abc
Parsed result:
abc
".

(** A reader, three files, and the blocks the Java process prints for them. *)
Definition a_reader : ZxingBarCodeReader :=
  mkReader (ustr "java") (ustr "/opt/zxing/*") (Some [3; 5; 3]%Z).
Definition plain_as_uri (fn : str) : str := ustr "file://" ++ fn.

Definition block_A : bytes :=
  bstr "file:///tmp/A.png: No barcode found
".
Definition block_B : bytes :=
  bstr "file:///tmp/B.png (format: QR_CODE, type: TEXT):
Raw result:
bbb
Parsed result:
bbb
Found 1 result points:
  Point 0: (1.5,2.0)
".
Definition block_C : bytes :=
  bstr "file:///tmp/C.png (format: CODE_128, type: TEXT):
Raw result:
ccc
Parsed result:
ccc
Raw bits:
  c0 de
Found 0 result points:
".

Definition code_A : BarCode :=
  mkBarCode (Some (ustr "file:///tmp/A.png")) None None None None None None.
Definition code_B : BarCode :=
  mkBarCode (Some (ustr "file:///tmp/B.png")) (Some (ustr "QR_CODE"))
    (Some (ustr "TEXT")) (Some (ustr "bbb")) (Some (ustr "bbb")) (Some [])
    (Some [(3 # 2, 2 # 1)]).
Definition code_C : BarCode :=
  mkBarCode (Some (ustr "file:///tmp/C.png")) (Some (ustr "CODE_128"))
    (Some (ustr "TEXT")) (Some (ustr "ccc")) (Some (ustr "ccc"))
    (Some (ascii_of_N <$> [0xc0; 0xde]%N)) (Some []).

(** The block of a file that was not requested. *)
Definition block_X : bytes :=
  bstr "file:///tmp/X.png (format: QR_CODE, type: TEXT):
Raw result:
xxx
Parsed result:
xxx
Found 0 result points:
".
Definition code_X : BarCode :=
  mkBarCode (Some (ustr "file:///tmp/X.png")) (Some (ustr "QR_CODE"))
    (Some (ustr "TEXT")) (Some (ustr "xxx")) (Some (ustr "xxx")) (Some []) (Some []).

(** The output of [test_rxing_parsing]. *)
Definition rxing_test_output : str :=
  ustr "
[Barcode Format] qrcode
[Points] [PointT { x: -0.123, y: 456 }, PointT { x: 1.5, y: 1.5 }, PointT { x: 2.5, y: -2.5 }, PointT { x: -0, y: 0.0 }]
[Data] \u{a1}Atenci\u{f3}n, \\u{f00} is not a Unicode escape
".

(** * Definitions for the further properties *)

(** ** The order of the blocks of [parse_zxing] *)

(** The blocks in the order in which the loop of [parse_zxing] enters them. *)
Definition block_rank (b : CLROutputBlock) : nat :=
  match b with
  | UNKNOWN => 0
  | RAW => 1
  | PARSED => 2
  | RAW_BITS => 3
  | POINTS => 4
  end.

(** The point a line of the points section adds: [None] for a line that the
    pattern of a point does not match, and for a line with a number that
    [float] rejects, at which [parse_zxing] raises. *)
Definition line_point (l : bytes) : option (Q * Q) :=
  match re_match point_re l with
  | Some (m, _) =>
      match float_of_bytes (group m 1), float_of_bytes (group m 2) with
      | Returned x, Returned y => Some (x, y)
      | _, _ => None
      end
  | None => None
  end.

(** What a run of the loop from [st] to [st'] respects: the block does not
    go back, the fields of the blocks that [st] has left are kept, and so are
    the fields of the blocks that [st'] has not reached. *)
Definition loop_order (st st' : zxing_locals) : Prop :=
  (block_rank (l_block st) <= block_rank (l_block st'))%nat
  /\ ((0 < block_rank (l_block st))%nat ->
      l_uri st' = l_uri st /\ l_format st' = l_format st /\ l_type st' = l_type st)
  /\ ((1 < block_rank (l_block st))%nat \/ (block_rank (l_block st') < 1)%nat ->
      l_raw st' = l_raw st)
  /\ ((2 < block_rank (l_block st))%nat \/ (block_rank (l_block st') < 2)%nat ->
      l_parsed st' = l_parsed st)
  /\ ((3 < block_rank (l_block st))%nat \/ (block_rank (l_block st') < 3)%nat ->
      l_raw_bits st' = l_raw_bits st)
  /\ ((block_rank (l_block st') < 4)%nat -> l_points st' = l_points st).

(** An output whose payload has two lines, the second of which looks like
    the line for a file without barcode. *)
Definition two_line_output : bytes :=
  bstr "file:///tmp/a.png (format: QR_CODE, type: TEXT):
Raw result:
line one
file:///tmp/b.png: No barcode found
Parsed result:
line one
Raw result:
Found 2 result points:
  Point 0: (1.0,2.0)
  not a point
  Point 1: (3.5,4.0)
".

(** ** Outputs of the Java process *)

(** An output that starts with a warning, and an output with two blocks for
    the same file. *)
Definition warning_output : bytes :=
  bstr "WARNING: An illegal reflective access operation has occurred
" ++ block_B.

Definition block_B_again : bytes :=
  bstr "file:///tmp/B.png: No barcode found
".

Definition code_B_again : BarCode :=
  mkBarCode (Some (ustr "file:///tmp/B.png")) None None None None None None.

(** Outputs of a process that could not read its image. *)
Definition missing_file_output : bytes :=
  no_input_stream ++ bstr "
	at javax.imageio.ImageIO.read(ImageIO.java:1395)
Caused by: java.io.FileNotFoundException: /tmp/missing file.png (No such file or directory)
	at java.io.FileInputStream.open0(Native Method)
".

Definition not_an_image_output : bytes :=
  could_not_load ++ bstr "file:///tmp/not%20an+image.txt
	at com.google.zxing.client.j2se.ImageReader.readImage(ImageReader.java:51)
".

(** ** [data_uri_to_fobj] *)

(** The exceptions that leave [data_uri_to_fobj]: a plain [ValueError] (its
    own, that of [urlparse], or that of [b64decode] for a text that is not
    ASCII), [binascii.Error], and the [UnicodeEncodeError] of [str.encode];
    the last two are subclasses of [ValueError]. *)
Inductive data_exn : Type :=
| DataValueError
| BinasciiError
| DataEncodeError.

(** [table_a2b_base64] of CPython's [binascii]: the value of a character of
    the base64 alphabet. *)
Definition table_a2b_base64 (c : N) : option N :=
  if in_range 65 90 c then Some (c - 65)
  else if in_range 97 122 c then Some (c - 71)
  else if is_digit c then Some (c + 4)
  else if c =? 43 then Some 62
  else if c =? 47 then Some 63
  else None.

(** A value stored into an [unsigned char]. *)
Definition to_uchar (x : N) : N := N.land x 0xFF.

(** The loop of [binascii.a2b_base64(data, strict_mode=False)] with its
    variables [quad_pos], [leftchar] and [pads]: a character outside the
    alphabet is passed over, a [=] that completes a quad ends the decoding,
    and the input must not end inside a quad; [None] stands for
    [binascii.Error]. *)
Fixpoint a2b_loop (quad_pos leftchar pads : N) (s : list N) : option (list N) :=
  match s with
  | [] => if quad_pos =? 0 then Some [] else None
  | this_ch :: s' =>
      if this_ch =? 61 then
        if 2 <=? quad_pos then
          if 4 <=? quad_pos + (pads + 1) then Some []
          else a2b_loop quad_pos leftchar (pads + 1) s'
        else a2b_loop quad_pos leftchar pads s'
      else
        match table_a2b_base64 this_ch with
        | None => a2b_loop quad_pos leftchar pads s'
        | Some this_ch =>
            if quad_pos =? 0 then a2b_loop 1 this_ch 0 s'
            else if quad_pos =? 1 then
              (to_uchar (N.lor (N.shiftl leftchar 2) (N.shiftr this_ch 4)) ::.)
                <$> a2b_loop 2 (N.land this_ch 0x0f) 0 s'
            else if quad_pos =? 2 then
              (to_uchar (N.lor (N.shiftl leftchar 4) (N.shiftr this_ch 2)) ::.)
                <$> a2b_loop 3 (N.land this_ch 0x03) 0 s'
            else
              (to_uchar (N.lor (N.shiftl leftchar 6) this_ch) ::.)
                <$> a2b_loop 0 0 0 s'
        end
  end.

Definition a2b_base64 (s : list N) : option bytes :=
  fmap (M := list) ascii_of_N <$> a2b_loop 0 0 0 s.

(** [base64.b64decode(s)] for a [str]: the text must be ASCII. *)
Definition b64decode (s : str) : data_exn + bytes :=
  if forallb (fun c => c <? 128) s then
    match a2b_base64 s with
    | Some data => inr data
    | None => inl BinasciiError
    end
  else inl DataValueError.

(** [str(n)] for a length. *)
Definition str_of_nat (n : nat) : str :=
  ustr (NilZero.string_of_uint (Nat.to_uint n)).

(** [mime.split("/")[-1]]: the text after the last [/]. *)
Definition last_part (mime : str) : str :=
  match rpartition [47] mime with
  | Some (_, after) => after
  | None => mime
  end.

(** The [BytesIO] object with its [name]. *)
Record BytesIO : Type := mkBytesIO {
  getvalue : bytes;
  name : str;
}.

(** [ff = BytesIO(data); ff.name = f'data_uri_{len(data)}_bytes.{...}'] *)
Definition named (mime : str) (data : bytes) : BytesIO :=
  mkBytesIO data
    (ustr "data_uri_" ++ str_of_nat (length data) ++ ustr "_bytes." ++ last_part mime).

(** [data_uri_to_fobj(s)] *)
Definition data_uri_to_fobj (s : str) : data_exn + BytesIO :=
  let r := urlparse s in
  if bool_decide (u_scheme r = ustr "data") && bool_decide (u_netloc r = []) then
    match partition_char 44 (u_path r) with
    | Some (mime, rest) =>
        if endswith (ustr ";base64") mime then
          match b64decode rest with
          | inr data => inr (named (take (length mime - 7) mime) data)
          | inl e => inl e
          end
        else
          match encode rest with
          | Returned b =>
              inr (named mime (ascii_of_N <$> unquote_to_bytes (N_of_ascii <$> b)))
          | Raised _ => inl DataEncodeError
          end
    | None => inl DataValueError
    end
  else inl DataValueError.

(** ** The encoders that data URIs are written with *)

(** The characters that [urllib.parse.quote_from_bytes] leaves as they are:
    letters, digits, [_.-~] and the default [safe='/']. *)
Definition quote_safe (c : N) : bool :=
  is_ascii_alpha c || is_digit c
  || (c =? 95) || (c =? 46) || (c =? 45) || (c =? 126) || (c =? 47).

(** The upper-case hexadecimal digit of a value below 16. *)
Definition hex_digit (v : N) : N := if v <? 10 then 48 + v else 55 + v.

(** [urllib.parse.quote_from_bytes(bs)]: every other byte becomes [%XX]. *)
Definition quote_from_bytes (bs : bytes) : str :=
  b ← N_of_ascii <$> bs;
  if quote_safe b then [b] else [37; hex_digit (b / 16); hex_digit (b mod 16)].

(** [table_b2a_base64]: the character of a value below 64. *)
Definition table_b2a_base64 (v : N) : N :=
  if v <? 26 then 65 + v
  else if v <? 52 then 71 + v
  else if v <? 62 then v - 4
  else if v =? 62 then 43
  else 47.

(** [binascii.b2a_base64(data, newline=False)] on the values of the bytes:
    four characters for every three bytes, the last quad filled with [=]. *)
Fixpoint b2a_loop (data : list N) : list N :=
  match data with
  | [] => []
  | [a] =>
      [table_b2a_base64 (N.shiftr a 2);
       table_b2a_base64 (N.shiftl (N.land a 0x03) 4); 61; 61]
  | [a; b] =>
      [table_b2a_base64 (N.shiftr a 2);
       table_b2a_base64 (N.lor (N.shiftl (N.land a 0x03) 4) (N.shiftr b 4));
       table_b2a_base64 (N.shiftl (N.land b 0x0f) 2); 61]
  | a :: b :: c :: data' =>
      table_b2a_base64 (N.shiftr a 2)
      :: table_b2a_base64 (N.lor (N.shiftl (N.land a 0x03) 4) (N.shiftr b 4))
      :: table_b2a_base64 (N.lor (N.shiftl (N.land b 0x0f) 2) (N.shiftr c 6))
      :: table_b2a_base64 (N.land c 0x3f)
      :: b2a_loop data'
  end.

(** [base64.b64encode(data).decode()] *)
Definition b64encode (data : bytes) : str := b2a_loop (N_of_ascii <$> data).

(** ** Definitions for the statements on data URIs *)

(** A text that [urlparse] takes as the path of a [data:] URI as it stands:
    without tab and line ends (which [urlsplit] removes), without [#] and
    [?] (where the fragment and the query start), and not starting with
    [//] (where a network location starts). *)
Definition plain_data_path (p : str) : Prop :=
  (9 ∉ p) /\ (10 ∉ p) /\ (13 ∉ p) /\ (35 ∉ p) /\ (63 ∉ p)
  /\ startswith (ustr "//") p = false.

(** A data URI of [test_data_uris]. *)
Definition jpeg_uri : str := ustr "data:image/jpeg;base64,3q2+7w==".

(** ** [RxingBarCodeReader._decode] *)

(** The attribute of the reader that [_decode] reads. *)
Record RxingBarCodeReader : Type := mkRxingReader {
  rxing_cli : str;
}.

(** What [sp.check_output(cmd, stderr=sp.STDOUT, text=True)] meets: [Popen]
    raises an [OSError], the output is no text in the encoding of the
    locale, or the process ends with its output as text and its return
    code. *)
Inductive rxing_process : Type :=
| RxingNotStarted (e : cause)
| RxingNotText
| RxingExited (output : str) (returncode : Z).

(** The exceptions that leave [RxingBarCodeReader._decode]: those of [exn],
    and the [CalledProcessError] that [check_output] raises for a return
    code other than zero. *)
Inductive rxing_exn : Type :=
| RxingCalledProcessError (returncode : Z) (cmd : list str) (output : str)
| RxingRaised (e : exn).

(** The list [options]. *)
Definition rxing_options (try_harder : bool) (possible_formats : list str)
    (pure_barcode : bool) : list str :=
  (if try_harder then [ustr "--try-harder"] else [])
  ++ (if pure_barcode then [ustr "--pure-barcode"; ustr "true"] else [])
  ++ (pf ← possible_formats; [ustr "-b"; pf]).

Section RxingReader.
Variable unicode_upper : N -> list N.
Variable unicode_decimal : N -> option N.
Variable unicode_name : list N -> option N.
Variable as_uri : str -> str.
(** The rxing process, as a function of its command line. *)
Variable rxing_popen : list str -> rxing_process.

(** The comprehension of [RxingBarCodeReader._decode] inside its [try]: one
    process and one [parse_rxing] per file, left to right; an [OSError]
    becomes a [BarCodeReaderException]. *)
Fixpoint rxing_results (self : RxingBarCodeReader) (options : list str)
    (filenames : list str) : rxing_exn + list BarCode :=
  match filenames with
  | [] => inr []
  | fn :: filenames' =>
      let cmd := [rxing_cli self; fn; ustr "decode"; ustr "--detailed-results"]
                 ++ options in
      match rxing_popen cmd with
      | RxingNotStarted e =>
          inl (RxingRaised
                 (BarCodeReaderException
                    (ustr "Could not execute specified rxing-cli binary")
                    (Some (rxing_cli self)) (Some e)))
      | RxingNotText => inl (RxingRaised UnicodeDecodeError)
      | RxingExited output returncode =>
          if bool_decide (returncode ≠ 0%Z)
          then inl (RxingCalledProcessError returncode cmd output)
          else
            match parse_rxing unicode_upper unicode_decimal unicode_name as_uri
                    output fn with
            | Raised e => inl (RxingRaised e)
            | Returned code =>
                match rxing_results self options filenames' with
                | inr codes => inr (code :: codes)
                | inl e => inl e
                end
            end
      end
  end.

(** [RxingBarCodeReader._decode] *)
Definition rxing_decode (self : RxingBarCodeReader) (filenames : list str)
    (try_harder : bool) (possible_formats : list str) (pure_barcode : bool)
    : rxing_exn + list BarCode :=
  rxing_results self (rxing_options try_harder possible_formats pure_barcode) filenames.
End RxingReader.

(** * Properties *)

(** ** The [result] monad *)

Lemma bind_Returned {A B} (m : result A) (f : A -> result B) (b : B) :
  m ≫= f = Returned b -> exists a, m = Returned a /\ f a = Returned b.
Proof. destruct m as [a|e]; [eauto | discriminate]. Qed.

(** Splits a hypothesis [m ≫= f = Returned b] into its two steps. *)
Ltac bind_inv H :=
  let a := fresh "a" in
  let Ha := fresh "H" a in
  apply bind_Returned in H as (a & Ha & H).

Lemma comprehension_Returned {A B} (f : A -> result B) (l : list A) (k : list B) :
  comprehension f l = Returned k <-> Forall2 (fun x y => f x = Returned y) l k.
Proof.
  revert k; induction l as [|x l IH]; intros k; simpl.
  - split.
    + intros [= <-]. constructor.
    + intros H; inversion H; reflexivity.
  - split.
    + intros H. bind_inv H. bind_inv H. injection H as <-.
      constructor; [exact Ha | apply IH; exact Ha0].
    + intros H. inversion H as [|? y ? k' Hy Hk]; subst.
      rewrite Hy. simpl. apply IH in Hk. rewrite Hk. reflexivity.
Qed.

(** ** Sequences *)

Section SequenceFacts.
Context {A : Type} `{EqDecision A}.
Implicit Types p s : list A.

Lemma startswith_app p s : startswith p (p ++ s) = true.
Proof.
  induction p as [|a p IH]; simpl; [reflexivity|].
  rewrite bool_decide_eq_true_2 by reflexivity. exact IH.
Qed.

Lemma startswith_true p s : startswith p s = true -> exists r, s = p ++ r.
Proof.
  revert s; induction p as [|a p IH]; intros s H; simpl in *.
  - by exists s.
  - destruct s as [|c s]; [discriminate|].
    apply andb_prop in H as [Hac H].
    apply bool_decide_eq_true_1 in Hac as <-.
    destruct (IH _ H) as [r ->]. by exists r.
Qed.

Lemma rpartition_absent (c : A) s : c ∉ s -> rpartition [c] s = None.
Proof.
  induction s as [|x s IH]; intros Hc; simpl; [reflexivity|].
  rewrite IH by (intros ?; apply Hc; by right).
  rewrite bool_decide_eq_false_2; [reflexivity|].
  intros <-. apply Hc. by left.
Qed.

(** [s.rsplit(c, 1)[0]] is the text before the last [c]. *)
Lemma rsplit1_last (c : A) p s :
  c ∉ s -> rsplit1 [c] (p ++ c :: s) = [p; s].
Proof.
  intros Hc. unfold rsplit1.
  assert (rpartition [c] (p ++ c :: s) = Some (p, s)) as ->; [|reflexivity].
  induction p as [|x p IH]; simpl.
  - rewrite rpartition_absent by assumption.
    rewrite bool_decide_eq_true_2 by reflexivity. simpl. by rewrite drop_0.
  - by rewrite IH.
Qed.
End SequenceFacts.

(** ** The loop of [parse_zxing] *)

Lemma zxing_loop_app (st : zxing_locals) (ls1 ls2 : list bytes) :
  zxing_loop st (ls1 ++ ls2) =
  t ← zxing_loop st ls1;
  match t with
  | Continue st' => zxing_loop st' ls2
  | Return code => Returned (Return code)
  end.
Proof.
  revert st; induction ls1 as [|l ls1 IH]; intros st; simpl; [reflexivity|].
  destruct (zxing_line st l) as [[st'|code]|e]; simpl; [apply IH | reflexivity..].
Qed.

Lemma Returned_bind {A B} (a : A) (f : A -> result B) : Returned a ≫= f = f a.
Proof. reflexivity. Qed.

Lemma zxing_loop_cons (st : zxing_locals) (l : bytes) (ls : list bytes) :
  zxing_loop st (l :: ls) =
  t ← zxing_line st l;
  match t with
  | Continue st' => zxing_loop st' ls
  | Return code => Returned (Return code)
  end.
Proof. reflexivity. Qed.

Lemma zxing_line_no_barcode (st : zxing_locals) (prefix suffix : bytes) (u : str) :
  l_block st = UNKNOWN ->
  endswith (bstr ": No barcode found")
    (strip byte_space (prefix ++ bstr ":" ++ suffix)) = true ->
  ":"%char ∉ suffix ->
  decode prefix = Returned u ->
  zxing_line st (prefix ++ bstr ":" ++ suffix)
  = Returned (Return (mkBarCode (Some u) None None None None None None)).
Proof.
  intros Hblock Hend Hcolon Hu. unfold zxing_line. rewrite Hblock, Hend.
  change (bstr ":" ++ suffix) with (":"%char :: suffix).
  change (bstr ":") with [":"%char].
  rewrite rsplit1_last by assumption.
  change (hd [] [prefix; suffix]) with prefix. rewrite Hu. reflexivity.
Qed.

(** C7.  When a line that [BarCode.parse_zxing] reads while its block is
    still [UNKNOWN] ends, white space apart, in [: No barcode found], the
    parser returns at once: the result carries the text before the final
    colon of that line, decoded, as its [uri], all its other fields are
    [None], it is falsy, and nothing is raised. *)
Theorem parse_zxing_no_barcode_found
    (zxing_output : bytes) (before after : list bytes) (st : zxing_locals)
    (l prefix suffix : bytes) (u : str) :
  splitlines_keepends zxing_output = before ++ l :: after ->
  zxing_loop zxing_start before = Returned (Continue st) ->
  l_block st = UNKNOWN ->
  endswith (bstr ": No barcode found") (strip byte_space l) = true ->
  l = prefix ++ bstr ":" ++ suffix ->
  ":"%char ∉ suffix ->
  decode prefix = Returned u ->
  parse_zxing zxing_output
  = Returned (mkBarCode (Some u) None None None None None None)
  /\ __bool__ (mkBarCode (Some u) None None None None None None) = false.
Proof.
  intros Hlines Hbefore Hblock Hend -> Hcolon Hu. split; [|reflexivity].
  unfold parse_zxing.
  rewrite Hlines, zxing_loop_app, Hbefore, Returned_bind, zxing_loop_cons.
  rewrite (zxing_line_no_barcode st prefix suffix u) by assumption.
  reflexivity.
Qed.

Lemma parse_zxing_no_barcode_found_witness :
  parse_zxing no_barcode_output
  = Returned (mkBarCode (Some (ustr "file:///tmp/some%5ffile%5fwithout%5fbarcode.png"))
                None None None None None None)
  /\ __bool__ (mkBarCode (Some (ustr "file:///tmp/some%5ffile%5fwithout%5fbarcode.png"))
                None None None None None None) = false.
Proof.
  apply (parse_zxing_no_barcode_found no_barcode_output [] [] zxing_start
           no_barcode_output
           (bstr "file:///tmp/some%5ffile%5fwithout%5fbarcode.png")
           (bstr " No barcode found
")).
  - reflexivity.
  - reflexivity.
  - reflexivity.
  - reflexivity.
  - reflexivity.
  - vm_compute. intros H. repeat (apply elem_of_cons in H as [H|H]; [discriminate|]).
    by apply elem_of_nil in H.
  - reflexivity.
Defined.

(** ** The path accessor *)

Lemma file_uri_to_path_plain (s : str) :
  plain_file_uri (urlparse s) ->
  file_uri_to_path (Some s) = Returned (unquote_plus (u_path (urlparse s))).
Proof.
  intros (Hs & Hn & Hq & Hf). unfold file_uri_to_path.
  rewrite bool_decide_eq_false_2; [reflexivity|].
  intros H. apply H. by rewrite Hs, Hn, Hq, Hf.
Qed.

Lemma file_uri_to_path_other (s : str) :
  ~ plain_file_uri (urlparse s) -> file_uri_to_path (Some s) = Raised ValueError.
Proof.
  intros Hnot. unfold file_uri_to_path.
  rewrite bool_decide_eq_true_2; [reflexivity|].
  intros [= Hs Hn Hq Hf]. apply Hnot. by repeat split.
Qed.

(** [file_uri_to_path] raises nothing but [ValueError]. *)
Lemma file_uri_to_path_raises (s : option str) (e : exn) :
  file_uri_to_path s = Raised e -> e = ValueError.
Proof.
  destruct s as [s|]; [|by intros [= <-]].
  destruct (decide (plain_file_uri (urlparse s))) as [Hp|Hp].
  - by rewrite file_uri_to_path_plain.
  - rewrite file_uri_to_path_other by assumption. by intros [= <-].
Qed.

Lemma path_plain (self : BarCode) (u : str) :
  uri self = Some u -> plain_file_uri (urlparse u) ->
  path self = Returned (Some (unquote_plus (u_path (urlparse u)))).
Proof.
  intros Hu Hp. unfold path. by rewrite Hu, file_uri_to_path_plain.
Qed.

Lemma path_other (self : BarCode) (u : str) :
  uri self = Some u -> ~ plain_file_uri (urlparse u) -> path self = Returned None.
Proof.
  intros Hu Hp. unfold path. by rewrite Hu, file_uri_to_path_other.
Qed.

Lemma path_no_uri (self : BarCode) : uri self = None -> path self = Returned None.
Proof. intros Hu. unfold path. by rewrite Hu. Qed.

(** C8.  The accessor [BarCode.path] never raises.  For a [uri] that
    [urlparse] splits into the scheme [file] and nothing but a path, it is
    the percent-decoded path ([unquote_plus]); whenever the network location
    is not empty or the scheme is not [file], it is [None].  So a result of
    [BarCode.parse_zxing] whose [uri] names a network location has no
    [path], while its [uri] is there. *)
Theorem path_absent_for_netloc_or_other_scheme :
  (forall self : BarCode, exists p, path self = Returned p)
  /\ (forall (self : BarCode) (u : str),
        uri self = Some u -> plain_file_uri (urlparse u) ->
        path self = Returned (Some (unquote_plus (u_path (urlparse u)))))
  /\ (forall (self : BarCode) (u : str),
        uri self = Some u ->
        u_netloc (urlparse u) ≠ [] \/ u_scheme (urlparse u) ≠ ustr "file" ->
        path self = Returned None)
  /\ (forall (zxing_output : bytes) (code : BarCode) (u : str),
        parse_zxing zxing_output = Returned code ->
        uri code = Some u ->
        u_netloc (urlparse u) ≠ [] ->
        path code = Returned None /\ uri code = Some u).
Proof.
  assert (forall (self : BarCode) (u : str),
            uri self = Some u ->
            u_netloc (urlparse u) ≠ [] \/ u_scheme (urlparse u) ≠ ustr "file" ->
            path self = Returned None) as Habsent.
  { intros self u Hu Hor. apply (path_other self u Hu).
    intros (Hs & Hn & _). destruct Hor as [H|H]; by apply H. }
  repeat split.
  - intros self. destruct (uri self) as [u|] eqn:Hu.
    + destruct (decide (plain_file_uri (urlparse u))) as [Hp|Hp].
      * eexists. by apply path_plain.
      * eexists. by apply (path_other self u).
    + eexists. by apply path_no_uri.
  - apply path_plain.
  - exact Habsent.
  - eapply Habsent; [eassumption | by left].
  - assumption.
Qed.

Example parse_zxing_network_share :
  parse_zxing network_share_output = Returned network_share_code.
Proof. vm_compute. reflexivity. Qed.

Lemma path_absent_for_netloc_or_other_scheme_witness :
  path network_share_code = Returned None
  /\ uri network_share_code = Some (ustr "file://NETWORK_SHARE/tmp/default%20file.png")
  /\ path (mkBarCode (Some (ustr "file:///tmp/default%20file.png")) None None None
             None None None)
     = Returned (Some (ustr "/tmp/default file.png"))
  /\ path (mkBarCode (Some (ustr "http:///tmp/x.png")) None None None None None None)
     = Returned None.
Proof.
  destruct path_absent_for_netloc_or_other_scheme as (_ & Hplain & Habsent & Hzxing).
  split; [|split; [|split]].
  - apply (Hzxing network_share_output network_share_code
             (ustr "file://NETWORK_SHARE/tmp/default%20file.png")).
    + vm_compute. reflexivity.
    + reflexivity.
    + vm_compute. discriminate.
  - reflexivity.
  - apply (Hplain _ (ustr "file:///tmp/default%20file.png")).
    + reflexivity.
    + vm_compute. repeat split.
  - apply (Habsent _ (ustr "http:///tmp/x.png")).
    + reflexivity.
    + right. vm_compute. discriminate.
Defined.

Lemma unquote_without_percent (s : str) : 37%N ∉ s -> unquote s = s.
Proof.
  intros H. unfold unquote, contains. by rewrite bool_decide_eq_false_2.
Qed.

Lemma replace_char_removes {A} `{EqDecision A} (a c : A) (s : list A) :
  a ≠ c -> a ∉ replace_char a c s.
Proof.
  intros Hac. unfold replace_char. induction s as [|x s IH]; simpl.
  - apply not_elem_of_nil.
  - apply not_elem_of_cons. split; [|exact IH].
    case_bool_decide; congruence.
Qed.

Lemma replace_char_keeps {A} `{EqDecision A} (a c x : A) (s : list A) :
  x ≠ c -> x ∉ s -> x ∉ replace_char a c s.
Proof.
  intros Hxc. unfold replace_char. induction s as [|y s IH]; simpl; intros Hx.
  - apply not_elem_of_nil.
  - apply not_elem_of_cons in Hx as [Hxy Hx].
    apply not_elem_of_cons. split; [|by apply IH].
    case_bool_decide; congruence.
Qed.

(** C10.  [BarCode.path] is [unquote_plus] of the path component exactly
    when [urlparse] finds the scheme [file] and an empty network location,
    query and fragment, and [None] in every other case: so a query or a
    fragment alone makes it [None].  [unquote_plus] turns every [+] into a
    space before it percent-decodes: a path without [%] comes out with its
    [+] replaced by spaces. *)
Theorem path_exact_characterisation :
  (forall self : BarCode,
     (exists u, uri self = Some u /\ plain_file_uri (urlparse u)
                /\ path self = Returned (Some (unquote_plus (u_path (urlparse u)))))
     \/ ((forall u, uri self = Some u -> ~ plain_file_uri (urlparse u))
         /\ path self = Returned None))
  /\ (forall (self : BarCode) (u : str),
        uri self = Some u ->
        u_query (urlparse u) ≠ [] \/ u_fragment (urlparse u) ≠ [] ->
        path self = Returned None)
  /\ (forall s : str,
        unquote_plus s = unquote (replace_char 43%N 32%N s)
        /\ 43%N ∉ replace_char 43%N 32%N s)
  /\ (forall s : str, 37%N ∉ s -> unquote_plus s = replace_char 43%N 32%N s).
Proof.
  repeat split.
  - intros self. destruct (uri self) as [u|] eqn:Hu.
    + destruct (decide (plain_file_uri (urlparse u))) as [Hp|Hp].
      * left. exists u. repeat split; try apply Hp. by apply path_plain.
      * right. split; [by intros ? [= <-] | by apply (path_other self u)].
    + right. split; [discriminate | by apply path_no_uri].
  - intros self u Hu Hor. apply (path_other self u Hu).
    intros (_ & _ & Hq & Hf). destruct Hor as [H|H]; by apply H.
  - apply replace_char_removes. discriminate.
  - intros s Hs. unfold unquote_plus. apply unquote_without_percent.
    apply replace_char_keeps; [discriminate | assumption].
Qed.

Lemma path_exact_characterisation_witness :
  path (mkBarCode (Some (ustr "file:///tmp/a+b%2Bc")) None None None None None None)
  = Returned (Some (ustr "/tmp/a b+c"))
  /\ path (mkBarCode (Some (ustr "file:///tmp/a?b")) None None None None None None)
     = Returned None
  /\ path (mkBarCode (Some (ustr "file:///tmp/a#b")) None None None None None None)
     = Returned None
  /\ unquote_plus (ustr "/tmp/a+b") = ustr "/tmp/a b".
Proof.
  destruct path_exact_characterisation as (Hchar & Hquery & _ & Hplus).
  split; [|split; [|split]].
  - destruct (Hchar (mkBarCode (Some (ustr "file:///tmp/a+b%2Bc")) None None None
                       None None None)) as [(u & [= <-] & _ & Hpath)|[Hnot _]].
    + exact Hpath.
    + exfalso. apply (Hnot _ eq_refl). vm_compute. repeat split.
  - apply (Hquery _ (ustr "file:///tmp/a?b")); [reflexivity|].
    left. vm_compute. discriminate.
  - apply (Hquery _ (ustr "file:///tmp/a#b")); [reflexivity|].
    right. vm_compute. discriminate.
  - apply (Hplus (ustr "/tmp/a+b")). vm_compute. intros H.
    repeat (apply elem_of_cons in H as [H|H]; [discriminate|]).
    by apply elem_of_nil in H.
Defined.

(** ** The [Raw bits:] section *)

Lemma hex_value_not_space (c v : N) : hex_value c = Some v -> is_ascii_space c = false.
Proof.
  unfold hex_value, is_ascii_space, is_digit, in_range. intros H.
  destruct (48 <=? c)%N eqn:H1, (c <=? 57)%N eqn:H2, (97 <=? c)%N eqn:H3,
    (c <=? 102)%N eqn:H4, (65 <=? c)%N eqn:H5, (c <=? 70)%N eqn:H6;
    simpl in H; try discriminate;
    repeat match goal with
      | H : (_ <=? _)%N = true |- _ => apply N.leb_le in H
      | H : (_ <=? _)%N = false |- _ => apply N.leb_gt in H
      end;
    apply orb_false_intro;
    try (apply andb_false_intro2; apply N.leb_gt; lia);
    try (apply N.eqb_neq; lia);
    try (apply andb_false_intro1; apply N.leb_gt; lia).
Qed.

Lemma hex_value_ascii (c v : N) : hex_value c = Some v -> (c < 128)%N.
Proof.
  unfold hex_value, is_digit, in_range. intros H.
  destruct (48 <=? c)%N eqn:H1, (c <=? 57)%N eqn:H2, (97 <=? c)%N eqn:H3,
    (c <=? 102)%N eqn:H4, (65 <=? c)%N eqn:H5, (c <=? 70)%N eqn:H6;
    simpl in H; try discriminate;
    repeat match goal with
      | H : (_ <=? _)%N = true |- _ => apply N.leb_le in H
      | H : (_ <=? _)%N = false |- _ => apply N.leb_gt in H
      end; lia.
Qed.

Lemma ascii_space_ascii (c : N) : is_ascii_space c = true -> (c < 128)%N.
Proof.
  unfold is_ascii_space, in_range. intros H.
  apply orb_prop in H as [H|H].
  - apply andb_prop in H as [_ H]. apply N.leb_le in H. lia.
  - apply N.eqb_eq in H. lia.
Qed.

Lemma fromhex_space (c : N) (s : str) :
  is_ascii_space c = true -> fromhex (c :: s) = fromhex s.
Proof. intros H. simpl. by rewrite H. Qed.

Lemma fromhex_pair (h l hi lo : N) (s : str) (bs : bytes) :
  hex_value h = Some hi -> hex_value l = Some lo -> fromhex s = Some bs ->
  fromhex (h :: l :: s) = Some (ascii_of_N (16 * hi + lo) :: bs).
Proof.
  intros Hh Hl Hs. cbn [fromhex].
  rewrite (hex_value_not_space _ _ Hh), Hh, Hl, Hs. reflexivity.
Qed.

(** [bytes.fromhex] reads a text of hexadecimal pairs as the bytes it denotes. *)
Lemma fromhex_hex_text (t bs : bytes) :
  hex_text t bs -> fromhex (N_of_ascii <$> t) = Some bs.
Proof.
  induction 1 as [|c t bs Hc _ IH|h l hi lo t bs Hh Hl _ IH].
  - reflexivity.
  - rewrite fmap_cons, fromhex_space; assumption.
  - rewrite !fmap_cons. by apply fromhex_pair.
Qed.

Lemma hex_text_ascii (t bs : bytes) :
  hex_text t bs -> Forall (fun c => (N_of_ascii c < 128)%N) t.
Proof.
  induction 1 as [|c t bs Hc _ IH|h l hi lo t bs Hh Hl _ IH].
  - constructor.
  - constructor; [by apply ascii_space_ascii | exact IH].
  - repeat constructor; [by eapply hex_value_ascii.. | exact IH].
Qed.

(** An ASCII text decodes to itself. *)
Lemma decode_ascii (s : bytes) :
  Forall (fun c => (N_of_ascii c < 128)%N) s -> decode s = Returned (N_of_ascii <$> s).
Proof.
  intros Hs. unfold decode.
  assert (mapM id (utf8_scan 0 (N_of_ascii <$> s)) = Some (N_of_ascii <$> s)) as ->;
    [|reflexivity].
  induction Hs as [|c s Hc _ IH]; [reflexivity|].
  change (N_of_ascii <$> c :: s) with (N_of_ascii c :: (N_of_ascii <$> s)).
  cbn [utf8_scan]. unfold utf8_first.
  apply N.ltb_lt in Hc. rewrite Hc. cbn [pred].
  change (mapM id (Some (N_of_ascii c) :: ?l))
    with (x ← Some (N_of_ascii c); k ← mapM id l; mret (x :: k)).
  simpl. rewrite IH. reflexivity.
Qed.

(** An invariant of the loop body, over lines of the kind [Q], holds after
    the loop. *)
Lemma zxing_loop_invariant (Q : bytes -> Prop) (P : zxing_locals -> Prop) :
  (forall st l st', Q l -> P st -> zxing_line st l = Returned (Continue st') -> P st') ->
  forall ls st st',
    Forall Q ls -> P st -> zxing_loop st ls = Returned (Continue st') -> P st'.
Proof.
  intros Hstep. induction ls as [|l ls IH]; intros st st' HQ HP Hloop.
  - injection Hloop as <-. exact HP.
  - rewrite zxing_loop_cons in Hloop. bind_inv Hloop.
    destruct a as [st1|code]; [|discriminate].
    apply Forall_cons in HQ as [Hl HQ].
    eapply IH; [exact HQ| |exact Hloop]. eapply Hstep; eassumption.
Qed.

Lemma Forall_any {A} (l : list A) : Forall (fun _ => True) l.
Proof. by apply Forall_forall. Qed.

(** Cases on what a turn of the loop does. *)
Ltac zxing_line_inv H :=
  unfold zxing_line in H; unfold mbind, result_bind in H;
  repeat case_match; simplify_eq.

Lemma bits_untouched_step (st : zxing_locals) (l : bytes) (st' : zxing_locals) :
  bits_untouched st -> zxing_line st l = Returned (Continue st') -> bits_untouched st'.
Proof.
  unfold bits_untouched. intros HP H.
  zxing_line_inv H; simpl; intuition congruence.
Qed.

Lemma zxing_loop_bits_untouched (ls : list bytes) (st : zxing_locals) :
  zxing_loop zxing_start ls = Returned (Continue st) ->
  l_block st = PARSED -> l_raw_bits st = [].
Proof.
  intros Hloop Hblock.
  assert (bits_untouched st) as [H|[H|H]]; try congruence.
  eapply (zxing_loop_invariant (fun _ => True) bits_untouched);
    [intros ????; apply bits_untouched_step | apply Forall_any | | exact Hloop].
  by right; right.
Qed.

Lemma add_raw_bits_nil (st : zxing_locals) : add_raw_bits [] st = st.
Proof. destruct st. unfold add_raw_bits. simpl. by rewrite app_nil_r. Qed.

Lemma add_raw_bits_app (l1 l2 : bytes) (st : zxing_locals) :
  add_raw_bits l2 (add_raw_bits l1 st) = add_raw_bits (l1 ++ l2) st.
Proof. unfold add_raw_bits. simpl. by rewrite app_assoc. Qed.

(** The lines of the [Raw bits:] section are appended to [raw_bits]. *)
Lemma zxing_loop_raw_bits (bits rest : list bytes) (st : zxing_locals) :
  l_block st = RAW_BITS ->
  Forall (fun l => re_match found_re l = None) bits ->
  zxing_loop st (bits ++ rest) = zxing_loop (add_raw_bits (concat bits) st) rest.
Proof.
  intros Hblock Hbits. revert st Hblock.
  induction Hbits as [|l bits Hl _ IH]; intros st Hblock.
  - simpl. by rewrite add_raw_bits_nil.
  - change ((l :: bits) ++ rest) with (l :: (bits ++ rest)).
    rewrite zxing_loop_cons. unfold zxing_line. rewrite Hblock, Hl.
    cbn [is_match]. rewrite Returned_bind, IH by assumption.
    by rewrite add_raw_bits_app.
Qed.

Lemma zxing_loop_points (ls : list bytes) (st : zxing_locals) :
  l_block st = POINTS -> Forall point_line_ok ls ->
  exists st', zxing_loop st ls = Returned (Continue st')
              /\ l_block st' = POINTS /\ same_texts st st'.
Proof.
  intros Hblock Hls. revert st Hblock.
  induction Hls as [|l ls Hl _ IH]; intros st Hblock.
  - exists st. by repeat split.
  - rewrite zxing_loop_cons. unfold zxing_line. rewrite Hblock.
    unfold point_line_ok in Hl.
    destruct (re_match point_re l) as [[m n]|].
    + destruct Hl as ((x & Hx) & (y & Hy)). rewrite Hx, Hy, !Returned_bind.
      destruct (IH (add_point (x, y) st) Hblock) as (st' & Hloop & Hb & Hsame).
      exists st'. split; [exact Hloop|]. split; [exact Hb|exact Hsame].
    + rewrite Returned_bind. by apply IH.
Qed.

(** The only [return] inside the loop is the one for [No barcode found]. *)
Lemma zxing_line_Return (st : zxing_locals) (l : bytes) (code : BarCode) :
  zxing_line st l = Returned (Return code) ->
  exists u, code = mkBarCode (Some u) None None None None None None.
Proof. intros H. zxing_line_inv H. eauto. Qed.

Lemma zxing_loop_Return (ls : list bytes) (st : zxing_locals) (code : BarCode) :
  zxing_loop st ls = Returned (Return code) ->
  exists u, code = mkBarCode (Some u) None None None None None None.
Proof.
  revert st; induction ls as [|l ls IH]; intros st H; [discriminate|].
  rewrite zxing_loop_cons in H. bind_inv H. destruct a as [st'|code'].
  - by eapply IH.
  - injection H as <-. by eapply zxing_line_Return.
Qed.

(** The result of [parse_zxing] for an output with a [Raw bits:] section:
    the lines [before] lead to the block [PARSED], the lines [bits] stand
    between the [Raw bits:] line and the [Found ... result points] line. *)
Lemma parse_zxing_raw_bits_section
    (zxing_output : bytes) (before bits after : list bytes) (marker found : bytes)
    (st : zxing_locals) (parsed raw : str) :
  splitlines_keepends zxing_output = before ++ marker :: bits ++ found :: after ->
  zxing_loop zxing_start before = Returned (Continue st) ->
  l_block st = PARSED ->
  startswith (bstr "Raw bits:") marker = true ->
  Forall (fun l => re_match found_re l = None) bits ->
  is_match (re_match found_re found) = true ->
  Forall point_line_ok after ->
  decode (drop_last (l_parsed st)) = Returned parsed ->
  decode (drop_last (l_raw st)) = Returned raw ->
  exists pts,
    parse_zxing zxing_output =
    t ← decode (drop_last (concat bits));
    rb ← of_option ValueError (fromhex t);
    Returned (mkBarCode (l_uri st) (l_format st) (l_type st) (Some raw)
                (Some parsed) (Some rb) (Some pts)).
Proof.
  intros Hlines Hbefore Hblock Hmarker Hbits Hfound Hafter Hparsed Hraw.
  pose proof (zxing_loop_bits_untouched _ _ Hbefore Hblock) as Hnil.
  unfold parse_zxing.
  rewrite Hlines, zxing_loop_app, Hbefore, Returned_bind, zxing_loop_cons.
  unfold zxing_line at 1. rewrite Hblock, Hmarker, Returned_bind.
  rewrite zxing_loop_raw_bits by (reflexivity || assumption).
  rewrite zxing_loop_cons. unfold zxing_line at 1.
  cbn [l_block add_raw_bits set_block]. rewrite Hfound, Returned_bind.
  edestruct (zxing_loop_points after) as (st' & -> & _ & Hsame);
    [|exact Hafter|]; [reflexivity|].
  destruct Hsame as (Hu & Hf & Ht & Hr & Hp & Hb). cbn in Hu, Hf, Ht, Hr, Hp, Hb.
  rewrite Returned_bind. unfold zxing_finish.
  rewrite Hu, Hf, Ht, Hr, Hp, Hb, Hnil, Hparsed, Hraw, !Returned_bind.
  exists (l_points st'). reflexivity.
Qed.

Lemma no_bits_read_step (st : zxing_locals) (l : bytes) (st' : zxing_locals) :
  startswith (bstr "Raw bits:") l = false ->
  no_bits_read st -> zxing_line st l = Returned (Continue st') -> no_bits_read st'.
Proof.
  unfold no_bits_read. intros Hl [Hblock Hbits] H.
  zxing_line_inv H; simpl; split; congruence.
Qed.

(** C9.  For an output of the Java runner in which the lines [bits] stand
    between a [Raw bits:] line and the [Found ... result points] line, and
    hold white-space separated pairs of hexadecimal digits,
    [BarCode.parse_zxing] returns as [raw_bits] exactly the bytes these
    pairs denote (the last byte of the section, its line end, is dropped
    first).  Without a [Raw bits:] line, [raw_bits] is empty, or [None] in
    the result for [No barcode found].  When the section does not decode as
    hexadecimal pairs, [parse_zxing] raises [ValueError]. *)
Theorem parse_zxing_raw_bits :
  (forall (zxing_output : bytes) (before bits after : list bytes)
          (marker found : bytes) (st : zxing_locals) (parsed raw : str)
          (text : bytes) (last : ascii) (bs : bytes),
      splitlines_keepends zxing_output = before ++ marker :: bits ++ found :: after ->
      zxing_loop zxing_start before = Returned (Continue st) ->
      l_block st = PARSED ->
      startswith (bstr "Raw bits:") marker = true ->
      Forall (fun l => re_match found_re l = None) bits ->
      is_match (re_match found_re found) = true ->
      Forall point_line_ok after ->
      decode (drop_last (l_parsed st)) = Returned parsed ->
      decode (drop_last (l_raw st)) = Returned raw ->
      concat bits = text ++ [last] ->
      hex_text text bs ->
      exists code, parse_zxing zxing_output = Returned code /\ raw_bits code = Some bs)
  /\ (forall (zxing_output : bytes) (code : BarCode),
        parse_zxing zxing_output = Returned code ->
        Forall (fun l => startswith (bstr "Raw bits:") l = false)
          (splitlines_keepends zxing_output) ->
        raw_bits code = Some [] \/ raw_bits code = None)
  /\ (forall (zxing_output : bytes) (before bits after : list bytes)
             (marker found : bytes) (st : zxing_locals) (parsed raw t : str),
        splitlines_keepends zxing_output = before ++ marker :: bits ++ found :: after ->
        zxing_loop zxing_start before = Returned (Continue st) ->
        l_block st = PARSED ->
        startswith (bstr "Raw bits:") marker = true ->
        Forall (fun l => re_match found_re l = None) bits ->
        is_match (re_match found_re found) = true ->
        Forall point_line_ok after ->
        decode (drop_last (l_parsed st)) = Returned parsed ->
        decode (drop_last (l_raw st)) = Returned raw ->
        decode (drop_last (concat bits)) = Returned t ->
        fromhex t = None ->
        parse_zxing zxing_output = Raised ValueError).
Proof.
  split; [|split].
  - intros out before bits after marker found st parsed raw text last bs
      Hlines Hbefore Hblock Hmarker Hbits Hfound Hafter Hparsed Hraw Hconcat Htext.
    destruct (parse_zxing_raw_bits_section out before bits after marker found st
                parsed raw) as (pts & ->); try assumption.
    rewrite Hconcat. unfold drop_last. rewrite removelast_last.
    rewrite (decode_ascii text) by (by eapply hex_text_ascii).
    rewrite Returned_bind, (fromhex_hex_text text bs) by assumption.
    eexists. split; reflexivity.
  - intros out code Hparse Hlines. unfold parse_zxing in Hparse. bind_inv Hparse.
    destruct a as [st|code'].
    + assert (no_bits_read st) as [_ Hnil].
      { eapply (zxing_loop_invariant _ no_bits_read);
          [intros st0 l st1; apply no_bits_read_step | exact Hlines | | exact Ha].
        by split. }
      unfold zxing_finish in Hparse. rewrite Hnil in Hparse.
      bind_inv Hparse. bind_inv Hparse. bind_inv Hparse. bind_inv Hparse.
      injection Hparse as <-. injection Ha2 as <-. injection Ha3 as <-.
      by left.
    + injection Hparse as <-. right.
      destruct (zxing_loop_Return _ _ _ Ha) as [u ->]. reflexivity.
  - intros out before bits after marker found st parsed raw t
      Hlines Hbefore Hblock Hmarker Hbits Hfound Hafter Hparsed Hraw Ht Hhex.
    destruct (parse_zxing_raw_bits_section out before bits after marker found st
                parsed raw) as (pts & ->); try assumption.
    rewrite Ht, Returned_bind, Hhex. reflexivity.
Qed.

Lemma parse_zxing_raw_bits_witness :
  (exists code,
      parse_zxing network_share_output = Returned code
      /\ raw_bits code
         = Some [ascii_of_N (16 * 15 + 0); ascii_of_N (16 * 0 + 15);
                 ascii_of_N (16 * 0 + 0); ascii_of_N (16 * 12 + 10);
                 ascii_of_N (16 * 15 + 14)])
  /\ (raw_bits (mkBarCode (Some (ustr "file:///tmp/a.png")) (Some (ustr "QR_CODE"))
                 (Some (ustr "TEXT")) (Some (ustr "abc")) (Some (ustr "abc"))
                 (Some []) (Some [])) = Some []
      \/ raw_bits (mkBarCode (Some (ustr "file:///tmp/a.png")) (Some (ustr "QR_CODE"))
                     (Some (ustr "TEXT")) (Some (ustr "abc")) (Some (ustr "abc"))
                     (Some []) (Some [])) = None)
  /\ parse_zxing odd_bits_output = Raised ValueError.
Proof.
  destruct parse_zxing_raw_bits as (Hbits & Hnone & Hfail).
  split; [|split].
  - eapply (Hbits network_share_output
              (take 7 (splitlines_keepends network_share_output))
              [bstr "  f00f00cafe
"]
              (drop 10 (splitlines_keepends network_share_output))
              (bstr "Raw bits:
")
              (bstr "Found 4 result points:
")
              _ _ _ (bstr "  f00f00cafe") LF).
    + vm_compute. reflexivity.
    + vm_compute. reflexivity.
    + reflexivity.
    + reflexivity.
    + repeat constructor.
    + reflexivity.
    + vm_compute. repeat constructor; eexists; reflexivity.
    + vm_compute. reflexivity.
    + vm_compute. reflexivity.
    + reflexivity.
    + repeat first
        [ apply hex_text_nil
        | apply hex_text_space; [reflexivity|]
        | eapply hex_text_pair; [reflexivity | reflexivity |] ].
  - apply (Hnone plain_output).
    + vm_compute. reflexivity.
    + vm_compute. repeat constructor.
  - eapply (Hfail odd_bits_output
              (take 5 (splitlines_keepends odd_bits_output))
              [bstr "  4f0
"]
              []
              (bstr "Raw bits:
")
              (bstr "Found 0 result points:
")).
    + vm_compute. reflexivity.
    + vm_compute. reflexivity.
    + reflexivity.
    + reflexivity.
    + repeat constructor.
    + reflexivity.
    + constructor.
    + vm_compute. reflexivity.
    + vm_compute. reflexivity.
    + vm_compute. reflexivity.
    + reflexivity.
Defined.

(** ** What a match captures *)

Local Close Scope N_scope.

Section RegexFacts.
Context {A : Type} `{EqDecision A}.

Lemma many_shorter (p : A -> bool) (s s' : list A) :
  s' ∈ many p s -> length s' <= length s.
Proof.
  revert s'; induction s as [|c s IH]; intros s'; simpl.
  - intros ->%list_elem_of_singleton. reflexivity.
  - destruct (p c).
    + intros [H| ->%list_elem_of_singleton]%elem_of_app; [|reflexivity].
      apply IH in H. lia.
    + intros ->%list_elem_of_singleton. reflexivity.
Qed.

(** A way to match leaves a suffix of the input, a proper one for a
    consuming pattern, and adds one capture per group. *)
Lemma run_captures (r : regex A) (s : list A) (caps : list (list A))
    (s' : list A) (caps' : list (list A)) :
  (s', caps') ∈ run r (s, caps) ->
  length s' <= length s
  /\ (consuming r = true -> length s' < length s)
  /\ exists new, caps' = caps ++ new /\ length new = group_count r
                 /\ (groups_consume r = true -> Forall (fun g => g ≠ []) new).
Proof.
  revert s caps s' caps'.
  induction r as [|p|p|p|p|r IH|r1 IH1 r2 IH2]; intros s caps s' caps'; simpl.
  - intros [= -> ->]%list_elem_of_singleton.
    split; [lia|]. split; [discriminate|].
    exists []. by rewrite app_nil_r.
  - destruct s as [|c s0]; [by intros ?%elem_of_nil|].
    destruct (p c); [|by intros ?%elem_of_nil].
    intros [= -> ->]%list_elem_of_singleton. simpl.
    split; [lia|]. split; [lia|]. exists []. by rewrite app_nil_r.
  - intros (s0 & [= -> ->] & Hs0%many_shorter)%list_elem_of_fmap.
    split; [lia|]. split; [discriminate|]. exists []. by rewrite app_nil_r.
  - destruct s as [|c s0]; [by intros ?%elem_of_nil|].
    destruct (p c); [|by intros ?%elem_of_nil].
    intros (s1 & [= -> ->] & Hs1%many_shorter)%list_elem_of_fmap. simpl.
    split; [lia|]. split; [lia|]. exists []. by rewrite app_nil_r.
  - assert ((s', caps') = (s, caps) ->
            length s' <= length s
            /\ (false = true -> length s' < length s)
            /\ exists new, caps' = caps ++ new /\ length new = 0
                           /\ (true = true -> Forall (fun g => g ≠ []) new))
      as Hsame.
    { intros [= -> ->]. split; [lia|]. split; [discriminate|].
      exists []. by rewrite app_nil_r. }
    destruct s as [|c s0]; [by intros ?%list_elem_of_singleton; apply Hsame|].
    destruct (p c); [|by intros ?%list_elem_of_singleton; apply Hsame].
    intros [[= -> ->]|H%list_elem_of_singleton]%elem_of_cons; [|by apply Hsame].
    simpl. split; [lia|]. split; [discriminate|]. exists []. by rewrite app_nil_r.
  - intros ([s0 caps0] & [= -> ->] & H0)%list_elem_of_fmap.
    destruct (IH _ _ _ _ H0) as (Hle & Hlt & new & -> & Hlen & Hne). simpl.
    split; [exact Hle|]. split; [exact Hlt|].
    exists (new ++ [take (length s - length s0) s]).
    split; [by rewrite app_assoc|].
    split; [rewrite length_app; simpl; lia|].
    intros [Hc Hg]%andb_prop. apply Forall_app. split; [by apply Hne|].
    apply Forall_singleton. specialize (Hlt Hc).
    destruct s as [|c s]; [simpl in Hlt; lia|].
    destruct (length (c :: s) - length s0) as [|k] eqn:Hk; [simpl in *; lia|].
    discriminate.
  - intros ([s1 caps1] & H2 & H1)%list_elem_of_bind.
    destruct (IH1 _ _ _ _ H1) as (Hle1 & Hlt1 & new1 & -> & Hlen1 & Hne1).
    destruct (IH2 _ _ _ _ H2) as (Hle2 & Hlt2 & new2 & -> & Hlen2 & Hne2).
    split; [lia|]. split.
    + intros [Hc|Hc]%orb_prop; [specialize (Hlt1 Hc) | specialize (Hlt2 Hc)]; lia.
    + exists (new1 ++ new2). split; [by rewrite app_assoc|].
      split; [rewrite length_app; lia|].
      intros [Hg1 Hg2]%andb_prop. apply Forall_app. split; auto.
Qed.

Lemma re_match_groups (r : regex A) (s : list A) (m : list (list A)) (n : nat) :
  re_match r s = Some (m, n) ->
  length m = group_count r
  /\ (groups_consume r = true -> Forall (fun g => g ≠ []) m).
Proof.
  unfold re_match. destruct (run r (s, [])) as [|[s' caps'] sts] eqn:Hrun; [discriminate|].
  intros [= <- _].
  destruct (run_captures r s [] s' caps') as (_ & _ & new & -> & Hlen & Hne).
  { rewrite Hrun. by left. }
  simpl. by split.
Qed.
End RegexFacts.

(** The three groups of a header line are not empty. *)
Lemma header_groups (l : bytes) (m : list bytes) (n : nat) :
  re_match header_re l = Some (m, n) ->
  group m 1 ≠ [] /\ group m 2 ≠ [] /\ group m 3 ≠ [].
Proof.
  intros [Hlen Hne]%re_match_groups. specialize (Hne eq_refl).
  change (group_count header_re) with 3 in Hlen.
  destruct m as [|g1 [|g2 [|g3 [|]]]]; try discriminate.
  apply Forall_cons in Hne as [H1 Hne]. apply Forall_cons in Hne as [H2 Hne].
  apply Forall_cons in Hne as [H3 _]. by repeat split.
Qed.

Lemma decode_nonempty (s : bytes) (u : str) :
  decode s = Returned u -> s ≠ [] -> u ≠ [].
Proof.
  destruct s as [|c s]; [done|]. intros H _. unfold decode in H.
  destruct (mapM id (utf8_scan 0 (N_of_ascii <$> c :: s))) as [k|] eqn:Hk; [|discriminate].
  injection H as <-. apply mapM_Some in Hk.
  rewrite fmap_cons in Hk. cbn [utf8_scan] in Hk.
  destruct (utf8_first (N_of_ascii c) (N_of_ascii <$> s)); inversion Hk; discriminate.
Qed.

Local Open Scope N_scope.

(** ** The states of a result *)

Lemma header_together_step (st : zxing_locals) (l : bytes) (st' : zxing_locals) :
  header_together (l_uri st) (l_format st) (l_type st) ->
  zxing_line st l = Returned (Continue st') ->
  header_together (l_uri st') (l_format st') (l_type st').
Proof.
  intros HP H. zxing_line_inv H; simpl; try exact HP.
  right.
  match goal with
  | Hm : re_match header_re l = Some _ |- _ =>
      apply header_groups in Hm as (Hg1 & Hg2 & Hg3)
  end.
  do 3 eexists. repeat split; eauto using decode_nonempty.
Qed.

(** C6, as stated, fails: [BarCode.parse_zxing] returns a result with a
    [format] and an empty [raw] for a barcode whose text is empty, and a
    result with [raw] and no [format] for a payload without header line. *)
Lemma parse_zxing_mixed_states :
  parse_zxing empty_payload_output
  = Returned (mkBarCode (Some (ustr "file:///tmp/a.png")) (Some (ustr "QR_CODE"))
                (Some (ustr "TEXT")) (Some []) (Some []) (Some []) (Some []))
  /\ ~ two_states (mkBarCode (Some (ustr "file:///tmp/a.png")) (Some (ustr "QR_CODE"))
                     (Some (ustr "TEXT")) (Some []) (Some []) (Some []) (Some []))
  /\ parse_zxing payload_only_output
     = Returned (mkBarCode None None None (Some (ustr "abc")) (Some (ustr "abc"))
                   (Some []) (Some []))
  /\ ~ two_states (mkBarCode None None None (Some (ustr "abc")) (Some (ustr "abc"))
                     (Some []) (Some [])).
Proof.
  split; [vm_compute; reflexivity|]. split; [|split; [vm_compute; reflexivity|]].
  - intros [(_ & (x & [= <-] & Hx) & _)|([H|H] & _)]; [by apply Hx | discriminate..].
  - intros [((x & H & _) & _)|(_ & _ & [H|H] & _)]; discriminate.
Qed.

(** C6, amended.  A result of [BarCode.parse_zxing] is either the one for
    [No barcode found], with a [uri] and [None] in every decode field, or a
    result whose [raw], [parsed], [raw_bits] and [points] are all set,
    possibly empty, and whose [uri], [format] and [type] are set together:
    all [None], or all non-empty. *)
Theorem parse_zxing_result_states (zxing_output : bytes) (code : BarCode) :
  parse_zxing zxing_output = Returned code ->
  (exists u, code = mkBarCode (Some u) None None None None None None)
  \/ (exists (r p : str) (bits : bytes) (pts : list (Q * Q)),
         raw code = Some r /\ parsed code = Some p
         /\ raw_bits code = Some bits /\ points code = Some pts
         /\ header_together (uri code) (format code) (type code)).
Proof.
  intros H. unfold parse_zxing in H. bind_inv H. destruct a as [st|code'].
  - right.
    assert (header_together (l_uri st) (l_format st) (l_type st)) as Hst.
    { eapply (zxing_loop_invariant (fun _ => True)
                (fun st => header_together (l_uri st) (l_format st) (l_type st)));
        [intros ????; apply header_together_step | apply Forall_any | | exact Ha].
      left. by repeat split. }
    unfold zxing_finish in H. do 4 bind_inv H. injection H as <-.
    do 4 eexists. repeat split; exact Hst.
  - left. injection H as <-. by eapply zxing_loop_Return.
Qed.

Lemma parse_zxing_result_states_witness :
  (exists u, network_share_code = mkBarCode (Some u) None None None None None None)
  \/ (exists (r p : str) (bits : bytes) (pts : list (Q * Q)),
         raw network_share_code = Some r /\ parsed network_share_code = Some p
         /\ raw_bits network_share_code = Some bits
         /\ points network_share_code = Some pts
         /\ header_together (uri network_share_code) (format network_share_code)
              (type network_share_code)).
Proof.
  apply (parse_zxing_result_states network_share_output network_share_code).
  vm_compute. reflexivity.
Defined.

(** ** Lines and blocks of the output *)

Local Close Scope N_scope.

Lemma list_ind_2 {A} (P : list A -> Prop) :
  P [] -> (forall x, P [x]) ->
  (forall x y l, P l -> P (y :: l) -> P (x :: y :: l)) ->
  forall l, P l.
Proof.
  intros Hnil Hone Hstep l.
  assert (P l /\ forall x, P (x :: l)) as [H _]; [|exact H].
  induction l as [|y l [IH1 IH2]]; [by split|].
  split; [apply IH2|]. intros x. by apply Hstep.
Qed.

(** The four cases of [splitlines_keepends]. *)
Lemma splitlines_keepends_LF (s : bytes) :
  splitlines_keepends (LF :: s) = [LF] :: splitlines_keepends s.
Proof. reflexivity. Qed.

Lemma splitlines_keepends_CRLF (s : bytes) :
  splitlines_keepends (CR :: LF :: s) = [CR; LF] :: splitlines_keepends s.
Proof. reflexivity. Qed.

Lemma splitlines_keepends_CR (s : bytes) :
  head s ≠ Some LF ->
  splitlines_keepends (CR :: s) = [CR] :: splitlines_keepends s.
Proof.
  intros Hs. destruct s as [|c s]; [reflexivity|].
  cbn [splitlines_keepends]. rewrite (bool_decide_eq_false_2 (CR = LF)) by discriminate.
  rewrite (bool_decide_eq_true_2 (CR = CR)) by reflexivity.
  rewrite (bool_decide_eq_false_2 (c = LF)); [reflexivity|].
  intros ->. by apply Hs.
Qed.

Lemma splitlines_keepends_other (c : ascii) (s : bytes) :
  c ≠ LF -> c ≠ CR ->
  splitlines_keepends (c :: s) = join_first c (splitlines_keepends s).
Proof.
  intros H1 H2. cbn [splitlines_keepends].
  by rewrite (bool_decide_eq_false_2 (c = LF)), (bool_decide_eq_false_2 (c = CR)).
Qed.

Lemma concat_join_first (c : ascii) (lines : list bytes) :
  concat (join_first c lines) = c :: concat lines.
Proof. by destruct lines. Qed.

(** The lines of a text are its pieces. *)
Lemma concat_splitlines_keepends (s : bytes) : concat (splitlines_keepends s) = s.
Proof.
  induction s as [|x|x y s IH1 IH2] using list_ind_2.
  - reflexivity.
  - destruct (decide (x = LF)) as [->|H1]; [reflexivity|].
    destruct (decide (x = CR)) as [->|H2]; [reflexivity|].
    by rewrite splitlines_keepends_other.
  - destruct (decide (x = LF)) as [->|H1].
    { rewrite splitlines_keepends_LF. cbn [concat app]. by rewrite IH2. }
    destruct (decide (x = CR)) as [->|H2].
    { destruct (decide (y = LF)) as [->|H3].
      - rewrite splitlines_keepends_CRLF. cbn [concat app]. by rewrite IH1.
      - rewrite splitlines_keepends_CR by (simpl; congruence).
        cbn [concat app]. by rewrite IH2. }
    rewrite splitlines_keepends_other, concat_join_first by assumption.
    by rewrite IH2.
Qed.

(** The lines of two texts, the first of which ends a line, are the lines of
    the one followed by the lines of the other. *)
Lemma splitlines_keepends_app (s1 s2 : bytes) :
  splitlines_keepends (s1 ++ LF :: s2)
  = splitlines_keepends (s1 ++ [LF]) ++ splitlines_keepends s2.
Proof.
  induction s1 as [|x|x y s1 IH1 IH2] using list_ind_2.
  - reflexivity.
  - destruct (decide (x = LF)) as [->|H1]; [reflexivity|].
    destruct (decide (x = CR)) as [->|H2]; [reflexivity|].
    cbn [app].
    rewrite (splitlines_keepends_other x (LF :: s2)) by assumption.
    rewrite (splitlines_keepends_other x [LF]) by assumption.
    reflexivity.
  - cbn [app] in *.
    destruct (decide (x = LF)) as [->|H1].
    { rewrite !splitlines_keepends_LF, IH2. reflexivity. }
    destruct (decide (x = CR)) as [->|H2].
    { destruct (decide (y = LF)) as [->|H3].
      - rewrite !splitlines_keepends_CRLF, IH1. reflexivity.
      - rewrite !splitlines_keepends_CR by (simpl; congruence).
        rewrite IH2. reflexivity. }
    rewrite (splitlines_keepends_other x (y :: s1 ++ LF :: s2)) by assumption.
    rewrite (splitlines_keepends_other x (y :: s1 ++ [LF])) by assumption.
    rewrite IH2.
    destruct (splitlines_keepends (y :: s1 ++ [LF])) as [|l ls] eqn:E; [|reflexivity].
    apply (f_equal (@concat ascii)) in E. rewrite concat_splitlines_keepends in E.
    discriminate.
Qed.

Lemma append_to_last_snoc (line cur : bytes) (rs : list bytes) :
  append_to_last line (rs ++ [cur]) = Some (rs ++ [cur ++ line]).
Proof.
  induction rs as [|r rs IH]; [reflexivity|].
  destruct rs as [|r' rs]; [reflexivity|].
  change (append_to_last line ((r :: r' :: rs) ++ [cur]))
    with ((r ::.) <$> append_to_last line ((r' :: rs) ++ [cur])).
  rewrite IH. reflexivity.
Qed.

(** The lines that do not start a block are added to the last piece. *)
Lemma file_blocks_continue (ls rest : list bytes) (rs : list bytes) (cur : bytes) :
  Forall (fun l => starts_block l = false) ls ->
  file_blocks (rs ++ [cur]) (ls ++ rest) = file_blocks (rs ++ [cur ++ concat ls]) rest.
Proof.
  intros Hls. revert cur. induction Hls as [|l ls Hl _ IH]; intros cur.
  - simpl. by rewrite app_nil_r.
  - cbn [app file_blocks concat]. rewrite Hl, append_to_last_snoc.
    cbn [of_option]. rewrite Returned_bind, IH. by rewrite app_assoc.
Qed.

(** The loop of [_decode] cuts an output made of such blocks back into them. *)
Lemma file_blocks_concat (blocks : list bytes) (rs : list bytes) :
  Forall file_block blocks ->
  file_blocks rs (splitlines_keepends (concat blocks)) = Returned (rs ++ blocks).
Proof.
  intros Hblocks. revert rs.
  induction Hblocks as [|block blocks' Hblock _ IH]; intros rs.
  - simpl. by rewrite app_nil_r.
  - destruct Hblock as ((s & Hs) & l & ls & Hlines & Hl & Hls).
    cbn [concat]. rewrite Hs at 1. rewrite <- app_assoc. cbn [app].
    rewrite splitlines_keepends_app, <- Hs, Hlines.
    cbn [app file_blocks]. unfold starts_block at 1. rewrite Hl. cbn [orb].
    rewrite file_blocks_continue by assumption.
    assert (l ++ concat ls = block) as ->.
    { rewrite <- (concat_splitlines_keepends block), Hlines. reflexivity. }
    rewrite IH, <- app_assoc. reflexivity.
Qed.

(** An output that is empty or starts with [file://] passes the checks, when
    the return code is zero. *)
Lemma check_output_file (self : ZxingBarCodeReader) (cmd : list str) (stdout : bytes) :
  stdout = [] \/ startswith (bstr "file://") stdout = true ->
  check_output self cmd stdout 0 = Returned tt.
Proof.
  intros [->|H]; [reflexivity|].
  apply startswith_true in H as [r ->]. reflexivity.
Qed.

Lemma concat_file_blocks_start (blocks : list bytes) :
  Forall file_block blocks ->
  concat blocks = [] \/ startswith (bstr "file://") (concat blocks) = true.
Proof.
  intros [|block blocks' Hblock _]; [by left|]. right.
  destruct Hblock as (_ & l & ls & Hlines & Hl & _).
  apply startswith_true in Hl as [r ->].
  rewrite <- (concat_splitlines_keepends block), Hlines. cbn [concat].
  rewrite <- !app_assoc. apply startswith_app.
Qed.

(** ** The dictionary of results *)

Lemma by_uri_snoc (codes : list BarCode) (c : BarCode) :
  by_uri (codes ++ [c]) = <[uri c := c]> (by_uri codes).
Proof. unfold by_uri. by rewrite foldl_app. Qed.

Lemma by_uri_lookup_Some (codes : list BarCode) (k : option str) (c : BarCode) :
  by_uri codes !! k = Some c -> c ∈ codes /\ uri c = k.
Proof.
  induction codes as [|c' codes IH] using rev_ind.
  { unfold by_uri. cbn [foldl]. by rewrite lookup_empty. }
  rewrite by_uri_snoc. destruct (decide (uri c' = k)) as [Hk|Hk].
  - rewrite Hk, lookup_insert_eq. intros [= <-]. split; [|exact Hk].
    apply elem_of_app. right. by left.
  - rewrite lookup_insert_ne by assumption. intros [Hin Hu]%IH.
    split; [|exact Hu]. apply elem_of_app. by left.
Qed.

Lemma by_uri_lookup_None (codes : list BarCode) (k : option str) :
  k ∉ uri <$> codes -> by_uri codes !! k = None.
Proof.
  intros Hk. destruct (by_uri codes !! k) as [c|] eqn:Hc; [|reflexivity].
  apply by_uri_lookup_Some in Hc as [Hin <-]. exfalso. apply Hk.
  by apply list_elem_of_fmap_2.
Qed.

Lemma by_uri_lookup_is_Some (codes : list BarCode) (k : option str) :
  k ∈ uri <$> codes -> exists c, by_uri codes !! k = Some c.
Proof.
  induction codes as [|c' codes IH] using rev_ind.
  - by intros ?%elem_of_nil.
  - rewrite by_uri_snoc. destruct (decide (uri c' = k)) as [Hk|Hk].
    + intros _. exists c'. by rewrite Hk, lookup_insert_eq.
    + rewrite lookup_insert_ne by assumption. intros Hin. apply IH.
      rewrite fmap_app in Hin. apply elem_of_app in Hin as [Hin|Hin]; [exact Hin|].
      apply list_elem_of_singleton in Hin. congruence.
Qed.

(** When every requested URI is the [uri] of a result, the results come
    back in the order of the request. *)
Lemma in_order_Returned (codes : list BarCode) (file_uris : list str) :
  (forall f, f ∈ file_uris -> Some f ∈ uri <$> codes) ->
  exists results,
    in_order (by_uri codes) file_uris = Returned results
    /\ Forall2 (fun f c => uri c = Some f /\ c ∈ codes) file_uris results.
Proof.
  induction file_uris as [|f file_uris IH]; intros Hall.
  - exists []. split; [reflexivity | constructor].
  - destruct (by_uri_lookup_is_Some codes (Some f)) as [c Hc].
    { apply Hall. by left. }
    destruct IH as (results & Hres & Hforall).
    { intros f' Hf'. apply Hall. by right. }
    exists (c :: results). unfold in_order in *. cbn [comprehension].
    rewrite Hc. cbn [of_option]. rewrite Returned_bind, Hres, Returned_bind.
    split; [reflexivity|]. constructor; [|exact Hforall].
    apply by_uri_lookup_Some in Hc as [Hin Hu]. by split.
Qed.

(** When a requested URI is the [uri] of no result, the lookup raises
    [KeyError] for the first such URI. *)
Lemma in_order_Raised (codes : list BarCode) (file_uris : list str) (f : str) :
  f ∈ file_uris -> Some f ∉ uri <$> codes ->
  exists f', in_order (by_uri codes) file_uris = Raised (KeyError f')
             /\ f' ∈ file_uris /\ Some f' ∉ uri <$> codes.
Proof.
  induction file_uris as [|f0 file_uris IH]; intros Hin Hf; [by apply elem_of_nil in Hin|].
  unfold in_order in *. cbn [comprehension].
  destruct (decide (Some f0 ∈ uri <$> codes)) as [H0|H0].
  - destruct (by_uri_lookup_is_Some codes (Some f0) H0) as [c ->].
    cbn [of_option]. rewrite Returned_bind.
    apply elem_of_cons in Hin as [->|Hin]; [contradiction|].
    destruct (IH Hin Hf) as (f' & -> & Hin' & Hf').
    exists f'. split; [reflexivity|]. split; [by right | exact Hf'].
  - rewrite (by_uri_lookup_None codes (Some f0) H0).
    exists f0. split; [reflexivity|]. split; [by left | exact H0].
Qed.

(** ** The batch call *)

(** C1.  In a batch call of [ZxingBarCodeReader._decode] whose process
    ends with return code zero and prints one block per file, in any order,
    with a block for every requested file, the call returns one result per
    requested file, and the result at each position carries the URI of the
    file requested at that position. *)
Theorem decode_restores_request_order
    (as_uri : str -> str) (popen : list str -> process) (self : ZxingBarCodeReader)
    (filenames : list str) (try_harder : bool) (possible_formats : list str)
    (pure_barcode products_only : bool)
    (blocks : list bytes) (codes : list BarCode) :
  popen (command self (as_uri <$> filenames) try_harder possible_formats
           pure_barcode products_only) = Exited (concat blocks) 0 ->
  Forall file_block blocks ->
  Forall2 (fun block code => parse_zxing block = Returned code) blocks codes ->
  (forall fn, fn ∈ filenames -> Some (as_uri fn) ∈ uri <$> codes) ->
  exists results,
    _decode as_uri popen self filenames try_harder possible_formats pure_barcode
      products_only = Returned results
    /\ length results = length filenames
    /\ forall i fn, filenames !! i = Some fn ->
         exists code, results !! i = Some code /\ uri code = Some (as_uri fn)
                      /\ code ∈ codes.
Proof.
  intros Hpopen Hblocks Hcodes Hall.
  destruct (in_order_Returned codes (as_uri <$> filenames)) as (results & Hres & Hforall).
  { intros f (fn & -> & Hfn)%list_elem_of_fmap. by apply Hall. }
  exists results. split; [|split].
  - unfold _decode. rewrite Hpopen.
    rewrite check_output_file by (by apply concat_file_blocks_start).
    rewrite Returned_bind, (file_blocks_concat blocks []) by assumption.
    rewrite Returned_bind. cbn [app].
    apply comprehension_Returned in Hcodes. rewrite Hcodes, Returned_bind.
    exact Hres.
  - apply Forall2_length in Hforall. by rewrite length_fmap in Hforall.
  - intros i fn Hi.
    assert ((as_uri <$> filenames) !! i = Some (as_uri fn)) as Hi'.
    { by rewrite list_lookup_fmap, Hi. }
    destruct (Forall2_lookup_l _ _ _ _ _ Hforall Hi') as (code & Hcode & Hu & Hin).
    by exists code.
Qed.

Lemma file_block_A : file_block block_A.
Proof.
  split; [exists (removelast block_A); reflexivity|].
  eexists _, _. split; [vm_compute; reflexivity|].
  split; [reflexivity | repeat constructor].
Qed.

Lemma file_block_B : file_block block_B.
Proof.
  split; [exists (removelast block_B); reflexivity|].
  eexists _, _. split; [vm_compute; reflexivity|].
  split; [reflexivity | repeat constructor].
Qed.

Lemma file_block_C : file_block block_C.
Proof.
  split; [exists (removelast block_C); reflexivity|].
  eexists _, _. split; [vm_compute; reflexivity|].
  split; [reflexivity | repeat constructor].
Qed.

(** Requested [A, B, C], printed [C, A, B]. *)
Lemma decode_restores_request_order_witness :
  exists results,
    _decode plain_as_uri (fun _ => Exited (block_C ++ block_A ++ block_B) 0) a_reader
      [ustr "/tmp/A.png"; ustr "/tmp/B.png"; ustr "/tmp/C.png"] false [] true false
    = Returned results
    /\ length results = 3
    /\ forall i fn,
         [ustr "/tmp/A.png"; ustr "/tmp/B.png"; ustr "/tmp/C.png"] !! i = Some fn ->
         exists code, results !! i = Some code /\ uri code = Some (plain_as_uri fn)
                      /\ code ∈ [code_C; code_A; code_B].
Proof.
  apply (decode_restores_request_order plain_as_uri
           (fun _ => Exited (block_C ++ block_A ++ block_B) 0) a_reader
           [ustr "/tmp/A.png"; ustr "/tmp/B.png"; ustr "/tmp/C.png"] false [] true false
           [block_C; block_A; block_B] [code_C; code_A; code_B]).
  - cbn [concat]. by rewrite app_nil_r.
  - constructor; [apply file_block_C|].
    constructor; [apply file_block_A|].
    constructor; [apply file_block_B | constructor].
  - constructor; [vm_compute; reflexivity|].
    constructor; [vm_compute; reflexivity|].
    constructor; [vm_compute; reflexivity | constructor].
  - intros fn Hfn.
    repeat (apply elem_of_cons in Hfn as [->|Hfn]); [| | |by apply elem_of_nil in Hfn].
    + right. left.
    + right. right. left.
    + left.
Defined.

Example decode_C_A_B :
  _decode plain_as_uri (fun _ => Exited (block_C ++ block_A ++ block_B) 0) a_reader
    [ustr "/tmp/A.png"; ustr "/tmp/B.png"; ustr "/tmp/C.png"] false [] true false
  = Returned [code_A; code_B; code_C].
Proof. vm_compute. reflexivity. Qed.

(** C2, as stated, fails: the output holds the block of a file that was
    not requested, its result matches no requested URI, and the call
    returns the result of the requested file without it. *)
Lemma decode_drops_unmatched_result :
  file_blocks [] (splitlines_keepends (block_A ++ block_X)) = Returned [block_A; block_X]
  /\ parse_zxing block_X = Returned code_X
  /\ (uri code_X ∉ Some <$> (plain_as_uri <$> [ustr "/tmp/A.png"]))
  /\ _decode plain_as_uri (fun _ => Exited (block_A ++ block_X) 0) a_reader
       [ustr "/tmp/A.png"] false [] true false
     = Returned [code_A].
Proof.
  split; [vm_compute; reflexivity|]. split; [vm_compute; reflexivity|].
  split; [|vm_compute; reflexivity].
  vm_compute. intros H. apply list_elem_of_singleton in H. discriminate.
Qed.

(** C2, amended.  After the checks on the output, the call fails, with
    [KeyError], when the URI of a requested file is the [uri] of no parsed
    result.  When every requested URI is matched it returns, in the order of
    the request, results that carry the requested URIs: a parsed result
    whose [uri] was not requested raises nothing and is left out. *)
Theorem decode_missing_request_raises
    (as_uri : str -> str) (popen : list str -> process) (self : ZxingBarCodeReader)
    (filenames : list str) (try_harder : bool) (possible_formats : list str)
    (pure_barcode products_only : bool)
    (stdout : bytes) (returncode : Z) (file_results : list bytes)
    (codes : list BarCode) :
  popen (command self (as_uri <$> filenames) try_harder possible_formats
           pure_barcode products_only) = Exited stdout returncode ->
  check_output self
    (command self (as_uri <$> filenames) try_harder possible_formats pure_barcode
       products_only) stdout returncode = Returned tt ->
  file_blocks [] (splitlines_keepends stdout) = Returned file_results ->
  comprehension parse_zxing file_results = Returned codes ->
  ((forall fn, fn ∈ filenames -> Some (as_uri fn) ∈ uri <$> codes) ->
   exists results,
     _decode as_uri popen self filenames try_harder possible_formats pure_barcode
       products_only = Returned results
     /\ Forall2 (fun fn code => uri code = Some (as_uri fn) /\ code ∈ codes)
          filenames results)
  /\ (forall fn, fn ∈ filenames -> Some (as_uri fn) ∉ uri <$> codes ->
      exists f,
        _decode as_uri popen self filenames try_harder possible_formats pure_barcode
          products_only = Raised (KeyError f)
        /\ f ∈ as_uri <$> filenames /\ Some f ∉ uri <$> codes).
Proof.
  intros Hpopen Hcheck Hblocks Hcodes.
  assert (_decode as_uri popen self filenames try_harder possible_formats pure_barcode
            products_only = in_order (by_uri codes) (as_uri <$> filenames)) as ->.
  { unfold _decode. rewrite Hpopen, Hcheck, Returned_bind, Hblocks, Returned_bind.
    by rewrite Hcodes, Returned_bind. }
  split.
  - intros Hall.
    destruct (in_order_Returned codes (as_uri <$> filenames)) as (results & Hres & Hforall).
    { intros f (fn & -> & Hfn)%list_elem_of_fmap. by apply Hall. }
    exists results. split; [exact Hres|].
    by apply Forall2_fmap_l in Hforall.
  - intros fn Hfn Hmissing.
    apply (in_order_Raised codes (as_uri <$> filenames) (as_uri fn));
      [by apply list_elem_of_fmap_2 | exact Hmissing].
Qed.

Lemma decode_missing_request_raises_witness :
  (exists results,
      _decode plain_as_uri (fun _ => Exited (block_A ++ block_X) 0) a_reader
        [ustr "/tmp/A.png"] false [] true false = Returned results
      /\ Forall2 (fun fn code => uri code = Some (plain_as_uri fn)
                                 /\ code ∈ [code_A; code_X])
           [ustr "/tmp/A.png"] results)
  /\ (exists f,
        _decode plain_as_uri (fun _ => Exited (block_A ++ block_X) 0) a_reader
          [ustr "/tmp/A.png"; ustr "/tmp/B.png"] false [] true false
        = Raised (KeyError f)
        /\ f ∈ plain_as_uri <$> [ustr "/tmp/A.png"; ustr "/tmp/B.png"]
        /\ Some f ∉ uri <$> [code_A; code_X]).
Proof.
  split.
  - apply (decode_missing_request_raises plain_as_uri
             (fun _ => Exited (block_A ++ block_X) 0) a_reader [ustr "/tmp/A.png"]
             false [] true false (block_A ++ block_X) 0 [block_A; block_X]
             [code_A; code_X]).
    + reflexivity.
    + vm_compute. reflexivity.
    + vm_compute. reflexivity.
    + vm_compute. reflexivity.
    + intros fn ->%list_elem_of_singleton. left.
  - apply (decode_missing_request_raises plain_as_uri
             (fun _ => Exited (block_A ++ block_X) 0) a_reader
             [ustr "/tmp/A.png"; ustr "/tmp/B.png"]
             false [] true false (block_A ++ block_X) 0 [block_A; block_X]
             [code_A; code_X]) with (fn := ustr "/tmp/B.png").
    + reflexivity.
    + vm_compute. reflexivity.
    + vm_compute. reflexivity.
    + vm_compute. reflexivity.
    + right. left.
    + vm_compute. intros H.
      repeat (apply elem_of_cons in H as [H|H]; [discriminate|]).
      by apply elem_of_nil in H.
Defined.

(** ** The parser of [rxing-cli]'s output *)

(** [parse_rxing] returns for no input: the error branch raises
    [BarCodeReaderException] or reads the unbound [path], and the other
    branch reads [path] after the loop. *)
Lemma parse_rxing_raises
    (unicode_upper : N -> list N) (unicode_decimal : N -> option N)
    (unicode_name : list N -> option N) (as_uri : str -> str)
    (rxing_output fn : str) :
  exists e,
    parse_rxing unicode_upper unicode_decimal unicode_name as_uri rxing_output fn
    = Raised e.
Proof.
  unfold parse_rxing.
  destruct (startswith _ rxing_output).
  - case_bool_decide; eexists; reflexivity.
  - destruct (rxing_loop _ _ _ _ _) as [[[f r] p]|e]; eexists; reflexivity.
Qed.

(** C3.  For an output that starts with the error prefix for [fn],
    [BarCode.parse_rxing] raises [BarCodeReaderException] with the stripped
    reason and [fn] when the reason is not [NotFoundException].  When it is
    [NotFoundException], the [return] reads the unbound name [path]: the call
    raises [NameError] and returns no result. *)
Theorem parse_rxing_error_prefix
    (unicode_upper : N -> list N) (unicode_decimal : N -> option N)
    (unicode_name : list N -> option N) (as_uri : str -> str)
    (fn reason : str) :
  parse_rxing unicode_upper unicode_decimal unicode_name as_uri
    (rxing_error_prefix fn ++ reason) fn
  = if bool_decide (strip is_unicode_space reason = ustr "NotFoundException")
    then Raised (NameError "path")
    else Raised (BarCodeReaderException (strip is_unicode_space reason) (Some fn) None).
Proof.
  unfold parse_rxing. fold (rxing_error_prefix fn).
  rewrite startswith_app. unfold removeprefix.
  rewrite startswith_app, drop_app_length. reflexivity.
Qed.

Example parse_rxing_not_found
    (unicode_upper : N -> list N) (unicode_decimal : N -> option N)
    (unicode_name : list N -> option N) (as_uri : str -> str) :
  parse_rxing unicode_upper unicode_decimal unicode_name as_uri
    (ustr "Error while attempting to locate barcode in '/tmp/no_barcode.png': NotFoundException")
    (ustr "/tmp/no_barcode.png")
  = Raised (NameError "path").
Proof. reflexivity. Qed.

(** C4.  [BarCode.parse_rxing] returns no result at all: for the output of
    the repository's own test, which holds a format, points and data, the
    [return] after the loop reads the unbound name [path] and the call
    raises [NameError]; no call returns a [BarCode] whose [raw], [parsed],
    [raw_bits] and [type] could be compared. *)
Theorem parse_rxing_returns_nothing
    (unicode_upper : N -> list N) (unicode_decimal : N -> option N)
    (unicode_name : list N -> option N) (as_uri : str -> str) :
  parse_rxing unicode_upper unicode_decimal unicode_name as_uri rxing_test_output
    (ustr "/tmp/test.png") = Raised (NameError "path")
  /\ forall rxing_output fn : str,
       exists e,
         parse_rxing unicode_upper unicode_decimal unicode_name as_uri rxing_output fn
         = Raised e.
Proof.
  split; [vm_compute; reflexivity|]. apply parse_rxing_raises.
Qed.

(** C5.  For a [[Data]] line that holds [\u{a1}Atenci\u{f3}n], the loop of
    [BarCode.parse_rxing] rewrites the escapes to [\u00a1] and [\u00f3] and
    unescapes the line to the text [¡Atención]; the [return] after the loop
    then reads the unbound name [path], so the call raises [NameError] and
    no result carries that text. *)
Theorem parse_rxing_data_line
    (unicode_upper : N -> list N) (unicode_decimal : N -> option N)
    (unicode_name : list N -> option N) (as_uri : str -> str) :
  re_sub RUST_UNICODE_ESCAPE (fun m => ustr "\u" ++ rjust 4 48%N (group m 1))
    (ustr "\u{a1}Atenci\u{f3}n")
  = ustr "\u00a1Atenci\u00f3n"
  /\ rxing_loop unicode_upper unicode_decimal unicode_name (None, [], [])
       (str_splitlines (ustr "[Data] \u{a1}Atenci\u{f3}n"))
     = Returned (None, [161; 65; 116; 101; 110; 99; 105; 243; 110]%N, [])
  /\ parse_rxing unicode_upper unicode_decimal unicode_name as_uri
       (ustr "[Data] \u{a1}Atenci\u{f3}n") (ustr "/tmp/test.png")
     = Raised (NameError "path").
Proof. repeat split; vm_compute; reflexivity. Qed.

(** * Further properties *)

(** ** What the loop of [parse_zxing] keeps *)

Lemma decode_Raised (s : bytes) (e : exn) : decode s = Raised e -> e = UnicodeDecodeError.
Proof. unfold decode. destruct (mapM id _); [discriminate | by intros [= <-]]. Qed.

Lemma float_of_bytes_Raised (s : bytes) (e : exn) :
  float_of_bytes s = Raised e -> e = ValueError.
Proof. unfold float_of_bytes. destruct (float_of_ascii _); [discriminate | by intros [= <-]]. Qed.

Lemma zxing_line_Raised (st : zxing_locals) (l : bytes) (e : exn) :
  zxing_line st l = Raised e -> e = UnicodeDecodeError \/ e = ValueError.
Proof.
  intros H. unfold zxing_line in H. unfold mbind, result_bind in H.
  repeat case_match; simplify_eq;
    repeat match goal with
      | H : decode _ = Raised _ |- _ => apply decode_Raised in H
      | H : float_of_bytes _ = Raised _ |- _ => apply float_of_bytes_Raised in H
      end; auto.
Qed.

Lemma zxing_loop_Raised (ls : list bytes) (st : zxing_locals) (e : exn) :
  zxing_loop st ls = Raised e -> e = UnicodeDecodeError \/ e = ValueError.
Proof.
  revert st; induction ls as [|l ls IH]; intros st H; [discriminate|].
  rewrite zxing_loop_cons in H.
  destruct (zxing_line st l) as [[st'|code]|e'] eqn:Hl.
  - rewrite Returned_bind in H. by eapply IH.
  - discriminate.
  - injection H as <-. by eapply zxing_line_Raised.
Qed.

(** X1.  [BarCode.parse_zxing] raises nothing but [UnicodeDecodeError], for
    bytes that are not UTF-8, and [ValueError], for a number or a [Raw bits:]
    section that does not parse. *)
Theorem parse_zxing_raises_only (zxing_output : bytes) (e : exn) :
  parse_zxing zxing_output = Raised e -> e = UnicodeDecodeError \/ e = ValueError.
Proof.
  unfold parse_zxing.
  destruct (zxing_loop zxing_start (splitlines_keepends zxing_output))
    as [[st|code]|e'] eqn:Hloop.
  - rewrite Returned_bind. unfold zxing_finish. unfold mbind, result_bind.
    repeat case_match; simplify_eq;
      repeat match goal with
        | H : decode _ = Raised _ |- _ => apply decode_Raised in H
        end; intros; simplify_eq; auto.
    unfold of_option in *. case_match; simplify_eq. auto.
  - discriminate.
  - intros [= <-]. by eapply zxing_loop_Raised.
Qed.

Lemma parse_zxing_raises_only_witness :
  ValueError = UnicodeDecodeError \/ ValueError = ValueError.
Proof.
  apply (parse_zxing_raises_only odd_bits_output ValueError).
  vm_compute. reflexivity.
Defined.

Lemma loop_order_refl (st : zxing_locals) : loop_order st st.
Proof. unfold loop_order. repeat split; auto. Qed.

Lemma loop_order_trans (st1 st2 st3 : zxing_locals) :
  loop_order st1 st2 -> loop_order st2 st3 -> loop_order st1 st3.
Proof.
  unfold loop_order.
  intros (Hr1 & Hh1 & Hraw1 & Hp1 & Hb1 & Hpt1) (Hr2 & Hh2 & Hraw2 & Hp2 & Hb2 & Hpt2).
  split; [lia|]. split; [|split; [|split; [|split]]].
  - intros H. destruct Hh1 as (E1 & E2 & E3); [lia|].
    destruct Hh2 as (F1 & F2 & F3); [lia|]. repeat split; congruence.
  - intros H. rewrite <- Hraw1 by lia. apply Hraw2. lia.
  - intros H. rewrite <- Hp1 by lia. apply Hp2. lia.
  - intros H. rewrite <- Hb1 by lia. apply Hb2. lia.
  - intros H. rewrite <- Hpt1 by lia. apply Hpt2. lia.
Qed.

Lemma zxing_line_order (st : zxing_locals) (l : bytes) (st' : zxing_locals) :
  zxing_line st l = Returned (Continue st') -> loop_order st st'.
Proof.
  intros H. unfold loop_order.
  zxing_line_inv H; simpl;
    match goal with
    | Hb : l_block _ = _ |- _ => rewrite ?Hb
    end; simpl; repeat split; intros; try reflexivity; try lia.
Qed.

(** Over any run of lines the loop respects the order of the blocks. *)
Lemma zxing_loop_keeps_order (ls : list bytes) (st st' : zxing_locals) :
  zxing_loop st ls = Returned (Continue st') -> loop_order st st'.
Proof.
  revert st; induction ls as [|l ls IH]; intros st H.
  - injection H as <-. apply loop_order_refl.
  - rewrite zxing_loop_cons in H. bind_inv H. destruct a as [st1|code]; [|discriminate].
    eapply loop_order_trans; [by eapply zxing_line_order | by apply IH].
Qed.

(** X2.  The loop of [BarCode.parse_zxing] goes through its blocks in one
    direction, [UNKNOWN], [RAW], [PARSED], [RAW_BITS], [POINTS], and each
    block only writes its own fields: once the block has left [UNKNOWN] the
    [uri], [format] and [type] of the header line stay as they are, whatever
    the later lines hold, and likewise [raw] after [RAW], [parsed] after
    [PARSED] and [raw_bits] after [RAW_BITS]; a field is not written before
    its block is reached. *)
Theorem zxing_loop_order (ls : list bytes) (st st' : zxing_locals) :
  zxing_loop st ls = Returned (Continue st') -> loop_order st st'.
Proof.
  revert st; induction ls as [|l ls IH]; intros st H.
  - injection H as <-. apply loop_order_refl.
  - rewrite zxing_loop_cons in H. bind_inv H. destruct a as [st1|code]; [|discriminate].
    eapply loop_order_trans; [by eapply zxing_line_order | by apply IH].
Qed.

Lemma zxing_loop_order_witness :
  loop_order (mkLocals RAW (Some (ustr "file:///tmp/a.png")) (Some (ustr "QR_CODE"))
                (Some (ustr "TEXT")) [] [] [] [])
    (mkLocals PARSED (Some (ustr "file:///tmp/a.png")) (Some (ustr "QR_CODE"))
       (Some (ustr "TEXT"))
       (bstr "file:///tmp/b.png (format: AZTEC, type: URI):
") [] [] []).
Proof.
  apply (zxing_loop_order
           [bstr "file:///tmp/b.png (format: AZTEC, type: URI):
"; bstr "Parsed result:
"]).
  vm_compute. reflexivity.
Defined.

(** ** The payload of a block *)

Lemma header_re_not_raw_marker (r : bytes) :
  re_match header_re (bstr "Raw result:" ++ r) = None.
Proof. reflexivity. Qed.

Lemma found_re_not_bits_marker (l : bytes) :
  is_match (re_match found_re l) = true -> startswith (bstr "Raw bits:") l = false.
Proof.
  destruct l as [|c l]; [reflexivity|].
  destruct (decide (c = "R"%char)) as [->|Hc]; [discriminate|].
  intros _. cbn. by rewrite bool_decide_eq_false_2 by congruence.
Qed.

Lemma add_raw_nil (st : zxing_locals) : add_raw [] st = st.
Proof. destruct st. unfold add_raw. simpl. by rewrite app_nil_r. Qed.

Lemma add_raw_app (l1 l2 : bytes) (st : zxing_locals) :
  add_raw l2 (add_raw l1 st) = add_raw (l1 ++ l2) st.
Proof. unfold add_raw. simpl. by rewrite app_assoc. Qed.

Lemma add_parsed_nil (st : zxing_locals) : add_parsed [] st = st.
Proof. destruct st. unfold add_parsed. simpl. by rewrite app_nil_r. Qed.

Lemma add_parsed_app (l1 l2 : bytes) (st : zxing_locals) :
  add_parsed l2 (add_parsed l1 st) = add_parsed (l1 ++ l2) st.
Proof. unfold add_parsed. simpl. by rewrite app_assoc. Qed.

(** The lines of the raw section are appended to [raw]. *)
Lemma zxing_loop_raw (raw_lines rest : list bytes) (st : zxing_locals) :
  l_block st = RAW ->
  Forall (fun l => startswith (bstr "Parsed result:") l = false) raw_lines ->
  zxing_loop st (raw_lines ++ rest) = zxing_loop (add_raw (concat raw_lines) st) rest.
Proof.
  intros Hblock Hlines. revert st Hblock.
  induction Hlines as [|l ls Hl _ IH]; intros st Hblock.
  - simpl. by rewrite add_raw_nil.
  - change ((l :: ls) ++ rest) with (l :: (ls ++ rest)).
    rewrite zxing_loop_cons. unfold zxing_line. rewrite Hblock, Hl.
    rewrite Returned_bind, IH by assumption. by rewrite add_raw_app.
Qed.

(** The lines of the parsed section are appended to [parsed]. *)
Lemma zxing_loop_parsed (parsed_lines rest : list bytes) (st : zxing_locals) :
  l_block st = PARSED ->
  Forall (fun l => startswith (bstr "Raw bits:") l = false
                   /\ re_match found_re l = None) parsed_lines ->
  zxing_loop st (parsed_lines ++ rest)
  = zxing_loop (add_parsed (concat parsed_lines) st) rest.
Proof.
  intros Hblock Hlines. revert st Hblock.
  induction Hlines as [|l ls [Hl1 Hl2] _ IH]; intros st Hblock.
  - simpl. by rewrite add_parsed_nil.
  - change ((l :: ls) ++ rest) with (l :: (ls ++ rest)).
    rewrite zxing_loop_cons. unfold zxing_line. rewrite Hblock, Hl1, Hl2.
    cbn [is_match]. rewrite Returned_bind, IH by assumption.
    by rewrite add_parsed_app.
Qed.

(** The points section adds its points in the order of its lines. *)
Lemma zxing_loop_points_in_order (ls : list bytes) (st : zxing_locals) :
  l_block st = POINTS -> Forall point_line_ok ls ->
  zxing_loop st ls
  = Returned (Continue (mkLocals POINTS (l_uri st) (l_format st) (l_type st)
                          (l_raw st) (l_parsed st) (l_raw_bits st)
                          (l_points st ++ omap line_point ls))).
Proof.
  intros Hblock Hls. revert st Hblock.
  induction Hls as [|l ls Hl _ IH]; intros st Hblock.
  - cbn [zxing_loop omap]. rewrite app_nil_r. destruct st. simpl in *. by subst.
  - change (omap line_point (l :: ls))
      with (match line_point l with
            | Some p => p :: omap line_point ls
            | None => omap line_point ls
            end).
    rewrite zxing_loop_cons. unfold zxing_line. rewrite Hblock.
    unfold point_line_ok in Hl. unfold line_point.
    destruct (re_match point_re l) as [[m n]|].
    + destruct Hl as ((x & Hx) & (y & Hy)). rewrite Hx, Hy, !Returned_bind.
      rewrite (IH (add_point (x, y) st) Hblock).
      cbn [add_point l_uri l_format l_type l_raw l_parsed l_raw_bits l_points].
      by rewrite <- app_assoc.
    + rewrite Returned_bind. by apply IH.
Qed.

(** X3.  For an output in which, after lines read in the block [UNKNOWN],
    a [Raw result:] line, the lines of the raw text, a [Parsed result:] line,
    the lines of the parsed text and the [Found ... result points] line
    follow each other, [BarCode.parse_zxing] returns as [raw] and [parsed]
    the decoded lines of each text, line ends included, without their last
    byte, whatever these lines hold apart from the next marker; [raw_bits]
    is empty, and [points] holds the points of the lines after the [Found]
    line, in their order. *)
Theorem parse_zxing_payload
    (zxing_output : bytes) (before raw_lines parsed_lines after : list bytes)
    (raw_marker parsed_marker found : bytes) (st : zxing_locals)
    (raw_text parsed_text : str) :
  splitlines_keepends zxing_output
  = before ++ raw_marker :: raw_lines ++ parsed_marker :: parsed_lines ++ found :: after ->
  zxing_loop zxing_start before = Returned (Continue st) ->
  l_block st = UNKNOWN ->
  startswith (bstr "Raw result:") raw_marker = true ->
  endswith (bstr ": No barcode found") (strip byte_space raw_marker) = false ->
  Forall (fun l => startswith (bstr "Parsed result:") l = false) raw_lines ->
  startswith (bstr "Parsed result:") parsed_marker = true ->
  Forall (fun l => startswith (bstr "Raw bits:") l = false
                   /\ re_match found_re l = None) parsed_lines ->
  is_match (re_match found_re found) = true ->
  Forall point_line_ok after ->
  decode (drop_last (concat raw_lines)) = Returned raw_text ->
  decode (drop_last (concat parsed_lines)) = Returned parsed_text ->
  parse_zxing zxing_output
  = Returned (mkBarCode (l_uri st) (l_format st) (l_type st) (Some raw_text)
                (Some parsed_text) (Some []) (Some (omap line_point after))).
Proof.
  intros Hlines Hbefore Hblock Hrm Hnb Hraw Hpm Hparsed Hfound Hafter Hrt Hpt.
  destruct (zxing_loop_keeps_order _ _ _ Hbefore) as (_ & _ & Hr & Hp & Hb & Hpts).
  rewrite Hblock in Hr, Hp, Hb, Hpts. cbn in Hr, Hp, Hb, Hpts.
  specialize (Hr ltac:(lia)). specialize (Hp ltac:(lia)).
  specialize (Hb ltac:(lia)). specialize (Hpts ltac:(lia)).
  unfold parse_zxing.
  rewrite Hlines, zxing_loop_app, Hbefore, Returned_bind, zxing_loop_cons.
  unfold zxing_line at 1. rewrite Hblock, Hnb.
  destruct (startswith_true _ _ Hrm) as [r Hr'].
  rewrite Hr' at 1. rewrite header_re_not_raw_marker, Hrm, Returned_bind.
  rewrite zxing_loop_raw by (reflexivity || assumption).
  rewrite zxing_loop_cons. unfold zxing_line at 1.
  cbn [l_block add_raw set_block]. rewrite Hpm, Returned_bind.
  rewrite zxing_loop_parsed by (reflexivity || assumption).
  rewrite zxing_loop_cons. unfold zxing_line at 1.
  cbn [l_block add_parsed set_block].
  rewrite (found_re_not_bits_marker _ Hfound), Hfound, Returned_bind.
  rewrite zxing_loop_points_in_order by (reflexivity || assumption).
  rewrite Returned_bind. unfold zxing_finish.
  cbn [l_parsed l_raw l_raw_bits l_uri l_format l_type l_points set_block add_raw
         add_parsed].
  rewrite Hr, Hp, Hb, Hpts. cbn [app zxing_start l_raw l_parsed l_raw_bits l_points].
  rewrite Hpt, Hrt. reflexivity.
Qed.

Lemma parse_zxing_payload_witness :
  parse_zxing two_line_output
  = Returned (mkBarCode (Some (ustr "file:///tmp/a.png")) (Some (ustr "QR_CODE"))
                (Some (ustr "TEXT"))
                (Some (ustr "line one
file:///tmp/b.png: No barcode found"))
                (Some (ustr "line one
Raw result:"))
                (Some []) (Some [(1 # 1, 2 # 1); (7 # 2, 4 # 1)])).
Proof.
  apply (parse_zxing_payload two_line_output
           (take 1 (splitlines_keepends two_line_output))
           (take 2 (drop 2 (splitlines_keepends two_line_output)))
           (take 2 (drop 5 (splitlines_keepends two_line_output)))
           (drop 8 (splitlines_keepends two_line_output))
           (bstr "Raw result:
")
           (bstr "Parsed result:
")
           (bstr "Found 2 result points:
")
           (set_header (ustr "file:///tmp/a.png") (ustr "QR_CODE") (ustr "TEXT")
              zxing_start)).
  - vm_compute. reflexivity.
  - vm_compute. reflexivity.
  - reflexivity.
  - reflexivity.
  - vm_compute. reflexivity.
  - vm_compute. repeat constructor.
  - reflexivity.
  - vm_compute. repeat constructor.
  - reflexivity.
  - vm_compute. repeat constructor; eexists; reflexivity.
  - vm_compute. reflexivity.
  - vm_compute. reflexivity.
Defined.

(** ** What [_decode] returns and raises *)

Lemma check_output_Returned (self : ZxingBarCodeReader) (cmd : list str)
    (stdout : bytes) (returncode : Z) :
  check_output self cmd stdout returncode = Returned tt ->
  returncode = 0%Z
  /\ startswith (bstr "Exception ") stdout = false
  /\ startswith no_main_class stdout = false
  /\ startswith no_java_runtime stdout = false.
Proof.
  unfold check_output.
  destruct (startswith no_main_class stdout) eqn:H1; [discriminate|].
  destruct (startswith no_class_def stdout) eqn:H2; [discriminate|]. cbn [orb].
  destruct (startswith no_input_stream stdout || startswith no_input_stream_nested stdout).
  { unfold mbind, result_bind. repeat case_match; discriminate. }
  destruct (startswith could_not_load stdout).
  { unfold mbind, result_bind. repeat case_match; discriminate. }
  destruct (startswith (bstr "Exception ") stdout); [discriminate|].
  destruct (startswith no_java_runtime stdout); [discriminate|].
  case_bool_decide as Hrc; [discriminate|].
  intros _. repeat split. lia.
Qed.

Lemma in_order_inv (d : gmap (option str) BarCode) (file_uris : list str)
    (results : list BarCode) :
  in_order d file_uris = Returned results ->
  Forall2 (fun f code => d !! Some f = Some code) file_uris results.
Proof.
  unfold in_order. intros H%comprehension_Returned.
  eapply Forall2_impl; [exact H|]. intros f code Hf. simpl in Hf.
  destruct (d !! Some f); [by injection Hf as -> | discriminate].
Qed.

(** X4.  Whenever [ZxingBarCodeReader._decode] returns, the process has
    ended with return code zero and an output that does not start with
    [Exception ], and the results stand in the order of the request: the
    result at each position carries the URI of the file requested there and
    was parsed from one of the pieces the output was cut into. *)
Theorem decode_Returned
    (as_uri : str -> str) (popen : list str -> process) (self : ZxingBarCodeReader)
    (filenames : list str) (try_harder : bool) (possible_formats : list str)
    (pure_barcode products_only : bool) (results : list BarCode) :
  _decode as_uri popen self filenames try_harder possible_formats pure_barcode
    products_only = Returned results ->
  exists (stdout : bytes) (blocks : list bytes),
    popen (command self (as_uri <$> filenames) try_harder possible_formats
             pure_barcode products_only) = Exited stdout 0
    /\ startswith (bstr "Exception ") stdout = false
    /\ file_blocks [] (splitlines_keepends stdout) = Returned blocks
    /\ Forall2 (fun fn code =>
                  uri code = Some (as_uri fn)
                  /\ exists block, block ∈ blocks /\ parse_zxing block = Returned code)
         filenames results.
Proof.
  unfold _decode. intros H.
  destruct (popen _) as [e|stdout returncode]; [discriminate|].
  bind_inv H. destruct a. apply check_output_Returned in Ha as (-> & Hexc & _).
  bind_inv H. rename a into blocks. bind_inv H. rename a into codes.
  exists stdout, blocks. repeat split; try assumption.
  apply in_order_inv, Forall2_fmap_l in H.
  eapply Forall2_impl; [exact H|]. intros f code [Hin Hu]%by_uri_lookup_Some.
  split; [exact Hu|].
  apply comprehension_Returned in Ha0.
  apply list_elem_of_lookup in Hin as [i Hi].
  destruct (Forall2_lookup_r _ _ _ _ _ Ha0 Hi) as (block & Hblock & Hparse).
  exists block. split; [|exact Hparse]. by eapply list_elem_of_lookup_2.
Qed.

Lemma decode_Returned_witness :
  exists (stdout : bytes) (blocks : list bytes),
    Exited (block_C ++ block_A ++ block_B) 0 = Exited stdout 0
    /\ startswith (bstr "Exception ") stdout = false
    /\ file_blocks [] (splitlines_keepends stdout) = Returned blocks
    /\ Forall2 (fun fn code =>
                  uri code = Some (plain_as_uri fn)
                  /\ exists block, block ∈ blocks /\ parse_zxing block = Returned code)
         [ustr "/tmp/A.png"; ustr "/tmp/B.png"; ustr "/tmp/C.png"]
         [code_A; code_B; code_C].
Proof.
  apply (decode_Returned plain_as_uri
           (fun _ => Exited (block_C ++ block_A ++ block_B) 0) a_reader
           [ustr "/tmp/A.png"; ustr "/tmp/B.png"; ustr "/tmp/C.png"] false [] true false).
  vm_compute. reflexivity.
Defined.

(** X5.  When the output passes the checks of [_decode] but its first line
    starts neither with [file://] nor with [Exception], there is no piece to
    add the line to: the call raises [IndexError]. *)
Theorem decode_IndexError
    (as_uri : str -> str) (popen : list str -> process) (self : ZxingBarCodeReader)
    (filenames : list str) (try_harder : bool) (possible_formats : list str)
    (pure_barcode products_only : bool)
    (stdout : bytes) (returncode : Z) (l : bytes) (ls : list bytes) :
  popen (command self (as_uri <$> filenames) try_harder possible_formats
           pure_barcode products_only) = Exited stdout returncode ->
  check_output self
    (command self (as_uri <$> filenames) try_harder possible_formats pure_barcode
       products_only) stdout returncode = Returned tt ->
  splitlines_keepends stdout = l :: ls ->
  starts_block l = false ->
  _decode as_uri popen self filenames try_harder possible_formats pure_barcode
    products_only = Raised IndexError.
Proof.
  intros Hpopen Hcheck Hlines Hl. unfold _decode.
  rewrite Hpopen, Hcheck, Returned_bind, Hlines. cbn [file_blocks]. by rewrite Hl.
Qed.

Lemma decode_IndexError_witness :
  _decode plain_as_uri (fun _ => Exited warning_output 0) a_reader [ustr "/tmp/B.png"]
    false [] true false = Raised IndexError.
Proof.
  eapply (decode_IndexError plain_as_uri (fun _ => Exited warning_output 0) a_reader
            [ustr "/tmp/B.png"] false [] true false warning_output 0).
  - reflexivity.
  - vm_compute. reflexivity.
  - vm_compute. reflexivity.
  - reflexivity.
Defined.

(** X6.  When the process prints nothing and ends with return code zero,
    [_decode] returns the empty list for an empty request and raises
    [KeyError] with the URI of the first requested file otherwise. *)
Theorem decode_empty_output
    (as_uri : str -> str) (popen : list str -> process) (self : ZxingBarCodeReader)
    (filenames : list str) (try_harder : bool) (possible_formats : list str)
    (pure_barcode products_only : bool) :
  popen (command self (as_uri <$> filenames) try_harder possible_formats
           pure_barcode products_only) = Exited [] 0 ->
  _decode as_uri popen self filenames try_harder possible_formats pure_barcode
    products_only
  = match filenames with
    | [] => Returned []
    | fn :: _ => Raised (KeyError (as_uri fn))
    end.
Proof.
  intros Hpopen. unfold _decode. rewrite Hpopen. by destruct filenames.
Qed.

Lemma decode_empty_output_witness :
  _decode plain_as_uri (fun _ => Exited [] 0) a_reader
    [ustr "/tmp/A.png"; ustr "/tmp/B.png"] false [] true false
  = Raised (KeyError (plain_as_uri (ustr "/tmp/A.png"))).
Proof.
  apply (decode_empty_output plain_as_uri (fun _ => Exited [] 0) a_reader
           [ustr "/tmp/A.png"; ustr "/tmp/B.png"] false [] true false).
  reflexivity.
Defined.

(** ** Cutting the output into pieces *)

Lemma starts_block_app (b x : bytes) :
  starts_block b = true -> starts_block (b ++ x) = true.
Proof.
  unfold starts_block. intros [H|H]%orb_prop; apply startswith_true in H as [r ->];
    rewrite <- app_assoc, startswith_app; [reflexivity | apply orb_true_r].
Qed.

Lemma append_to_last_Some (line : bytes) (acc rs : list bytes) :
  append_to_last line acc = Some rs ->
  concat rs = concat acc ++ line
  /\ (Forall (fun b => starts_block b = true) acc ->
      Forall (fun b => starts_block b = true) rs).
Proof.
  destruct acc as [|cur acc _] using rev_ind; [discriminate|].
  rewrite append_to_last_snoc. intros [= <-]. split.
  - rewrite !concat_app. cbn [concat]. by rewrite !app_nil_r, app_assoc.
  - intros [Hacc Hcur%Forall_inv]%Forall_app. apply Forall_app. split; [exact Hacc|].
    constructor; [|constructor]. by apply starts_block_app.
Qed.

Lemma file_blocks_Returned (acc lines blocks : list bytes) :
  file_blocks acc lines = Returned blocks ->
  concat blocks = concat acc ++ concat lines
  /\ (Forall (fun b => starts_block b = true) acc ->
      Forall (fun b => starts_block b = true) blocks).
Proof.
  revert acc. induction lines as [|line lines IH]; intros acc; cbn [file_blocks].
  { intros [= <-]. cbn [concat]. by rewrite app_nil_r. }
  destruct (starts_block line) eqn:Hline.
  - intros [Hc Hs]%IH. split.
    + rewrite Hc, concat_app. cbn [concat]. by rewrite app_nil_r, <- app_assoc.
    + intros Hacc. apply Hs, Forall_app. split; [exact Hacc|]. by repeat constructor.
  - intros H. bind_inv H. destruct (append_to_last line acc) as [rs|] eqn:Hrs;
      [|discriminate]. injection Ha as <-.
    apply append_to_last_Some in Hrs as [Hc1 Hs1]. apply IH in H as [Hc Hs]. split.
    + rewrite Hc, Hc1. cbn [concat]. by rewrite <- app_assoc.
    + intros Hacc. by apply Hs, Hs1.
Qed.

(** X7.  When the loop of [_decode] that cuts the output into one piece per
    file ends without error, the pieces joined in order are the output,
    byte for byte, and every piece starts with [file://] or [Exception]. *)
Theorem file_blocks_partition (stdout : bytes) (blocks : list bytes) :
  file_blocks [] (splitlines_keepends stdout) = Returned blocks ->
  concat blocks = stdout /\ Forall (fun b => starts_block b = true) blocks.
Proof.
  intros [Hc Hs]%file_blocks_Returned. split.
  - rewrite Hc. apply concat_splitlines_keepends.
  - apply Hs. constructor.
Qed.

Lemma file_blocks_partition_witness :
  concat [block_C; block_A; block_B] = block_C ++ block_A ++ block_B
  /\ Forall (fun b => starts_block b = true) [block_C; block_A; block_B].
Proof.
  apply (file_blocks_partition (block_C ++ block_A ++ block_B) [block_C; block_A; block_B]).
  vm_compute. reflexivity.
Defined.

(** ** Several pieces for one file *)

Lemma by_uri_last (codes1 codes2 : list BarCode) (c : BarCode) :
  Forall (fun c' => uri c' <> uri c) codes2 ->
  by_uri (codes1 ++ c :: codes2) !! uri c = Some c.
Proof.
  induction codes2 as [|c' codes2 IH] using rev_ind; intros Hlater.
  - rewrite by_uri_snoc. apply lookup_insert_eq.
  - apply Forall_app in Hlater as [Hlater Hc'%Forall_inv].
    change (codes1 ++ c :: codes2 ++ [c']) with (codes1 ++ (c :: codes2) ++ [c']).
    rewrite app_assoc, by_uri_snoc, lookup_insert_ne by exact Hc'. by apply IH.
Qed.

(** X8.  When the output of the process holds several pieces whose results
    carry the URI of a requested file, [_decode] returns the result of the
    last of them for that file; the earlier ones are dropped without
    error. *)
Theorem decode_last_block_wins
    (as_uri : str -> str) (popen : list str -> process) (self : ZxingBarCodeReader)
    (fn : str) (try_harder : bool) (possible_formats : list str)
    (pure_barcode products_only : bool)
    (stdout : bytes) (blocks : list bytes) (codes1 codes2 : list BarCode) (c : BarCode) :
  popen (command self (as_uri <$> [fn]) try_harder possible_formats
           pure_barcode products_only) = Exited stdout 0 ->
  check_output self
    (command self (as_uri <$> [fn]) try_harder possible_formats pure_barcode
       products_only) stdout 0 = Returned tt ->
  file_blocks [] (splitlines_keepends stdout) = Returned blocks ->
  comprehension parse_zxing blocks = Returned (codes1 ++ c :: codes2) ->
  uri c = Some (as_uri fn) ->
  Forall (fun c' => uri c' <> Some (as_uri fn)) codes2 ->
  _decode as_uri popen self [fn] try_harder possible_formats pure_barcode
    products_only = Returned [c].
Proof.
  intros Hpopen Hcheck Hblocks Hcodes Hc Hlater. unfold _decode.
  rewrite Hpopen, Hcheck, Returned_bind, Hblocks, Returned_bind, Hcodes, Returned_bind.
  unfold in_order. cbn [fmap list_fmap comprehension]. rewrite <- Hc in Hlater |- *.
  by rewrite by_uri_last.
Qed.

Lemma decode_last_block_wins_witness :
  _decode plain_as_uri (fun _ => Exited (block_B ++ block_B_again ++ block_A) 0) a_reader
    [ustr "/tmp/B.png"] false [] true false = Returned [code_B_again].
Proof.
  apply (decode_last_block_wins plain_as_uri
           (fun _ => Exited (block_B ++ block_B_again ++ block_A) 0) a_reader
           (ustr "/tmp/B.png") false [] true false
           (block_B ++ block_B_again ++ block_A) [block_B; block_B_again; block_A]
           [code_B] [code_A] code_B_again).
  - reflexivity.
  - vm_compute. reflexivity.
  - vm_compute. reflexivity.
  - vm_compute. reflexivity.
  - vm_compute. reflexivity.
  - constructor; [discriminate | constructor].
Defined.

(** ** Errors that the Java process reports *)

Section PairSeparator.
Context {A : Type} `{EqDecision A}.

Lemma rpartition_pair_absent (a b x : A) (s : list A) :
  b ∉ s -> rpartition [a; b] (x :: s) = None.
Proof.
  revert x. induction s as [|y s IH]; intros x Hb.
  - cbn. by rewrite andb_false_r.
  - change (rpartition [a; b] (x :: y :: s))
      with (match rpartition [a; b] (y :: s) with
            | Some (before, after) => Some (x :: before, after)
            | None => if startswith [a; b] (x :: y :: s)
                      then Some ([], drop 2 (x :: y :: s)) else None
            end).
    rewrite IH by (intros ?; apply Hb; by right). cbn [startswith].
    rewrite (bool_decide_eq_false_2 (b = y)) by (intros ->; apply Hb; by left).
    by rewrite andb_false_r.
Qed.

Lemma rsplit1_pair (a b : A) (p s : list A) :
  b ∉ s -> rsplit1 [a; b] (p ++ a :: b :: s) = [p; s].
Proof.
  intros Hb. unfold rsplit1.
  assert (rpartition [a; b] (p ++ a :: b :: s) = Some (p, s)) as ->; [|reflexivity].
  induction p as [|x p IH].
  - change (rpartition [a; b] ([] ++ a :: b :: s))
      with (match rpartition [a; b] (b :: s) with
            | Some (before, after) => Some (a :: before, after)
            | None => if startswith [a; b] (a :: b :: s)
                      then Some ([], drop 2 (a :: b :: s)) else None
            end).
    rewrite rpartition_pair_absent by exact Hb. cbn [startswith].
    by rewrite !bool_decide_eq_true_2.
  - cbn [app rpartition]. by rewrite IH.
Qed.
End PairSeparator.

Lemma filter_none {A} (f : A -> bool) (l : list A) :
  Forall (fun x => f x = false) l -> filter (fun x => f x = true) l = [].
Proof.
  induction 1 as [|x l Hx _ IH]; [reflexivity|].
  rewrite filter_cons_False by (rewrite Hx; discriminate). exact IH.
Qed.

(** X9.  When the output starts with the message of Java's
    [IIOException: Can't get input stream from URL!], [_decode] reads the
    first line that starts with
    [Caused by: java.io.FileNotFoundException: ]: the text up to the last
    [ (] is the file name of the exception raised, and the text between
    that and the final character decides the cause: [FileNotFoundError]
    for [No such file or directory], [PermissionError] for
    [Permission denied], an [OSError] with that text otherwise. *)
Theorem decode_unreadable_image
    (as_uri : str -> str) (popen : list str -> process) (self : ZxingBarCodeReader)
    (filenames : list str) (try_harder : bool) (possible_formats : list str)
    (pure_barcode products_only : bool)
    (stdout : bytes) (returncode : Z) (before after : list bytes)
    (fn_bytes reason_bytes : bytes) (last : ascii) (fn reason : str) (c : N) :
  popen (command self (as_uri <$> filenames) try_harder possible_formats
           pure_barcode products_only) = Exited stdout returncode ->
  startswith no_input_stream stdout = true
  \/ startswith no_input_stream_nested stdout = true ->
  bytes_splitlines stdout
  = before ++ (caused_by ++ fn_bytes ++ bstr " (" ++ reason_bytes ++ [last]) :: after ->
  Forall (fun l => startswith caused_by l = false) before ->
  "("%char ∉ reason_bytes ++ [last] ->
  decode fn_bytes = Returned fn ->
  decode (reason_bytes ++ [last]) = Returned (reason ++ [c]) ->
  _decode as_uri popen self filenames try_harder possible_formats pure_barcode
    products_only
  = Raised (BarCodeReaderException (ustr "Java library could not read image") (Some fn)
      (Some (if bool_decide (reason ++ [c] = ustr "No such file or directory)")
             then FileNotFoundError fn
             else if bool_decide (reason ++ [c] = ustr "Permission denied)")
                  then PermissionError fn
                  else OSError reason))).
Proof.
  intros Hpopen Hstart Hlines Hbefore Hparen Hfn Hreason. unfold _decode.
  rewrite Hpopen. unfold check_output.
  assert (startswith no_main_class stdout || startswith no_class_def stdout = false) as ->.
  { destruct Hstart as [H|H]; apply startswith_true in H as [r ->]; reflexivity. }
  assert (startswith no_input_stream stdout || startswith no_input_stream_nested stdout
          = true) as ->.
  { destruct Hstart as [-> | ->]; [reflexivity | apply orb_true_r]. }
  rewrite Hlines, filter_app, filter_none by exact Hbefore.
  rewrite filter_cons_True by apply startswith_app. cbn [app].
  change 42%nat with (length caused_by). rewrite drop_app_length.
  change (bstr " (" ++ reason_bytes ++ [last])
    with (" "%char :: "("%char :: (reason_bytes ++ [last])).
  change (bstr " (") with [" "%char; "("%char].
  rewrite rsplit1_pair by exact Hparen. rewrite Hfn, Returned_bind, Hreason, !Returned_bind.
  unfold drop_last. rewrite removelast_last. reflexivity.
Qed.

Lemma decode_unreadable_image_witness :
  _decode plain_as_uri (fun _ => Exited missing_file_output 1) a_reader
    [ustr "/tmp/missing file.png"] false [] true false
  = Raised (BarCodeReaderException (ustr "Java library could not read image")
      (Some (ustr "/tmp/missing file.png"))
      (Some (FileNotFoundError (ustr "/tmp/missing file.png")))).
Proof.
  apply (decode_unreadable_image plain_as_uri (fun _ => Exited missing_file_output 1)
           a_reader [ustr "/tmp/missing file.png"] false [] true false
           missing_file_output 1
           [no_input_stream; bstr "	at javax.imageio.ImageIO.read(ImageIO.java:1395)"]
           [bstr "	at java.io.FileInputStream.open0(Native Method)"]
           (bstr "/tmp/missing file.png") (bstr "No such file or directory") ")"%char
           (ustr "/tmp/missing file.png") (ustr "No such file or directory") 41%N).
  - reflexivity.
  - left. vm_compute. reflexivity.
  - vm_compute. reflexivity.
  - repeat constructor.
  - apply (bool_decide_eq_false_1 _). vm_compute. reflexivity.
  - vm_compute. reflexivity.
  - vm_compute. reflexivity.
Defined.

Lemma first_line_prefix (s : bytes) :
  exists r, s = hd [] (bytes_splitlines s) ++ r.
Proof.
  induction s as [|c s [r IH]]; [by exists []|]. cbn [bytes_splitlines].
  case_bool_decide; [by exists (c :: s)|].
  case_bool_decide; [destruct s as [|c' s]; [|case_bool_decide]; by exists (c :: s) + by eexists|].
  destruct (bytes_splitlines s) as [|l ls]; [by exists s|].
  exists r. cbn [hd] in *. by rewrite IH at 1.
Qed.

(** X10.  When the output starts with the message of Java's
    [IOException: Could not load ], [_decode] takes the rest of the first
    line as a URI: for a [file] URI without network location, query and
    fragment it raises [BarCodeReaderException] with the path of the URI,
    plus signs and percent escapes decoded, as file name; for any other URI
    the [ValueError] of [file_uri_to_path] leaves the call instead. *)
Theorem decode_could_not_load
    (as_uri : str -> str) (popen : list str -> process) (self : ZxingBarCodeReader)
    (filenames : list str) (try_harder : bool) (possible_formats : list str)
    (pure_barcode products_only : bool)
    (stdout : bytes) (returncode : Z) (uri_bytes : bytes) (rest : list bytes)
    (uri : str) :
  popen (command self (as_uri <$> filenames) try_harder possible_formats
           pure_barcode products_only) = Exited stdout returncode ->
  bytes_splitlines stdout = (could_not_load ++ uri_bytes) :: rest ->
  decode uri_bytes = Returned uri ->
  _decode as_uri popen self filenames try_harder possible_formats pure_barcode
    products_only
  = if bool_decide (plain_file_uri (urlparse uri))
    then Raised (BarCodeReaderException
                   (ustr "Java library could not read image (is it in a supported format?)")
                   (Some (unquote_plus (u_path (urlparse uri)))) None)
    else Raised ValueError.
Proof.
  intros Hpopen Hlines Huri. unfold _decode. rewrite Hpopen. unfold check_output.
  destruct (first_line_prefix stdout) as [r Hr]. rewrite Hlines in Hr |- *.
  cbn [hd] in Hr |- *. rewrite <- app_assoc in Hr.
  assert (startswith no_main_class stdout || startswith no_class_def stdout = false) as ->
    by (rewrite Hr; reflexivity).
  assert (startswith no_input_stream stdout || startswith no_input_stream_nested stdout
          = false) as -> by (rewrite Hr; reflexivity).
  assert (startswith could_not_load stdout = true) as ->
    by (rewrite Hr; apply startswith_app).
  change 63%nat with (length could_not_load). rewrite drop_app_length, Huri, Returned_bind.
  case_bool_decide as Hplain.
  - by rewrite file_uri_to_path_plain.
  - by rewrite file_uri_to_path_other.
Qed.

Lemma decode_could_not_load_witness :
  _decode plain_as_uri (fun _ => Exited not_an_image_output 1) a_reader
    [ustr "/tmp/not an image.txt"] false [] true false
  = Raised (BarCodeReaderException
              (ustr "Java library could not read image (is it in a supported format?)")
              (Some (ustr "/tmp/not an image.txt")) None).
Proof.
  apply (decode_could_not_load plain_as_uri (fun _ => Exited not_an_image_output 1)
           a_reader [ustr "/tmp/not an image.txt"] false [] true false
           not_an_image_output 1 (bstr "file:///tmp/not%20an+image.txt")
           [bstr "	at com.google.zxing.client.j2se.ImageReader.readImage(ImageReader.java:51)"]
           (ustr "file:///tmp/not%20an+image.txt")).
  - reflexivity.
  - vm_compute. reflexivity.
  - vm_compute. reflexivity.
Defined.

(** ** Data URIs *)

Local Open Scope N_scope.

Section SplitFacts.
Context {A : Type} `{EqDecision A}.

Lemma partition_char_app_absent (sep : A) (l k : list A) :
  sep ∉ l ->
  partition_char sep (l ++ k)
  = '(before, after) ← partition_char sep k; Some (l ++ before, after).
Proof.
  induction l as [|x l IH]; intros Hsep; cbn [app partition_char].
  - by destruct (partition_char sep k) as [[??]|].
  - apply not_elem_of_cons in Hsep as [Hx Hl].
    rewrite bool_decide_eq_false_2 by congruence. rewrite IH by exact Hl.
    by destruct (partition_char sep k) as [[??]|].
Qed.

Lemma partition_char_first (sep : A) (l k : list A) :
  sep ∉ l -> partition_char sep (l ++ sep :: k) = Some (l, k).
Proof.
  intros Hsep. rewrite partition_char_app_absent by exact Hsep. cbn [partition_char].
  rewrite bool_decide_eq_true_2 by reflexivity. cbn. by rewrite app_nil_r.
Qed.

Lemma partition_char_absent (sep : A) (l : list A) :
  sep ∉ l -> partition_char sep l = None.
Proof.
  intros Hsep. rewrite <- (app_nil_r l), partition_char_app_absent by exact Hsep.
  reflexivity.
Qed.

Lemma partition_char_Some (sep : A) (l before after : list A) :
  partition_char sep l = Some (before, after) ->
  l = before ++ sep :: after /\ sep ∉ before.
Proof.
  revert before. induction l as [|x l IH]; intros before; cbn [partition_char];
    [discriminate|].
  case_bool_decide as Hx.
  - intros [= <- <-]. subst x. split; [reflexivity | apply not_elem_of_nil].
  - destruct (partition_char sep l) as [[b a]|]; [|discriminate].
    cbn. intros [= <- <-]. destruct (IH b eq_refl) as [-> Hb]. split; [reflexivity|].
    apply not_elem_of_cons. split; [congruence | exact Hb].
Qed.

Lemma remove_char_absent (a : A) (s : list A) : a ∉ s -> remove_char a s = s.
Proof.
  unfold remove_char. induction s as [|x s IH]; intros Ha; [reflexivity|].
  apply not_elem_of_cons in Ha as [Hx Hs].
  rewrite filter_cons_True by congruence. by rewrite IH.
Qed.

Lemma remove_char_app (a : A) (s t : list A) :
  remove_char a (s ++ t) = remove_char a s ++ remove_char a t.
Proof. apply filter_app. Qed.

Lemma startswith_pair_app (a : A) (p t : list A) (c : A) :
  startswith [a; a] p = false -> c ≠ a -> startswith [a; a] (p ++ c :: t) = false.
Proof.
  intros Hp Hc. destruct p as [|x [|y p]]; cbn [app startswith] in *.
  - by rewrite bool_decide_eq_false_2 by congruence.
  - rewrite (bool_decide_eq_false_2 (a = c)) by congruence.
    by rewrite andb_false_r.
  - exact Hp.
Qed.
End SplitFacts.

Lemma split_once_first (sep : N) (l k : str) :
  sep ∉ l -> split_once sep (l ++ sep :: k) = (l, k).
Proof. intros H. unfold split_once. by rewrite partition_char_first. Qed.

Lemma split_once_absent (sep : N) (l : str) : sep ∉ l -> split_once sep l = (l, []).
Proof. intros H. unfold split_once. by rewrite partition_char_absent. Qed.

(** The path that [urlsplit] cuts out in front of a fragment or a query. *)
Lemma split_path (p tail : str) :
  35 ∉ p -> 63 ∉ p ->
  tail = [] \/ (exists c junk, tail = c :: junk /\ (c = 35 \/ c = 63)) ->
  (split_once 63 (split_once 35 (p ++ tail)).1).1 = p.
Proof.
  intros H35 H63 [->|(c & junk & -> & [->| ->])].
  - rewrite app_nil_r, (split_once_absent 35 p) by exact H35. cbn [fst].
    by rewrite split_once_absent.
  - rewrite (split_once_first 35 p) by exact H35. cbn [fst].
    by rewrite split_once_absent.
  - unfold split_once at 2. rewrite partition_char_app_absent by exact H35.
    cbn [partition_char]. rewrite bool_decide_eq_false_2 by discriminate.
    destruct (partition_char 35 junk) as [[b a]|]; cbn; by rewrite split_once_first.
Qed.

Lemma urlparse_data (p tail : str) :
  plain_data_path p ->
  tail = [] \/ (exists c junk, tail = c :: junk /\ (c = 35 \/ c = 63)) ->
  let r := urlparse (ustr "data:" ++ p ++ tail) in
  u_scheme r = ustr "data" /\ u_netloc r = [] /\ u_path r = p.
Proof.
  intros (H9 & H10 & H13 & H35 & H63 & Hslash) Htail.
  set (tail' := remove_char 10 (remove_char 13 (remove_char 9 tail))).
  assert (tail' = [] \/ (exists c junk, tail' = c :: junk /\ (c = 35 \/ c = 63)))
    as Htail'.
  { destruct Htail as [->|(c & junk & -> & Hc)]; [by left|]. right.
    exists c, (remove_char 10 (remove_char 13 (remove_char 9 junk))).
    split; [|exact Hc]. by destruct Hc as [-> | ->]. }
  assert (startswith (ustr "//") (p ++ tail') = false) as Hslash'.
  { destruct Htail' as [->|(c & junk & -> & Hc)]; [by rewrite app_nil_r|].
    apply (startswith_pair_app 47); [exact Hslash | by destruct Hc as [-> | ->]]. }
  pose proof (split_path p tail' H35 H63 Htail') as Hpath.
  revert Hpath.
  assert (remove_char 10 (remove_char 13 (remove_char 9
            (lstrip c0_control_or_space (ustr "data:" ++ p ++ tail))))
          = ustr "data:" ++ p ++ tail') as Hurl.
  { change (lstrip c0_control_or_space (ustr "data:" ++ p ++ tail))
      with (ustr "data:" ++ p ++ tail).
    rewrite !remove_char_app.
    rewrite (remove_char_absent 9 p), (remove_char_absent 13 p),
      (remove_char_absent 10 p) by assumption.
    reflexivity. }
  clearbody tail'. unfold urlparse, urlsplit. rewrite Hurl.
  change (partition_char 58 (ustr "data:" ++ p ++ tail'))
    with (Some ([100; 97; 116; 97], p ++ tail')).
  cbv beta iota zeta.
  change (is_ascii_alpha 100 && forallb scheme_char [100; 97; 116; 97]) with true.
  cbv beta iota zeta. rewrite Hslash'.
  destruct (split_once 35 (p ++ tail')) as [u fragment]. cbn [fst].
  destruct (split_once 63 u) as [u' query]. cbn [fst]. intros ->.
  change (bool_decide (ascii_lower <$> [100; 97; 116; 97] ∈ uses_params)) with false.
  cbn. done.
Qed.

Lemma data_uri_to_fobj_path (s s' : str) :
  u_scheme (urlparse s) = u_scheme (urlparse s') ->
  u_netloc (urlparse s) = u_netloc (urlparse s') ->
  u_path (urlparse s) = u_path (urlparse s') ->
  data_uri_to_fobj s = data_uri_to_fobj s'.
Proof. unfold data_uri_to_fobj. by intros -> -> ->. Qed.

(** X11.  In a [data:] URI, [data_uri_to_fobj] reads nothing from the first
    [#] or [?] on: [urlparse] takes what follows as fragment or query, and
    the function never looks at them. *)
Theorem data_uri_cut_at_fragment_or_query (p : str) (c : N) (junk : str) :
  plain_data_path p -> c = 35 \/ c = 63 ->
  data_uri_to_fobj (ustr "data:" ++ p ++ c :: junk) = data_uri_to_fobj (ustr "data:" ++ p).
Proof.
  intros Hp Hc.
  destruct (urlparse_data p (c :: junk) Hp) as (Hs & Hn & Hpath); [right; by eauto|].
  destruct (urlparse_data p [] Hp) as (Hs' & Hn' & Hpath'); [by left|].
  rewrite app_nil_r in Hs', Hn', Hpath'.
  apply data_uri_to_fobj_path; congruence.
Qed.

Lemma data_uri_cut_at_fragment_or_query_witness :
  data_uri_to_fobj (ustr "data:image/png,AB" ++ ustr "?CD#EF")
  = data_uri_to_fobj (ustr "data:image/png,AB").
Proof.
  apply (data_uri_cut_at_fragment_or_query (ustr "image/png,AB") 63 (ustr "CD#EF")).
  - unfold plain_data_path. repeat split; try (apply (bool_decide_eq_false_1 _); reflexivity).
  - by right.
Defined.

(** *** The percent form *)

Lemma quote_from_bytes_cons (a : ascii) (bs : bytes) :
  quote_from_bytes (a :: bs)
  = (if quote_safe (N_of_ascii a) then [N_of_ascii a]
     else [37; hex_digit (N_of_ascii a / 16); hex_digit (N_of_ascii a mod 16)])
    ++ quote_from_bytes bs.
Proof. reflexivity. Qed.

(** A character of a quoted text: ASCII, and none of those that [urlsplit]
    removes or cuts at. *)
Lemma quote_from_bytes_chars (bs : bytes) :
  Forall (fun c => c < 128 /\ c ≠ 9 /\ c ≠ 10 /\ c ≠ 13 /\ c ≠ 35 /\ c ≠ 63 /\ c ≠ 43)
    (quote_from_bytes bs).
Proof.
  induction bs as [|a bs IH]; [constructor|].
  rewrite quote_from_bytes_cons. apply Forall_app. split; [|exact IH].
  destruct a as [[] [] [] [] [] [] [] []]; vm_compute;
    repeat (constructor; [repeat split; congruence|]); constructor.
Qed.

Lemma unquote_to_bytes_quote (bs : bytes) :
  unquote_to_bytes (quote_from_bytes bs) = N_of_ascii <$> bs.
Proof.
  induction bs as [|a bs IH]; [reflexivity|].
  rewrite quote_from_bytes_cons, fmap_cons, <- IH.
  destruct a as [[] [] [] [] [] [] [] []]; reflexivity.
Qed.

Lemma encode_ascii (s : str) :
  Forall (fun c => c < 128) s -> encode s = Returned (ascii_of_N <$> s).
Proof.
  intros Hs. unfold encode.
  assert (mapM utf8_encode_char s = Some ((fun c => [c]) <$> s)) as ->.
  { induction Hs as [|c s Hc _ IH]; [reflexivity|].
    change (mapM utf8_encode_char (c :: s))
      with (x ← utf8_encode_char c; k ← mapM utf8_encode_char s; mret (x :: k)).
    rewrite IH. unfold utf8_encode_char.
    assert ((c <? 128) = true) as -> by (apply N.ltb_lt; exact Hc). reflexivity. }
  cbn. f_equal. f_equal. clear Hs. induction s as [|c s IH]; [reflexivity|].
  cbn. by rewrite IH.
Qed.

Lemma N_of_ascii_of_N_list (s : list N) :
  Forall (fun c => c < 256) s -> N_of_ascii <$> (ascii_of_N <$> s) = s.
Proof.
  induction 1 as [|c s Hc _ IH]; [reflexivity|].
  rewrite !fmap_cons, IH. f_equal. by apply N_ascii_embedding.
Qed.

Lemma ascii_of_N_of_ascii_list (bs : bytes) : ascii_of_N <$> (N_of_ascii <$> bs) = bs.
Proof.
  induction bs as [|a bs IH]; [reflexivity|].
  rewrite !fmap_cons, IH. f_equal. apply ascii_N_embedding.
Qed.

Lemma plain_data_path_app (mime : str) (c : N) (payload : str) :
  plain_data_path mime -> c ≠ 47 ->
  Forall (fun c => c ≠ 9 /\ c ≠ 10 /\ c ≠ 13 /\ c ≠ 35 /\ c ≠ 63) (c :: payload) ->
  plain_data_path (mime ++ c :: payload).
Proof.
  intros (H9 & H10 & H13 & H35 & H63 & Hslash) Hc Hpayload.
  assert (forall x, x ∉ mime ->
            (forall y, y ≠ 9 /\ y ≠ 10 /\ y ≠ 13 /\ y ≠ 35 /\ y ≠ 63 -> y ≠ x) ->
            x ∉ mime ++ c :: payload) as Hnot.
  { intros x Hmime Hx [Hin|Hin]%elem_of_app; [done|].
    rewrite Forall_forall in Hpayload. by apply (Hx x (Hpayload x Hin)). }
  repeat split; try (apply Hnot; [assumption | intros x ?; intuition congruence]).
  by apply (startswith_pair_app 47).
Qed.

(** X12.  A data URI written as [data:MIME,] followed by the percent
    quoting of some bytes gives back these bytes, under the name
    [data_uri_N_bytes.SUBTYPE], where [N] is their number and [SUBTYPE] the
    text after the last [/] of [MIME]; here [MIME] is free of comma, tab,
    line ends, [#] and [?], does not start with [//] and does not end with
    [;base64]. *)
Theorem data_uri_percent_round_trip (mime : str) (data : bytes) :
  plain_data_path mime -> 44 ∉ mime -> endswith (ustr ";base64") mime = false ->
  data_uri_to_fobj (ustr "data:" ++ mime ++ 44 :: quote_from_bytes data)
  = inr (mkBytesIO data
           (ustr "data_uri_" ++ str_of_nat (length data) ++ ustr "_bytes."
            ++ last_part mime)).
Proof.
  intros Hmime Hcomma Hbase64.
  pose proof (quote_from_bytes_chars data) as Hq.
  assert (plain_data_path (mime ++ 44 :: quote_from_bytes data)) as Hp.
  { apply plain_data_path_app; [exact Hmime | discriminate |].
    constructor; [repeat split; discriminate|].
    eapply Forall_impl; [exact Hq|]. cbn. tauto. }
  destruct (urlparse_data _ [] Hp) as (Hs & Hn & Hpath); [by left|].
  rewrite app_nil_r in Hs, Hn, Hpath. unfold data_uri_to_fobj.
  rewrite Hs, Hn, Hpath, !bool_decide_eq_true_2 by reflexivity. cbn [andb].
  rewrite partition_char_first by exact Hcomma. rewrite Hbase64.
  rewrite encode_ascii by (eapply Forall_impl; [exact Hq|]; cbn; tauto).
  rewrite N_of_ascii_of_N_list by (eapply Forall_impl; [exact Hq|]; cbn; lia).
  rewrite unquote_to_bytes_quote, ascii_of_N_of_ascii_list. reflexivity.
Qed.

Lemma data_uri_percent_round_trip_witness :
  data_uri_to_fobj (ustr "data:application/binary,%F1%F2%F3")
  = inr (mkBytesIO [ascii_of_N 0xF1; ascii_of_N 0xF2; ascii_of_N 0xF3]
           (ustr "data_uri_3_bytes.binary")).
Proof.
  apply (data_uri_percent_round_trip (ustr "application/binary")
           [ascii_of_N 0xF1; ascii_of_N 0xF2; ascii_of_N 0xF3]).
  - unfold plain_data_path. repeat split; try (apply (bool_decide_eq_false_1 _); reflexivity).
  - apply (bool_decide_eq_false_1 _). reflexivity.
  - reflexivity.
Defined.

(** *** The base64 form *)

(** A property checked on every number below a bound holds for them. *)
Lemma N_below (n : nat) (f : N -> bool) :
  forallb f (N.of_nat <$> List.seq 0%nat n) = true ->
  forall v, v < N.of_nat n -> f v = true.
Proof.
  intros H v Hv. rewrite forallb_forall in H. apply H, list_elem_of_In, list_elem_of_fmap.
  exists (N.to_nat v). split; [by rewrite N2Nat.id | apply elem_of_seq; lia].
Qed.

Lemma list_ind_3 {A} (P : list A -> Prop) :
  P [] -> (forall a, P [a]) -> (forall a b, P [a; b]) ->
  (forall a b c l, P l -> P (a :: b :: c :: l)) ->
  forall l, P l.
Proof.
  intros H0 H1 H2 H3 l.
  assert (P l /\ (forall a, P (a :: l)) /\ (forall a b, P (a :: b :: l))) as [H _].
  { induction l as [|x l (IH0 & IH1 & IH2)]; [by repeat split|].
    split; [apply IH1|]. split; [intros a; apply IH2 | intros a b; by apply H3]. }
  exact H.
Qed.

Lemma table_b2a_base64_char (v : N) :
  let c := table_b2a_base64 v in
  c < 128 /\ c ≠ 9 /\ c ≠ 10 /\ c ≠ 13 /\ c ≠ 35 /\ c ≠ 63 /\ c ≠ 44 /\ c ≠ 61.
Proof.
  unfold table_b2a_base64.
  destruct (N.ltb_spec v 26); [lia|]. destruct (N.ltb_spec v 52); [lia|].
  destruct (N.ltb_spec v 62); [lia|]. destruct (N.eqb_spec v 62); lia.
Qed.

Lemma table_a2b_b2a (v : N) :
  v < 64 -> table_a2b_base64 (table_b2a_base64 v) = Some v.
Proof.
  intros Hv.
  apply (N_below 64%nat (fun v => bool_decide (table_a2b_base64 (table_b2a_base64 v) = Some v)))
    in Hv; [by apply bool_decide_eq_true_1 in Hv | vm_compute; reflexivity].
Qed.

(** One step of the decoding loop at a character of the alphabet. *)
Lemma a2b_loop_alphabet (quad_pos leftchar pads v : N) (s : list N) :
  v < 64 ->
  a2b_loop quad_pos leftchar pads (table_b2a_base64 v :: s)
  = if quad_pos =? 0 then a2b_loop 1 v 0 s
    else if quad_pos =? 1 then
      (to_uchar (N.lor (N.shiftl leftchar 2) (N.shiftr v 4)) ::.)
        <$> a2b_loop 2 (N.land v 0x0f) 0 s
    else if quad_pos =? 2 then
      (to_uchar (N.lor (N.shiftl leftchar 4) (N.shiftr v 2)) ::.)
        <$> a2b_loop 3 (N.land v 0x03) 0 s
    else
      (to_uchar (N.lor (N.shiftl leftchar 6) v) ::.) <$> a2b_loop 0 0 0 s.
Proof.
  intros Hv. cbn [a2b_loop].
  destruct (table_b2a_base64_char v) as (_ & _ & _ & _ & _ & _ & _ & Hpad).
  apply N.eqb_neq in Hpad. rewrite Hpad, table_a2b_b2a by exact Hv. reflexivity.
Qed.

(** The arithmetic of a quad, checked on all pairs of bytes. *)
Lemma quad_first_pair (a b : N) :
  a < 256 -> b < 256 ->
  let s2 := N.lor (N.shiftl (N.land a 0x03) 4) (N.shiftr b 4) in
  N.shiftr a 2 < 64 /\ s2 < 64
  /\ to_uchar (N.lor (N.shiftl (N.shiftr a 2) 2) (N.shiftr s2 4)) = a
  /\ N.land s2 0x0f = N.shiftr b 4.
Proof.
  intros Ha Hb.
  pose (f := fun a b : N =>
    let s2 := N.lor (N.shiftl (N.land a 0x03) 4) (N.shiftr b 4) in
    (N.shiftr a 2 <? 64) && (s2 <? 64)
    && (to_uchar (N.lor (N.shiftl (N.shiftr a 2) 2) (N.shiftr s2 4)) =? a)
    && (N.land s2 0x0f =? N.shiftr b 4)).
  assert (f a b = true) as Hf.
  { apply (N_below 256%nat (fun a => forallb (f a) (N.of_nat <$> List.seq 0%nat 256%nat))) in Ha;
      [|vm_compute; reflexivity].
    by apply (N_below 256%nat (f a)) in Hb. }
  unfold f in Hf. cbv zeta in Hf.
  apply andb_prop in Hf as [[[H1 H2]%andb_prop H3]%andb_prop H4].
  apply N.ltb_lt in H1, H2. apply N.eqb_eq in H3, H4. by repeat split.
Qed.

Lemma quad_last_pair (b c : N) :
  b < 256 -> c < 256 ->
  let s3 := N.lor (N.shiftl (N.land b 0x0f) 2) (N.shiftr c 6) in
  s3 < 64 /\ N.land c 0x3f < 64
  /\ to_uchar (N.lor (N.shiftl (N.shiftr b 4) 4) (N.shiftr s3 2)) = b
  /\ to_uchar (N.lor (N.shiftl (N.land s3 0x03) 6) (N.land c 0x3f)) = c.
Proof.
  intros Hb Hc.
  pose (f := fun b c : N =>
    let s3 := N.lor (N.shiftl (N.land b 0x0f) 2) (N.shiftr c 6) in
    (s3 <? 64) && (N.land c 0x3f <? 64)
    && (to_uchar (N.lor (N.shiftl (N.shiftr b 4) 4) (N.shiftr s3 2)) =? b)
    && (to_uchar (N.lor (N.shiftl (N.land s3 0x03) 6) (N.land c 0x3f)) =? c)).
  assert (f b c = true) as Hf.
  { apply (N_below 256%nat (fun b => forallb (f b) (N.of_nat <$> List.seq 0%nat 256%nat))) in Hb;
      [|vm_compute; reflexivity].
    by apply (N_below 256%nat (f b)) in Hc. }
  unfold f in Hf. cbv zeta in Hf.
  apply andb_prop in Hf as [[[H1 H2]%andb_prop H3]%andb_prop H4].
  apply N.ltb_lt in H1, H2. apply N.eqb_eq in H3, H4. by repeat split.
Qed.

Lemma lor_shiftr_0 (x : N) : N.lor x (N.shiftr 0 4) = x.
Proof. apply N.lor_0_r. Qed.

Lemma lor_shiftr_0' (x : N) : N.lor x (N.shiftr 0 6) = x.
Proof. apply N.lor_0_r. Qed.

Lemma b2a_loop_triple (a b c : N) (data : list N) :
  b2a_loop (a :: b :: c :: data)
  = table_b2a_base64 (N.shiftr a 2)
    :: table_b2a_base64 (N.lor (N.shiftl (N.land a 0x03) 4) (N.shiftr b 4))
    :: table_b2a_base64 (N.lor (N.shiftl (N.land b 0x0f) 2) (N.shiftr c 6))
    :: table_b2a_base64 (N.land c 0x3f)
    :: b2a_loop data.
Proof. reflexivity. Qed.

(** Decoding undoes the encoding of any bytes. *)
Lemma a2b_loop_b2a_loop (data : list N) :
  Forall (fun b => b < 256) data -> a2b_loop 0 0 0 (b2a_loop data) = Some data.
Proof.
  induction data as [|a|a b|a b c data IH] using list_ind_3; intros Hdata.
  - reflexivity.
  - apply Forall_inv in Hdata as Ha.
    destruct (quad_first_pair a 0 Ha) as (H1 & H2 & H3 & _); [lia|].
    rewrite lor_shiftr_0 in H2, H3. cbn [b2a_loop].
    rewrite !a2b_loop_alphabet by assumption. cbn [N.eqb Pos.eqb]. rewrite H3.
    reflexivity.
  - inversion Hdata as [|? ? Ha Hdata']; subst. apply Forall_inv in Hdata' as Hb.
    destruct (quad_first_pair a b Ha Hb) as (H1 & H2 & H3 & H4).
    destruct (quad_last_pair b 0 Hb) as (H5 & _ & H6 & _); [lia|].
    rewrite lor_shiftr_0' in H5, H6. cbn [b2a_loop].
    rewrite !a2b_loop_alphabet by assumption. cbn [N.eqb Pos.eqb].
    rewrite H3, H4, H6. reflexivity.
  - inversion Hdata as [|? ? Ha Hdata']; subst.
    inversion Hdata' as [|? ? Hb Hdata'']; subst.
    inversion Hdata'' as [|? ? Hc Hrest]; subst.
    destruct (quad_first_pair a b Ha Hb) as (H1 & H2 & H3 & H4).
    destruct (quad_last_pair b c Hb Hc) as (H5 & H6 & H7 & H8).
    rewrite b2a_loop_triple, !a2b_loop_alphabet by assumption. cbn [N.eqb Pos.eqb].
    rewrite H3, H4, H7, H8, (IH Hrest). reflexivity.
Qed.

Lemma b2a_loop_chars (data : list N) :
  Forall (fun c => c < 128 /\ c ≠ 9 /\ c ≠ 10 /\ c ≠ 13 /\ c ≠ 35 /\ c ≠ 63)
    (b2a_loop data).
Proof.
  assert (forall v, (fun c => c < 128 /\ c ≠ 9 /\ c ≠ 10 /\ c ≠ 13 /\ c ≠ 35 /\ c ≠ 63)
                      (table_b2a_base64 v)) as Hchar.
  { intros v. pose proof (table_b2a_base64_char v). cbv zeta in *. tauto. }
  assert ((fun c => c < 128 /\ c ≠ 9 /\ c ≠ 10 /\ c ≠ 13 /\ c ≠ 35 /\ c ≠ 63) 61) as Hpad
    by (repeat split; discriminate).
  induction data as [|a|a b|a b c data IH] using list_ind_3.
  - constructor.
  - cbn [b2a_loop]. repeat (constructor; [by auto|]). constructor.
  - cbn [b2a_loop]. repeat (constructor; [by auto|]). constructor.
  - rewrite b2a_loop_triple. repeat (constructor; [by auto|]). exact IH.
Qed.

Lemma b64decode_b64encode (data : bytes) : b64decode (b64encode data) = inr data.
Proof.
  unfold b64decode, b64encode.
  assert (forallb (fun c => c <? 128) (b2a_loop (N_of_ascii <$> data)) = true) as ->.
  { apply forallb_forall. intros c Hc%list_elem_of_In.
    pose proof (b2a_loop_chars (N_of_ascii <$> data)) as H.
    rewrite Forall_forall in H. apply N.ltb_lt. by apply H. }
  unfold a2b_base64. rewrite a2b_loop_b2a_loop.
  - cbn. by rewrite ascii_of_N_of_ascii_list.
  - apply Forall_fmap, Forall_forall. intros a _. apply N_ascii_bounded.
Qed.

Lemma endswith_app {A} `{EqDecision A} (p s : list A) : endswith p (s ++ p) = true.
Proof. unfold endswith. rewrite rev_app_distr. apply startswith_app. Qed.

(** X13.  A data URI written as [data:MIME;base64,] followed by the base64
    encoding of some bytes gives back these bytes, under the name
    [data_uri_N_bytes.SUBTYPE], where [N] is their number and [SUBTYPE] the
    text after the last [/] of [MIME]; here [MIME] is free of comma, tab,
    line ends, [#] and [?] and does not start with [//]. *)
Theorem data_uri_base64_round_trip (mime : str) (data : bytes) :
  plain_data_path mime -> 44 ∉ mime ->
  data_uri_to_fobj (ustr "data:" ++ mime ++ ustr ";base64," ++ b64encode data)
  = inr (mkBytesIO data
           (ustr "data_uri_" ++ str_of_nat (length data) ++ ustr "_bytes."
            ++ last_part mime)).
Proof.
  intros Hmime Hcomma.
  pose proof (b2a_loop_chars (N_of_ascii <$> data)) as Hq. fold (b64encode data) in Hq.
  change (mime ++ ustr ";base64," ++ b64encode data)
    with (mime ++ 59 :: ustr "base64" ++ 44 :: b64encode data).
  assert (plain_data_path (mime ++ 59 :: ustr "base64")) as Hp0.
  { apply plain_data_path_app; [exact Hmime | discriminate |].
    repeat (constructor; [repeat split; discriminate|]). constructor. }
  assert (plain_data_path ((mime ++ 59 :: ustr "base64") ++ 44 :: b64encode data)) as Hp.
  { apply plain_data_path_app; [exact Hp0 | discriminate |].
    constructor; [repeat split; discriminate|].
    eapply Forall_impl; [exact Hq|]. cbn. tauto. }
  assert (44 ∉ mime ++ 59 :: ustr "base64") as Hcomma'.
  { intros [Hin|Hin]%elem_of_app; [done|].
    revert Hin. apply (bool_decide_eq_false_1 _). reflexivity. }
  destruct (urlparse_data _ [] Hp) as (Hs & Hn & Hpath); [by left|].
  rewrite app_nil_r, <- app_assoc in Hs, Hn, Hpath.
  change ((59 :: ustr "base64") ++ 44 :: b64encode data)
    with (59 :: ustr "base64" ++ 44 :: b64encode data) in Hs, Hn, Hpath.
  unfold data_uri_to_fobj.
  rewrite Hs, Hn, Hpath, !bool_decide_eq_true_2 by reflexivity. cbn [andb].
  change (mime ++ 59 :: ustr "base64" ++ 44 :: b64encode data)
    with (mime ++ (59 :: ustr "base64") ++ 44 :: b64encode data).
  rewrite app_assoc, partition_char_first by exact Hcomma'.
  change (mime ++ 59 :: ustr "base64") with (mime ++ ustr ";base64").
  rewrite endswith_app, b64decode_b64encode.
  rewrite take_app_length' by (rewrite length_app; cbn; lia). reflexivity.
Qed.

Lemma data_uri_base64_round_trip_witness :
  data_uri_to_fobj jpeg_uri
  = inr (mkBytesIO [ascii_of_N 0xDE; ascii_of_N 0xAD; ascii_of_N 0xBE; ascii_of_N 0xEF]
           (ustr "data_uri_4_bytes.jpeg")).
Proof.
  apply (data_uri_base64_round_trip (ustr "image/jpeg")
           [ascii_of_N 0xDE; ascii_of_N 0xAD; ascii_of_N 0xBE; ascii_of_N 0xEF]).
  - unfold plain_data_path. repeat split; try (apply (bool_decide_eq_false_1 _); reflexivity).
  - apply (bool_decide_eq_false_1 _). reflexivity.
Defined.

(** *** Arguments that are refused *)

Lemma lstrip_subseteq {A} (ws : A -> bool) (s : list A) : lstrip ws s ⊆ s.
Proof.
  induction s as [|c s IH]; [done|]. cbn [lstrip].
  destruct (ws c); [|done]. intros x Hx. right. by apply IH.
Qed.

Lemma remove_char_subseteq {A} `{EqDecision A} (a : A) (s : list A) : remove_char a s ⊆ s.
Proof. apply list_subseteq_filter. Qed.

Lemma split_once_subseteq (sep : N) (s : str) : (split_once sep s).1 ⊆ s.
Proof.
  unfold split_once. destruct (partition_char sep s) as [[before after]|] eqn:E; [|done].
  apply partition_char_Some in E as [-> _]. cbn [fst]. intros x Hx.
  apply elem_of_app. by left.
Qed.

Lemma split_at_first_subseteq (stop : N -> bool) (s : str) :
  (split_at_first stop s).2 ⊆ s.
Proof.
  induction s as [|c s IH]; [done|]. cbn [split_at_first].
  destruct (stop c); [done|].
  destruct (split_at_first stop s) as [before rest]. cbn [snd] in *.
  intros x Hx. right. by apply IH.
Qed.

(** The path that [urlsplit] returns is made of characters of the URL. *)
Lemma urlsplit_path_subseteq (s : str) : (urlsplit s).1.1.2 ⊆ s.
Proof.
  unfold urlsplit.
  set (url2 := remove_char 10 (remove_char 13 (remove_char 9
                 (lstrip c0_control_or_space s)))).
  assert (url2 ⊆ s) as H2.
  { unfold url2. etrans; [apply remove_char_subseteq|].
    etrans; [apply remove_char_subseteq|]. etrans; [apply remove_char_subseteq|].
    apply lstrip_subseteq. }
  destruct (match partition_char 58 url2 with
            | Some (c :: before, after) =>
                if is_ascii_alpha c && forallb scheme_char (c :: before)
                then (ascii_lower <$> c :: before, after)
                else ([], url2)
            | _ => ([], url2)
            end) as [scheme url3] eqn:E3.
  assert (url3 ⊆ url2) as H3.
  { destruct (partition_char 58 url2) as [[[|c before] after]|] eqn:Ep;
      try (injection E3 as <- <-; done).
    destruct (is_ascii_alpha c && forallb scheme_char (c :: before));
      injection E3 as <- <-; [|done].
    apply partition_char_Some in Ep as [-> _]. intros x Hx.
    apply elem_of_app. right. by right. }
  destruct (if startswith (ustr "//") url3 then _splitnetloc url3 else ([], url3))
    as [netloc url4] eqn:E4.
  assert (url4 ⊆ url3) as H4.
  { destruct (startswith (ustr "//") url3); [|by injection E4 as <- <-].
    unfold _splitnetloc in E4.
    pose proof (split_at_first_subseteq netloc_delimiter (drop 2 url3)) as H.
    rewrite E4 in H. cbn [snd] in H. etrans; [exact H | apply subseteq_drop]. }
  pose proof (split_once_subseteq 35 url4) as H5.
  destruct (split_once 35 url4) as [url5 fragment]. cbn [fst] in H5.
  pose proof (split_once_subseteq 63 url5) as H6.
  destruct (split_once 63 url5) as [url6 query]. cbn [fst snd] in *.
  etrans; [exact H6|]. etrans; [exact H5|]. etrans; [exact H4|]. by etrans.
Qed.

(** X14.  [data_uri_to_fobj] accepts no text without a comma: it raises
    its [ValueError], whatever the scheme and the rest of the text are. *)
Theorem data_uri_without_comma (s : str) :
  44 ∉ s -> data_uri_to_fobj s = inl DataValueError.
Proof.
  intros Hcomma. unfold data_uri_to_fobj.
  case_bool_decide as Hscheme; [|reflexivity]. cbn [andb].
  destruct (bool_decide (u_netloc (urlparse s) = [])); [|reflexivity].
  rewrite partition_char_absent; [reflexivity|].
  intros Hin. apply Hcomma, urlsplit_path_subseteq.
  revert Hscheme Hin. unfold urlparse.
  destruct (urlsplit s) as [[[[scheme netloc] url] query] fragment]. cbn [fst snd].
  destruct (bool_decide (scheme ∈ uses_params)) eqn:Hparams.
  - intros Hs. exfalso. revert Hparams.
    destruct (contains 59 url); [destruct (_splitparams url)|]; cbn in Hs; subst scheme;
      discriminate.
  - cbn. tauto.
Qed.

Lemma data_uri_without_comma_witness :
  data_uri_to_fobj (ustr "data:image/png;base64;3q2+7w==") = inl DataValueError.
Proof.
  apply (data_uri_without_comma (ustr "data:image/png;base64;3q2+7w==")).
  apply (bool_decide_eq_false_1 _). reflexivity.
Defined.

(** ** The path of a quoted file URI *)

Lemma urlparse_file (q : str) :
  (9 ∉ q) -> (10 ∉ q) -> (13 ∉ q) -> (35 ∉ q) -> (63 ∉ q) ->
  urlparse (ustr "file://" ++ 47 :: q) = mkParseResult (ustr "file") [] (47 :: q) [] [] [].
Proof.
  intros H9 H10 H13 H35 H63.
  assert (remove_char 10 (remove_char 13 (remove_char 9
            (lstrip c0_control_or_space (ustr "file://" ++ 47 :: q))))
          = ustr "file://" ++ 47 :: q) as Hurl.
  { change (lstrip c0_control_or_space (ustr "file://" ++ 47 :: q))
      with (ustr "file://" ++ 47 :: q).
    change (ustr "file://" ++ 47 :: q) with (ustr "file:///" ++ q).
    rewrite !remove_char_app.
    rewrite (remove_char_absent 9 q), (remove_char_absent 13 q),
      (remove_char_absent 10 q) by assumption.
    reflexivity. }
  unfold urlparse, urlsplit. rewrite Hurl.
  change (partition_char 58 (ustr "file://" ++ 47 :: q))
    with (Some ([102; 105; 108; 101], 47 :: 47 :: 47 :: q)).
  cbv beta iota zeta.
  change (is_ascii_alpha 102 && forallb scheme_char [102; 105; 108; 101]) with true.
  cbv beta iota zeta.
  change (startswith (ustr "//") (47 :: 47 :: 47 :: q)) with true.
  cbv beta iota zeta.
  change (_splitnetloc (47 :: 47 :: 47 :: q)) with (@nil N, 47 :: q).
  cbv beta iota zeta.
  rewrite (split_once_absent 35 (47 :: q))
    by (apply not_elem_of_cons; split; [discriminate | exact H35]).
  cbv beta iota zeta.
  rewrite (split_once_absent 63 (47 :: q))
    by (apply not_elem_of_cons; split; [discriminate | exact H63]).
  cbv beta iota zeta.
  change (bool_decide (ascii_lower <$> [102; 105; 108; 101] ∈ uses_params)) with false.
  reflexivity.
Qed.

Lemma replace_char_absent {A} `{EqDecision A} (a c : A) (s : list A) :
  a ∉ s -> replace_char a c s = s.
Proof.
  unfold replace_char. induction s as [|x s IH]; intros Ha; [reflexivity|].
  apply not_elem_of_cons in Ha as [Hx Hs]. cbn.
  rewrite bool_decide_eq_false_2 by congruence. by rewrite IH.
Qed.

Lemma unquote_runs_ascii (s : str) :
  Forall (fun c => c < 128) s -> unquote_runs s = (s, []).
Proof.
  induction 1 as [|c s Hc _ IH]; [reflexivity|]. cbn [unquote_runs]. rewrite IH.
  by apply N.ltb_lt in Hc as ->.
Qed.

Lemma utf8_scan_ascii (s : list N) :
  Forall (fun c => c < 128) s -> utf8_scan 0 s = Some <$> s.
Proof.
  induction 1 as [|c s Hc _ IH]; [reflexivity|].
  cbn [utf8_scan]. unfold utf8_first. apply N.ltb_lt in Hc as ->. cbn [pred].
  by rewrite IH.
Qed.

Lemma decode_replace_ascii (bs : bytes) :
  Forall (fun b => N_of_ascii b < 128) bs -> decode_replace bs = N_of_ascii <$> bs.
Proof.
  intros H. unfold decode_replace.
  rewrite utf8_scan_ascii by (apply Forall_fmap; exact H).
  generalize (N_of_ascii <$> bs). intros s.
  induction s as [|c s IH]; [reflexivity|]. cbn. by rewrite IH.
Qed.

(** A quoted text without [%] is the text itself, and is ASCII. *)
Lemma quote_from_bytes_plain (bs : bytes) :
  37 ∉ quote_from_bytes bs ->
  Forall (fun b => N_of_ascii b < 128) bs /\ quote_from_bytes bs = N_of_ascii <$> bs.
Proof.
  induction bs as [|a bs IH]; [by split|].
  rewrite quote_from_bytes_cons. intros Hnot.
  destruct (quote_safe (N_of_ascii a)) eqn:Hsafe.
  - apply not_elem_of_cons in Hnot as [_ Hnot]. destruct (IH Hnot) as [Hbs Hq].
    split; [|by rewrite Hq]. constructor; [|exact Hbs].
    revert Hsafe. destruct a as [[] [] [] [] [] [] [] []]; vm_compute; congruence.
  - exfalso. apply Hnot. by left.
Qed.

(** [unquote_plus] undoes [quote_from_bytes], up to the decoding of the
    bytes. *)
Lemma unquote_plus_quote_from_bytes (bs : bytes) :
  unquote_plus (quote_from_bytes bs) = decode_replace bs.
Proof.
  pose proof (quote_from_bytes_chars bs) as Hq. unfold unquote_plus.
  rewrite replace_char_absent.
  2:{ rewrite Forall_forall in Hq. intros Hin. apply Hq in Hin. tauto. }
  unfold unquote, contains. case_bool_decide as Hpercent.
  - rewrite unquote_runs_ascii by (eapply Forall_impl; [exact Hq|]; cbn; tauto).
    unfold unquote_run.
    by rewrite app_nil_r, unquote_to_bytes_quote, ascii_of_N_of_ascii_list.
  - apply quote_from_bytes_plain in Hpercent as [Hascii ->].
    by rewrite decode_replace_ascii.
Qed.

(** The URI [file://] followed by a quoted absolute name is a plain file
    URI, with the quoted name as path. *)
Lemma urlparse_quoted_file (bs : bytes) :
  urlparse (ustr "file://" ++ quote_from_bytes ("/"%char :: bs))
  = mkParseResult (ustr "file") [] (quote_from_bytes ("/"%char :: bs)) [] [] [].
Proof.
  pose proof (quote_from_bytes_chars bs) as Hq. rewrite Forall_forall in Hq.
  change (quote_from_bytes ("/"%char :: bs)) with (47 :: quote_from_bytes bs).
  apply urlparse_file; intros Hin; apply Hq in Hin; tauto.
Qed.

(** X15.  [file_uri_to_path] undoes the quoting of a file URI: for the URI
    that is [file://] followed by the percent quoting of the bytes of an
    absolute file name, it returns these bytes decoded as UTF-8, every
    malformed range replaced by U+FFFD. *)
Theorem file_uri_to_path_quoted (bs : bytes) :
  file_uri_to_path (Some (ustr "file://" ++ quote_from_bytes ("/"%char :: bs)))
  = Returned (decode_replace ("/"%char :: bs)).
Proof.
  rewrite file_uri_to_path_plain; rewrite urlparse_quoted_file; [|by repeat split].
  cbn [u_path]. f_equal. apply unquote_plus_quote_from_bytes.
Qed.


(** *** File names that are UTF-8 *)

Ltac divlia := zify; Z.to_euclidean_division_equations; lia.

Ltac decide_tests :=
  repeat match goal with
  | |- context [?a <? ?b] =>
      destruct (N.ltb_spec a b); [try (exfalso; divlia)|try (exfalso; divlia)]
  | |- context [?a <=? ?b] =>
      destruct (N.leb_spec a b); [try (exfalso; divlia)|try (exfalso; divlia)]
  | |- context [?a =? ?b] =>
      destruct (N.eqb_spec a b); [try (exfalso; divlia)|try (exfalso; divlia)]
  end.

(** The decoder reads back the bytes that the encoder writes for one
    character. *)
Lemma utf8_scan_encode_char (c : N) (bs rest : list N) :
  utf8_encode_char c = Some bs ->
  Forall (fun b => b < 256) bs /\ utf8_scan 0 (bs ++ rest) = Some c :: utf8_scan 0 rest.
Proof.
  unfold utf8_encode_char, in_range.
  destruct (N.ltb_spec c 0x80).
  { intros [= <-]. split; [repeat constructor; lia|].
    cbn [app utf8_scan]. unfold utf8_first.
    destruct (N.ltb_spec c 0x80); [reflexivity|lia]. }
  destruct (N.ltb_spec c 0x800).
  { intros [= <-]. split; [repeat constructor; divlia|].
    cbn [app utf8_scan]. unfold utf8_first, is_continuation, in_range.
    decide_tests; cbn [andb pred utf8_scan]; do 2 f_equal; divlia. }
  destruct (N.ltb_spec c 0x10000).
  { destruct (N.leb_spec 0xD800 c); destruct (N.leb_spec c 0xDFFF); cbn [andb];
      try discriminate; intros [= <-]; (split; [repeat constructor; divlia|]);
      cbn [app utf8_scan]; unfold utf8_first, is_continuation, in_range;
      decide_tests; cbn [andb orb negb pred utf8_scan]; do 2 f_equal; divlia. }
  destruct (N.ltb_spec c 0x110000); [|discriminate].
  intros [= <-]. split; [repeat constructor; divlia|].
  cbn [app utf8_scan]. unfold utf8_first, is_continuation, in_range.
  decide_tests; cbn [andb orb negb pred utf8_scan]; do 2 f_equal; divlia.
Qed.

Lemma utf8_scan_encode (p : str) (cs : list (list N)) :
  mapM utf8_encode_char p = Some cs ->
  Forall (fun b => b < 256) (concat cs) /\ utf8_scan 0 (concat cs) = Some <$> p.
Proof.
  revert cs. induction p as [|c p IH]; intros cs.
  { intros [= <-]. by split. }
  change (mapM utf8_encode_char (c :: p))
    with (x ← utf8_encode_char c; k ← mapM utf8_encode_char p; mret (x :: k)).
  destruct (utf8_encode_char c) as [bs|] eqn:Hc; [|discriminate].
  destruct (mapM utf8_encode_char p) as [k|]; [|discriminate].
  cbn. intros [= <-]. destruct (IH k eq_refl) as [Hk Hscan].
  destruct (utf8_scan_encode_char c bs (concat k) Hc) as [Hbs Hfirst].
  cbn [concat]. split; [by apply Forall_app|]. by rewrite Hfirst, Hscan.
Qed.

(** Decoding undoes encoding. *)
Lemma decode_replace_encode (p : str) (b : bytes) :
  encode p = Returned b -> decode_replace b = p.
Proof.
  unfold encode. destruct (mapM utf8_encode_char p) as [cs|] eqn:Hcs; [|discriminate].
  cbn. intros [= <-]. destruct (utf8_scan_encode p cs Hcs) as [Hbytes Hscan].
  unfold decode_replace. rewrite N_of_ascii_of_N_list, Hscan by exact Hbytes.
  clear. induction p as [|c p IH]; [reflexivity|]. cbn. by rewrite IH.
Qed.

Lemma encode_slash (p : str) (b : bytes) :
  encode (47 :: p) = Returned b -> exists bs, b = "/"%char :: bs.
Proof.
  unfold encode.
  change (mapM utf8_encode_char (47 :: p))
    with (x ← utf8_encode_char 47; k ← mapM utf8_encode_char p; mret (x :: k)).
  change (utf8_encode_char 47) with (Some [47]).
  destruct (mapM utf8_encode_char p) as [k|]; [|discriminate].
  cbn. intros [= <-]. by eexists.
Qed.

(** X16.  For an absolute file name that can be encoded as UTF-8,
    [file_uri_to_path] gives the name back from the URI that is [file://]
    followed by the percent quoting of the encoded name, which is the URI
    that [_decode] asks the Java process for on a POSIX system. *)
Theorem file_uri_to_path_round_trip (p : str) (b : bytes) :
  encode (47 :: p) = Returned b ->
  file_uri_to_path (Some (ustr "file://" ++ quote_from_bytes b)) = Returned (47 :: p).
Proof.
  intros Hb. destruct (encode_slash p b Hb) as [bs ->].
  rewrite file_uri_to_path_plain; rewrite urlparse_quoted_file; [|by repeat split].
  cbn [u_path]. f_equal. rewrite unquote_plus_quote_from_bytes.
  by apply decode_replace_encode.
Qed.

Lemma file_uri_to_path_round_trip_witness :
  file_uri_to_path (Some (ustr "file:///tmp/caf%C3%A9%20%2B%201.png"))
  = Returned (ustr "/tmp/caf" ++ [0xE9] ++ ustr " + 1.png").
Proof.
  apply (file_uri_to_path_round_trip (ustr "tmp/caf" ++ [0xE9] ++ ustr " + 1.png")
           (bstr "/tmp/caf" ++ [ascii_of_N 0xC3; ascii_of_N 0xA9] ++ bstr " + 1.png")).
  vm_compute. reflexivity.
Defined.

(** ** The rxing reader *)

(** X17.  [RxingBarCodeReader._decode] returns a result for no file: for
    every request that is not empty it raises an exception at the first
    file, because [BarCode.parse_rxing] returns for no output; only the
    empty request returns, with the empty list. *)
Theorem rxing_decode_returns_nothing
    (unicode_upper : N -> list N) (unicode_decimal : N -> option N)
    (unicode_name : list N -> option N) (as_uri : str -> str)
    (rxing_popen : list str -> rxing_process) (self : RxingBarCodeReader)
    (filenames : list str) (try_harder : bool) (possible_formats : list str)
    (pure_barcode : bool) :
  match filenames with
  | [] =>
      rxing_decode unicode_upper unicode_decimal unicode_name as_uri rxing_popen self
        filenames try_harder possible_formats pure_barcode = inr []
  | _ :: _ =>
      exists e,
        rxing_decode unicode_upper unicode_decimal unicode_name as_uri rxing_popen self
          filenames try_harder possible_formats pure_barcode = inl e
  end.
Proof.
  destruct filenames as [|fn filenames]; [reflexivity|].
  unfold rxing_decode. cbn [rxing_results].
  destruct (rxing_popen _) as [e| |output returncode]; [by eexists..|].
  case_bool_decide; [by eexists|].
  destruct (parse_rxing_raises unicode_upper unicode_decimal unicode_name as_uri output fn)
    as [e ->].
  by eexists.
Qed.
